(** * Social-media ETL job and CRUD API: a shallow embedding

    The development follows the two source files of the repository:

    - [backend/data_processing.py]: the field normalizers ([clean_boolean],
      [clean_text], [clean_email], [clean_integer], [clean_float],
      [clean_datetime], [clean_location], [parse_tags]) and the importer
      ([import_data], [ensure_sys_admin]);
    - [backend/app.py]: the HTTP handlers over the same three tables.

    Modelling conventions.

    - A Python [str] is a Rocq [string] whose characters are the code points
      below 256; [str.strip], [str.lower], [str.replace] and the [in] test are
      written out for that repertoire, with CPython's tables for whitespace,
      case and printability.
    - A Python [int] is a [Z].  A Python [float] is an IEEE binary64 value,
      kept as sign, integer significand and binary exponent ([pyfloat]);
      decimal text is rounded to it exactly as [float()] does
      (round-half-even).
    - An exception is a value of [exn]; a computation that may raise returns
      [pyresult].  Its third outcome, [Beyond], marks a run in which a JSON
      escape [\uXXXX] names a code point from 256 on: the text it builds is
      outside the repertoire above, and nothing is stated about such a run.
    - What the interpreter and the C library leave open is a [platform]: how
      deep [json.loads] can nest containers before RecursionError (at least
      [min_json_depth]), and whether [strftime] pads a year below 1000.  The
      limit on the digits of an integer literal is CPython's default, 4300.
    - The SQLite store is three lists of rows with the two AUTOINCREMENT
      counters.  A row holds what SQLite keeps of the values bound to it:
      an integer outside 64 bits is refused with OverflowError when it is
      bound, a TEXT column keeps a number as its text, a REAL column keeps
      not-a-number as NULL.  What SQLite leaves open is an [engine]: the
      order of rows that tie under an ORDER BY, the text of a REAL value,
      the longest LIKE pattern, and whether a filter is evaluated on a row
      that another filter rejects.
    - A CSV file is given as the lines [csv.reader] splits it into; the
      clock ([created_at], [datetime.now()]) is an argument where it is
      read and left out where it is only stored.
    - A request body is the object [request.get_json()] decodes, any JSON
      value; the id in a URL is a natural number, as the [int] converter
      of the route matches digits only. *)

From Stdlib Require Import ZArith String Ascii List Bool Lia DecimalString.
From stdpp Require Import gmap strings list.

Open Scope string_scope.
Open Scope Z_scope.

(* ===================================================================== *)
(** * Python strings                                                      *)
(* ===================================================================== *)

Definition code (c : ascii) : nat := nat_of_ascii c.

Definition in_range (lo hi n : nat) : bool := Nat.leb lo n && Nat.leb n hi.

(** [str.isspace] on one character: 0x09-0x0d, 0x1c-0x20, 0x85, 0xa0. *)
Definition isspace (c : ascii) : bool :=
  let n := code c in
  in_range 9 13 n || in_range 28 32 n || Nat.eqb n 133 || Nat.eqb n 160.

(** C [isspace] in the "C" locale, used inside [float()] and [int()]. *)
Definition c_isspace (c : ascii) : bool :=
  let n := code c in in_range 9 13 n || Nat.eqb n 32.

(** [str.lower] on one character: A-Z and the upper-case letters of the
    Latin-1 supplement (0xc0-0xde but the multiplication sign 0xd7). *)
Definition lower_char (c : ascii) : ascii :=
  let n := code c in
  if in_range 65 90 n || (in_range 192 222 n && negb (Nat.eqb n 215))
  then ascii_of_nat (n + 32) else c.

Fixpoint lower (s : string) : string :=
  match s with
  | "" => ""
  | String c r => String (lower_char c) (lower r)
  end.

Fixpoint lstrip_by (sp : ascii -> bool) (s : string) : string :=
  match s with
  | "" => ""
  | String c r => if sp c then lstrip_by sp r else s
  end.

Fixpoint rstrip_by (sp : ascii -> bool) (s : string) : string :=
  match s with
  | "" => ""
  | String c r =>
      match rstrip_by sp r with
      | "" => if sp c then "" else String c ""
      | r' => String c r'
      end
  end.

Definition strip_by (sp : ascii -> bool) (s : string) : string :=
  rstrip_by sp (lstrip_by sp s).

(** [s.strip()] *)
Definition strip (s : string) : string := strip_by isspace s.

(** [s.startswith(p)] *)
Fixpoint startswith (p s : string) : bool :=
  match p, s with
  | "", _ => true
  | String a p', String b s' => Ascii.eqb a b && startswith p' s'
  | String _ _, "" => false
  end.

(** [sub in s] *)
Fixpoint contains (sub s : string) : bool :=
  match s with
  | "" => startswith sub ""
  | String _ r => startswith sub s || contains sub r
  end.

(** [s.replace(old, new)] for a non-empty [old]: occurrences are replaced
    from the left and do not overlap.  [skip] counts the characters of the
    occurrence being replaced that are still to be passed over. *)
Fixpoint replace_from (old new : string) (skip : nat) (s : string) : string :=
  match s with
  | "" => ""
  | String c r =>
      match skip with
      | S k => replace_from old new k r
      | O =>
          if startswith old s
          then new ++ replace_from old new (String.length old - 1) r
          else String c (replace_from old new 0 r)
      end
  end.

(** With an empty [old], Python puts [new] before every character and at
    the end. *)
Fixpoint interleave (new s : string) : string :=
  match s with
  | "" => new
  | String c r => new ++ String c (interleave new r)
  end.

Definition replace (old new s : string) : string :=
  match old with
  | "" => interleave new s
  | _ => replace_from old new 0 s
  end.

(** Truth value of a [str]. *)
Definition nonempty (s : string) : bool :=
  match s with "" => false | _ => true end.

(** Lexicographic comparison by code point ([<] on [str], and SQLite's
    BINARY collation on this repertoire). *)
Fixpoint str_compare (a b : string) : comparison :=
  match a, b with
  | "", "" => Eq
  | "", _ => Lt
  | _, "" => Gt
  | String x a', String y b' =>
      match Nat.compare (code x) (code y) with
      | Eq => str_compare a' b'
      | o => o
      end
  end.

Definition str_leb (a b : string) : bool :=
  match str_compare a b with Gt => false | _ => true end.

Fixpoint repeat_char (c : ascii) (n : nat) : string :=
  match n with
  | O => ""
  | S k => String c (repeat_char c k)
  end.

Fixpoint concat_sep (sep : string) (l : list string) : string :=
  match l with
  | [] => ""
  | [x] => x
  | x :: r => x ++ sep ++ concat_sep sep r
  end.

(* ===================================================================== *)
(** * Exceptions                                                          *)
(* ===================================================================== *)

(** [JSONDecodeError] is a subclass of [ValueError]; the [sqlite3] errors
    are [OperationalError], [IntegrityError] and [ProgrammingError]. *)
Inductive exn : Type :=
  | ValueError
  | JSONDecodeError
  | TypeError
  | AttributeError
  | OverflowError
  | RecursionError
  | ZeroDivisionError
  | FileNotFoundError
  | OperationalError
  | IntegrityError
  | ProgrammingError
  | KeyError.

Inductive pyresult (A : Type) : Type :=
  | Ok (a : A)
  | Raise (e : exn)
  | Beyond.
Arguments Ok {A} a.
Arguments Raise {A} e.
Arguments Beyond {A}.

Definition bind {A B} (x : pyresult A) (f : A -> pyresult B) : pyresult B :=
  match x with
  | Ok a => f a
  | Raise e => Raise e
  | Beyond => Beyond
  end.

Notation "'let*' x := c1 'in' c2" := (bind c1 (fun x => c2))
  (at level 10, x name, c1 at level 100, c2 at level 200).

(** [try: body except (ValueError, TypeError): dflt] *)
Definition except_value_type {A} (body : pyresult A) (dflt : A) : pyresult A :=
  match body with
  | Raise ValueError => Ok dflt
  | Raise JSONDecodeError => Ok dflt
  | Raise TypeError => Ok dflt
  | r => r
  end.

(** [try: body except ValueError: handler] *)
Definition except_value {A} (body : pyresult A) (handler : pyresult A)
  : pyresult A :=
  match body with
  | Raise ValueError => handler
  | Raise JSONDecodeError => handler
  | r => r
  end.

(** What the program leaves to the interpreter and the C library. *)
Record platform : Type := mk_platform {
  (** containers [json.loads] can nest beyond the first [min_json_depth]
      before the recursion limit is hit *)
  json_depth : nat;
  (** does [strftime('%Y')] pad a year below 1000 to four digits (glibc
      does not) *)
  pads_year : bool
}.

Definition min_json_depth : nat := 100.

(** CPython 3.11 on Linux, the script run as [python data_processing.py]:
    [json.loads] in [parse_tags] nests 991 containers. *)
Definition cpython_linux : platform := mk_platform 891 false.

(* ===================================================================== *)
(** * Python numbers                                                      *)
(* ===================================================================== *)

Definition is_digit (c : ascii) : bool := in_range 48 57 (code c).

Definition digit_val (c : ascii) : Z := Z.of_nat (code c) - 48.

(** Longest prefix of decimal digits, and what follows it. *)
Fixpoint span_digits (s : string) : string * string :=
  match s with
  | "" => ("", "")
  | String c r =>
      if is_digit c
      then let '(d, t) := span_digits r in (String c d, t)
      else ("", s)
  end.

Fixpoint Z_of_digits_from (acc : Z) (ds : string) : Z :=
  match ds with
  | "" => acc
  | String c r => Z_of_digits_from (10 * acc + digit_val c) r
  end.

Definition Z_of_digits (ds : string) : Z := Z_of_digits_from 0 ds.

(** [str(n)] for an [int]. *)
Definition str_of_Z (n : Z) : string := NilZero.string_of_int (Z.to_int n).

(** A binary64 value: not-a-number, an infinity, or (-1)^neg * m * 2^e with
    0 <= m < 2^53 and -1074 <= e <= 971. *)
Inductive pyfloat : Type :=
  | FNan
  | FInf (neg : bool)
  | FFin (neg : bool) (m : Z) (e : Z).

Definition float_zero : pyfloat := FFin false 0 0.

(** floor(log2(n/d)) for positive [n] and [d]. *)
Definition ilog2_ratio (n d : Z) : Z :=
  let k := Z.log2 n - Z.log2 d in
  let below :=
    if 0 <=? k then n <? d * 2 ^ k else n * 2 ^ (- k) <? d in
  if below then k - 1 else k.

(** Round the positive rational [n/d] to the nearest binary64 value, ties to
    even; values past the largest finite one become an infinity. *)
Definition round_binary64 (neg : bool) (n d : Z) : pyfloat :=
  if n <=? 0 then FFin neg 0 0 else
  let k := ilog2_ratio n d in
  let e := Z.max (k - 52) (-1074) in
  let '(num, den) := if 0 <=? e then (n, d * 2 ^ e) else (n * 2 ^ (- e), d) in
  let q := num / den in
  let r := num mod den in
  let m :=
    match 2 * r ?= den with
    | Lt => q
    | Gt => q + 1
    | Eq => if Z.even q then q else q + 1
    end in
  let '(m, e) := if m =? 2 ^ 53 then (2 ^ 52, e + 1) else (m, e) in
  if m =? 0 then FFin neg 0 0
  else if 971 <? e then FInf neg
  else FFin neg m e.

(** The value [m * 10^e] as a binary64. *)
Definition float_of_decimal (neg : bool) (m e : Z) : pyfloat :=
  if 0 <=? e then round_binary64 neg (m * 10 ^ e) 1
  else round_binary64 neg m (10 ^ (- e)).

(** [int(x)] for a [float]: truncation toward zero. *)
Definition int_of_float (x : pyfloat) : pyresult Z :=
  match x with
  | FNan => Raise ValueError
  | FInf _ => Raise OverflowError
  | FFin neg m e =>
      let a := if 0 <=? e then m * 2 ^ e else m / 2 ^ (- e) in
      Ok (if neg then - a else a)
  end.

(** [_PyUnicode_TransformDecimalAndSpaceToASCII]: characters from 127 on
    become a blank when they are whitespace and ['?'] otherwise. *)
Definition to_ascii_char (c : ascii) : ascii :=
  if Nat.ltb (code c) 127 then c
  else if isspace c then " "%char else "?"%char.

Fixpoint to_ascii_text (s : string) : string :=
  match s with
  | "" => ""
  | String c r => String (to_ascii_char c) (to_ascii_text r)
  end.

(** Underscores in a numeric literal: allowed only between two digits; the
    result is the literal without them. *)
Fixpoint drop_underscores (prev : ascii) (s : string) : option string :=
  match s with
  | "" => if Ascii.eqb prev "_" then None else Some ""
  | String c r =>
      if Ascii.eqb c "_" then
        if is_digit prev then drop_underscores c r else None
      else
        if Ascii.eqb prev "_" && negb (is_digit c) then None
        else option_map (String c) (drop_underscores c r)
  end.

Definition read_sign (s : string) : bool * string :=
  match s with
  | String "-" r => (true, r)
  | String "+" r => (false, r)
  | _ => (false, s)
  end.

(** Optional exponent part [e[+-]digits]; [None] when text remains that is
    not such a part. *)
Definition read_exponent (s : string) : option Z :=
  match s with
  | "" => Some 0
  | String c r =>
      if Ascii.eqb (lower_char c) "e" then
        let '(neg, r1) := read_sign r in
        match span_digits r1 with
        | (String d ds, "") =>
            let v := Z_of_digits (String d ds) in
            Some (if neg then - v else v)
        | _ => None
        end
      else None
  end.

(** The decimal grammar of [float()]: digits, optional fraction, optional
    exponent, at least one digit in the mantissa. *)
Definition read_decimal (neg : bool) (s : string) : option pyfloat :=
  let '(ip, r1) := span_digits s in
  let '(fp, r2) :=
    match r1 with
    | String "." r => span_digits r
    | _ => ("", r1)
    end in
  if nonempty ip || nonempty fp then
    match read_exponent r2 with
    | Some ex =>
        Some (float_of_decimal neg (Z_of_digits (ip ++ fp))
                (ex - Z.of_nat (String.length fp)))
    | None => None
    end
  else None.

(** [inf], [infinity] and [nan], in any case. *)
Definition read_inf_nan (neg : bool) (s : string) : option pyfloat :=
  let l := lower s in
  if String.eqb l "inf" || String.eqb l "infinity" then Some (FInf neg)
  else if String.eqb l "nan" then Some FNan
  else None.

(** [float(s)] for a [str]. *)
Definition py_float (s : string) : pyresult pyfloat :=
  let t := strip_by c_isspace (to_ascii_text s) in
  match drop_underscores "000" t with
  | None => Raise ValueError
  | Some u =>
      let '(neg, body) := read_sign u in
      match read_decimal neg body with
      | Some f => Ok f
      | None =>
          match read_inf_nan neg body with
          | Some f => Ok f
          | None => Raise ValueError
          end
      end
  end.

(** [sys.int_info.default_max_str_digits] *)
Definition max_str_digits : nat := 4300.

(** [int(s)] for a [str], base 10.  A literal of more than
    [max_str_digits] digits is refused with ValueError. *)
Definition py_int (s : string) : pyresult Z :=
  let t := strip_by c_isspace (to_ascii_text s) in
  let '(neg, body) := read_sign t in
  match drop_underscores "000" body with
  | None => Raise ValueError
  | Some u =>
      match span_digits u with
      | (String d ds, "") =>
          if Nat.ltb max_str_digits (String.length (String d ds))
          then Raise ValueError
          else
            let v := Z_of_digits (String d ds) in
            Ok (if neg then - v else v)
      | _ => Raise ValueError
      end
  end.

(** ** [repr] of a float: the shortest decimal that reads back as the same
    binary64 value *)

(** Is [10^k <= n/d]? *)
Definition pow10_le (k n d : Z) : bool :=
  if 0 <=? k then d * 10 ^ k <=? n else d <=? n * 10 ^ (- k).

(** The decimal point position of the positive [n/d]: the [p] with
    [10^(p-1) <= n/d < 10^p], searched upward from a lower estimate. *)
Fixpoint decpt_from (fuel : nat) (k n d : Z) : Z :=
  match fuel with
  | O => k
  | S f => if pow10_le k n d then decpt_from f (k + 1) n d else k
  end.

Definition decpt_of (n d : Z) : Z :=
  let est := (Z.log2 n - Z.log2 d - 1) * 30102 / 100000 - 1 in
  decpt_from 8 est n d.

(** The [nd]-digit decimal nearest to [n/d] that rounds to [target], if one
    of the two neighbours does; the result is the digit value. *)
Definition try_digits (target : pyfloat) (n d p : Z) (nd : Z) : option Z :=
  let s := p - nd in
  let '(num, den) := if 0 <=? s then (n, d * 10 ^ s) else (n * 10 ^ (- s), d) in
  let lo := num / den in
  let r := num mod den in
  let hi := lo + 1 in
  let reads D :=
    match float_of_decimal false D s, target with
    | FFin _ m1 e1, FFin _ m2 e2 => (m1 =? m2) && (e1 =? e2)
    | _, _ => false
    end in
  let lo_first :=
    match 2 * r ?= den with
    | Lt => true
    | Gt => false
    | Eq => Z.even lo
    end in
  match reads lo, reads hi with
  | true, true => Some (if lo_first then lo else hi)
  | true, false => Some lo
  | false, true => Some hi
  | false, false => None
  end.

Fixpoint shortest_from (fuel : nat) (target : pyfloat) (n d p nd : Z)
  : Z * Z :=
  match fuel with
  | O => (0, nd)
  | S f =>
      match try_digits target n d p nd with
      | Some D => (D, nd)
      | None => shortest_from f target n d p (nd + 1)
      end
  end.

Fixpoint rstrip_zeros (s : string) : string :=
  match s with
  | "" => ""
  | String c r =>
      match rstrip_zeros r with
      | "" => if Ascii.eqb c "0" then "" else String c ""
      | r' => String c r'
      end
  end.

Definition two_digits (n : Z) : string :=
  if n <? 10 then "0" ++ str_of_Z n else str_of_Z n.

(** Layout of [repr]: exponent form when the decimal point would fall more
    than 16 places right or more than 3 places left of the first digit. *)
Definition layout_repr (digits : string) (decpt : Z) : string :=
  let nd := Z.of_nat (String.length digits) in
  if (16 <? decpt) || (decpt <? -3) then
    let ex := decpt - 1 in
    let mant :=
      match digits with
      | String c "" => String c ""
      | String c r => String c ("." ++ r)
      | "" => ""
      end in
    mant ++ "e" ++ (if ex <? 0 then "-" else "+") ++ two_digits (Z.abs ex)
  else if decpt <=? 0 then
    "0." ++ repeat_char "0" (Z.to_nat (- decpt)) ++ digits
  else if nd <=? decpt then
    digits ++ repeat_char "0" (Z.to_nat (decpt - nd)) ++ ".0"
  else
    substring 0 (Z.to_nat decpt) digits ++ "." ++
    substring (Z.to_nat decpt) (Z.to_nat (nd - decpt)) digits.

Definition float_repr (x : pyfloat) : string :=
  match x with
  | FNan => "nan"
  | FInf neg => if neg then "-inf" else "inf"
  | FFin neg m e =>
      let sign := if neg then "-" else "" in
      if m <=? 0 then sign ++ "0.0" else
      let '(n, d) := if 0 <=? e then (m * 2 ^ e, 1) else (m, 2 ^ (- e)) in
      let target := round_binary64 false n d in
      let p := decpt_of n d in
      let '(D, nd) := shortest_from 17 target n d p 1 in
      let raw := str_of_Z D in
      let decpt := p + (Z.of_nat (String.length raw) - nd) in
      sign ++ layout_repr (rstrip_zeros raw) decpt
  end.

(* ===================================================================== *)
(** * JSON documents ([json.loads]) and [str()] of the decoded objects    *)
(* ===================================================================== *)

(** The objects [json.loads] builds.  A [dict] keeps its keys in insertion
    order. *)
#[local] Set Warnings "-register-all".

Inductive json : Type :=
  | JNull
  | JBool (b : bool)
  | JInt (n : Z)
  | JFloat (x : pyfloat)
  | JStr (s : string)
  | JList (items : list json)
  | JDict (members : list (string * json)).

Definition dquote : ascii := ascii_of_nat 34.
Definition squote : ascii := ascii_of_nat 39.
Definition backslash : ascii := ascii_of_nat 92.

(** JSON text written with apostrophes in place of double quotes, so that
    it fits in a string literal. *)
Fixpoint dq (s : string) : string :=
  match s with
  | "" => ""
  | String c r => String (if Ascii.eqb c squote then dquote else c) (dq r)
  end.

(** [d[k] = v] *)
Fixpoint dict_set (k : string) (v : json) (d : list (string * json))
  : list (string * json) :=
  match d with
  | [] => [(k, v)]
  | (k', v') :: r =>
      if String.eqb k k' then (k, v) :: r else (k', v') :: dict_set k v r
  end.

Definition json_ws (c : ascii) : bool :=
  let n := code c in
  Nat.eqb n 32 || Nat.eqb n 9 || Nat.eqb n 10 || Nat.eqb n 13.

Definition skip_ws (s : string) : string := lstrip_by json_ws s.

Definition hex_val (c : ascii) : option nat :=
  let n := code c in
  if in_range 48 57 n then Some (n - 48)%nat
  else if in_range 97 102 n then Some (n - 87)%nat
  else if in_range 65 70 n then Some (n - 55)%nat
  else None.

Definition hex4 (a b c d : ascii) : option nat :=
  match hex_val a, hex_val b, hex_val c, hex_val d with
  | Some x, Some y, Some z, Some w =>
      Some (((x * 16 + y) * 16 + z) * 16 + w)%nat
  | _, _, _, _ => None
  end.

Definition simple_escape (c : ascii) : option ascii :=
  let n := code c in
  if Nat.eqb n 34 then Some dquote
  else if Nat.eqb n 92 then Some backslash
  else if Nat.eqb n 47 then Some "/"%char
  else if Nat.eqb n 98 then Some (ascii_of_nat 8)
  else if Nat.eqb n 102 then Some (ascii_of_nat 12)
  else if Nat.eqb n 110 then Some (ascii_of_nat 10)
  else if Nat.eqb n 114 then Some (ascii_of_nat 13)
  else if Nat.eqb n 116 then Some (ascii_of_nat 9)
  else None.

Definition push_char (c : ascii) (r : pyresult (string * string))
  : pyresult (string * string) :=
  match r with
  | Ok (s, rest) => Ok (String c s, rest)
  | Raise e => Raise e
  | Beyond => Beyond
  end.

(** The body of a JSON string, after its opening quote (strict mode: no
    raw control character).  An escape [\uXXXX] naming a code point from 256
    on leaves the repertoire of this model: [Beyond]. *)
Fixpoint scanstring (s : string) : pyresult (string * string) :=
  match s with
  | "" => Raise JSONDecodeError
  | String c r =>
      if Ascii.eqb c dquote then Ok ("", r)
      else if Ascii.eqb c backslash then
        match r with
        | String "u" (String h1 (String h2 (String h3 (String h4 r')))) =>
            match hex4 h1 h2 h3 h4 with
            | Some cp =>
                if Nat.ltb cp 256
                then push_char (ascii_of_nat cp) (scanstring r')
                else Beyond
            | None => Raise JSONDecodeError
            end
        | String e r' =>
            match simple_escape e with
            | Some ch => push_char ch (scanstring r')
            | None => Raise JSONDecodeError
            end
        | "" => Raise JSONDecodeError
        end
      else if Nat.leb (code c) 31 then Raise JSONDecodeError
      else push_char c (scanstring r)
  end.

(** A JSON number: an optional minus sign, then 0 or a digit string that
    does not start with 0, then an optional fraction (a point and digits)
    and an optional exponent (e or E, optional sign, digits); a fraction or
    exponent that is not complete is left unread.  An integer is built by
    [int()], which refuses more than [max_str_digits] digits with a plain
    ValueError; a number with a fraction or an exponent is built by
    [float()]. *)
Definition scan_number (s : string) : pyresult (json * string) :=
  let '(neg, r0) :=
    match s with
    | String "-" r => (true, r)
    | _ => (false, s)
    end in
  let int_part :=
    match r0 with
    | String c r1 =>
        if Ascii.eqb c "0" then Some ("0", r1)
        else if is_digit c then Some (span_digits r0)
        else None
    | "" => None
    end in
  match int_part with
  | None => Raise JSONDecodeError
  | Some (ip, r1) =>
      let '(fp, r2) :=
        match r1 with
        | String "." r =>
            match span_digits r with
            | (String d ds, t) => (String d ds, t)
            | _ => ("", r1)
            end
        | _ => ("", r1)
        end in
      let '(ex, r3) :=
        match r2 with
        | String c r =>
            if Ascii.eqb (lower_char c) "e" then
              let '(eneg, r') :=
                match r with
                | String "-" t => (true, t)
                | String "+" t => (false, t)
                | _ => (false, r)
                end in
              match span_digits r' with
              | (String d ds, t) =>
                  let v := Z_of_digits (String d ds) in
                  (Some (if eneg then - v else v), t)
              | _ => (None, r2)
              end
            else (None, r2)
        | "" => (None, r2)
        end in
      match fp, ex with
      | "", None =>
          if Nat.ltb max_str_digits (String.length ip)
          then Raise ValueError
          else
            let v := Z_of_digits ip in
            Ok (JInt (if neg then - v else v), r3)
      | _, _ =>
          let e := match ex with Some e => e | None => 0 end in
          Ok (JFloat (float_of_decimal neg (Z_of_digits (ip ++ fp))
                        (e - Z.of_nat (String.length fp))), r3)
      end
  end.

Definition after (p s : string) : string :=
  substring (String.length p) (String.length s - String.length p) s.

(** The decoder enters one more level of recursion for every array and
    object it opens: with [depth] containers open around it, the next one
    is refused with RecursionError when the platform has no room left. *)
Definition enter_container (P : platform) (depth : nat) : bool :=
  Nat.leb (S depth) (min_json_depth + json_depth P).

(** The scanner.  Every call that decrements [fuel] follows the reading of
    at least one character; [depth] counts the containers open around the
    value being read. *)
Fixpoint scan_once (P : platform) (fuel : nat) (depth : nat) (s : string)
  : pyresult (json * string) :=
  match fuel with
  | O => Raise JSONDecodeError
  | S f =>
      match s with
      | "" => Raise JSONDecodeError
      | String c r =>
          if Ascii.eqb c dquote then
            match scanstring r with
            | Ok (str, rest) => Ok (JStr str, rest)
            | Raise e => Raise e
            | Beyond => Beyond
            end
          else if Ascii.eqb c "{" then
            if enter_container P depth then
              match skip_ws r with
              | String "}" rest => Ok (JDict [], rest)
              | r1 => parse_members P f (S depth) r1 []
              end
            else Raise RecursionError
          else if Ascii.eqb c "[" then
            if enter_container P depth then
              match skip_ws r with
              | String "]" rest => Ok (JList [], rest)
              | r1 => parse_items P f (S depth) r1 []
              end
            else Raise RecursionError
          else if startswith "null" s then Ok (JNull, after "null" s)
          else if startswith "true" s then Ok (JBool true, after "true" s)
          else if startswith "false" s then Ok (JBool false, after "false" s)
          else if startswith "NaN" s then Ok (JFloat FNan, after "NaN" s)
          else if startswith "Infinity" s
               then Ok (JFloat (FInf false), after "Infinity" s)
          else if startswith "-Infinity" s
               then Ok (JFloat (FInf true), after "-Infinity" s)
          else scan_number s
      end
  end

with parse_items (P : platform) (fuel : nat) (depth : nat) (s : string)
  (acc : list json) : pyresult (json * string) :=
  match fuel with
  | O => Raise JSONDecodeError
  | S f =>
      match scan_once P f depth s with
      | Ok (v, r1) =>
          match skip_ws r1 with
          | String "]" rest => Ok (JList (rev (v :: acc)), rest)
          | String "," rest => parse_items P f depth (skip_ws rest) (v :: acc)
          | _ => Raise JSONDecodeError
          end
      | Raise e => Raise e
      | Beyond => Beyond
      end
  end

with parse_members (P : platform) (fuel : nat) (depth : nat) (s : string)
  (acc : list (string * json)) : pyresult (json * string) :=
  match fuel with
  | O => Raise JSONDecodeError
  | S f =>
      match s with
      | "" => Raise JSONDecodeError
      | String c r =>
          if Ascii.eqb c dquote then
            match scanstring r with
            | Ok (key, r1) =>
                match skip_ws r1 with
                | String ":" r2 =>
                    match scan_once P f depth (skip_ws r2) with
                    | Ok (v, r3) =>
                        let acc' := dict_set key v acc in
                        match skip_ws r3 with
                        | String "}" rest => Ok (JDict acc', rest)
                        | String "," rest =>
                            parse_members P f depth (skip_ws rest) acc'
                        | _ => Raise JSONDecodeError
                        end
                    | Raise e => Raise e
                    | Beyond => Beyond
                    end
                | _ => Raise JSONDecodeError
                end
            | Raise e => Raise e
            | Beyond => Beyond
            end
          else Raise JSONDecodeError
      end
  end.

(** [json.loads(s)] *)
Definition json_loads (P : platform) (s : string) : pyresult json :=
  match scan_once P (3 * String.length s + 3) 0 (skip_ws s) with
  | Ok (v, rest) =>
      match skip_ws rest with
      | "" => Ok v
      | _ => Raise JSONDecodeError
      end
  | Raise e => Raise e
  | Beyond => Beyond
  end.

(** ** [repr] and [str] *)

Definition hex_digit (n : nat) : ascii :=
  if Nat.ltb n 10 then ascii_of_nat (48 + n) else ascii_of_nat (87 + n).

Definition isprintable (c : ascii) : bool :=
  let n := code c in
  in_range 32 126 n || (in_range 161 255 n && negb (Nat.eqb n 173)).

Definition repr_char (quote : ascii) (c : ascii) : string :=
  let n := code c in
  if Ascii.eqb c quote || Ascii.eqb c backslash
  then String backslash (String c "")
  else if Nat.eqb n 9 then String backslash "t"
  else if Nat.eqb n 10 then String backslash "n"
  else if Nat.eqb n 13 then String backslash "r"
  else if isprintable c then String c ""
  else String backslash
         (String "x" (String (hex_digit (n / 16)) (String (hex_digit (n mod 16)) ""))).

Fixpoint repr_chars (quote : ascii) (s : string) : string :=
  match s with
  | "" => ""
  | String c r => repr_char quote c ++ repr_chars quote r
  end.

(** [repr(s)] for a [str]: apostrophes around, double quotes when the text
    has an apostrophe and no double quote. *)
Definition str_repr (s : string) : string :=
  let quote :=
    if contains (String squote "") s && negb (contains (String dquote "") s)
    then dquote else squote in
  String quote (repr_chars quote s ++ String quote "").

Fixpoint py_repr (v : json) : string :=
  match v with
  | JNull => "None"
  | JBool true => "True"
  | JBool false => "False"
  | JInt n => str_of_Z n
  | JFloat x => float_repr x
  | JStr s => str_repr s
  | JList items => "[" ++ concat_sep ", " (map py_repr items) ++ "]"
  | JDict members =>
      "{" ++ concat_sep ", "
               (map (fun kv => str_repr (fst kv) ++ ": " ++ py_repr (snd kv))
                    members) ++ "}"
  end.

(** [str(v)] *)
Definition py_str (v : json) : string :=
  match v with
  | JStr s => s
  | _ => py_repr v
  end.

(** A cell handed to a normalizer: what [row.get(column, default)] returns.
    [csv.DictReader] gives a [str], or [None] for a column the line is too
    short to fill; the default is [''] or the [int] 0. *)
Inductive pyval : Type :=
  | PNone
  | PStr (s : string)
  | PInt (n : Z).

Definition str_of (v : pyval) : string :=
  match v with
  | PNone => "None"
  | PStr s => s
  | PInt n => str_of_Z n
  end.

(** [value is None or value == ''] *)
Definition none_or_empty (v : pyval) : bool :=
  match v with
  | PNone => true
  | PStr "" => true
  | _ => false
  end.

(* ===================================================================== *)
(** * [datetime.strptime] and [strftime] for the two formats in use       *)
(* ===================================================================== *)

(** The format is turned into a regular expression that is matched at the
    start of the text; the alternatives of a field are tried in the order
    given, and the text must end where the first complete match ends.  A
    field matcher lists its readings in that order. *)
Definition matcher (A : Type) : Type := string -> list (A * string).

Definition m_two (p1 p2 : ascii -> bool) : matcher Z :=
  fun s =>
    match s with
    | String a (String b r) =>
        if p1 a && p2 b
        then [((if is_digit a then 10 * digit_val a else 0) + digit_val b, r)]
        else []
    | _ => []
    end.

Definition m_one (p : ascii -> bool) : matcher Z :=
  fun s =>
    match s with
    | String a r => if p a then [(digit_val a, r)] else []
    | _ => []
    end.

Definition m_alt {A} (m1 m2 : matcher A) : matcher A :=
  fun s => (m1 s ++ m2 s)%list.

Definition m_char (c : ascii) : matcher unit :=
  fun s =>
    match s with
    | String a r => if Ascii.eqb a c then [(tt, r)] else []
    | _ => []
    end.

Definition m_bind {A B} (m : matcher A) (k : A -> matcher B) : matcher B :=
  fun s => flat_map (fun ar => k (fst ar) (snd ar)) (m s).

Definition m_ret {A} (a : A) : matcher A := fun s => [(a, s)].

Definition ch_in (lo hi : string) (c : ascii) : bool :=
  match lo, hi with
  | String l _, String h _ => in_range (code l) (code h) (code c)
  | _, _ => false
  end.

Definition ch_is (x : string) (c : ascii) : bool := ch_in x x c.

(** [%Y]: four digits. *)
Definition m_year : matcher Z :=
  fun s =>
    match s with
    | String a (String b (String c (String d r))) =>
        if is_digit a && is_digit b && is_digit c && is_digit d
        then [(Z_of_digits (String a (String b (String c (String d "")))), r)]
        else []
    | _ => []
    end.

(** [%m]: 1[0-2], 0[1-9] or [1-9]. *)
Definition m_month : matcher Z :=
  m_alt (m_two (ch_is "1") (ch_in "0" "2"))
    (m_alt (m_two (ch_is "0") (ch_in "1" "9")) (m_one (ch_in "1" "9"))).

(** [%d]: 3[0-1], [1-2][0-9], 0[1-9], [1-9] or a blank and [1-9]. *)
Definition m_day : matcher Z :=
  m_alt (m_two (ch_is "3") (ch_in "0" "1"))
    (m_alt (m_two (ch_in "1" "2") is_digit)
       (m_alt (m_two (ch_is "0") (ch_in "1" "9"))
          (m_alt (m_one (ch_in "1" "9")) (m_two (ch_is " ") (ch_in "1" "9"))))).

(** [%H]: 2[0-3], [0-1][0-9] or one digit. *)
Definition m_hour : matcher Z :=
  m_alt (m_two (ch_is "2") (ch_in "0" "3"))
    (m_alt (m_two (ch_in "0" "1") is_digit) (m_one is_digit)).

(** [%M]: [0-5][0-9] or one digit. *)
Definition m_minute : matcher Z :=
  m_alt (m_two (ch_in "0" "5") is_digit) (m_one is_digit).

(** [%S]: 6[0-1], [0-5][0-9] or one digit. *)
Definition m_second : matcher Z :=
  m_alt (m_two (ch_is "6") (ch_in "0" "1"))
    (m_alt (m_two (ch_in "0" "5") is_digit) (m_one is_digit)).

(** A blank of the format: one or more whitespace characters, the longest
    run first. *)
Fixpoint m_spaces (s : string) : list (unit * string) :=
  match s with
  | String c r => if isspace c then (m_spaces r ++ [(tt, r)])%list else []
  | "" => []
  end.

Record datetime : Type := mk_datetime {
  dt_year : Z; dt_month : Z; dt_day : Z;
  dt_hour : Z; dt_minute : Z; dt_second : Z
}.

Definition m_date : matcher datetime :=
  m_bind m_year (fun y =>
  m_bind (m_char "-") (fun _ =>
  m_bind m_month (fun mo =>
  m_bind (m_char "-") (fun _ =>
  m_bind m_day (fun d =>
  m_ret (mk_datetime y mo d 0 0 0)))))).

Definition m_date_time : matcher datetime :=
  m_bind m_date (fun dt =>
  m_bind m_spaces (fun _ =>
  m_bind m_hour (fun h =>
  m_bind (m_char ":") (fun _ =>
  m_bind m_minute (fun mi =>
  m_bind (m_char ":") (fun _ =>
  m_bind m_second (fun sec =>
  m_ret (mk_datetime (dt_year dt) (dt_month dt) (dt_day dt) h mi sec)))))))).

Definition is_leap (y : Z) : bool :=
  (y mod 4 =? 0) && (negb (y mod 100 =? 0) || (y mod 400 =? 0)).

Definition days_in_month (y m : Z) : Z :=
  if m =? 2 then (if is_leap y then 29 else 28)
  else if (m =? 4) || (m =? 6) || (m =? 9) || (m =? 11) then 30
  else 31.

(** The checks of the [datetime] constructor. *)
Definition valid_datetime (dt : datetime) : bool :=
  (1 <=? dt_year dt) && (dt_year dt <=? 9999) &&
  (1 <=? dt_month dt) && (dt_month dt <=? 12) &&
  (1 <=? dt_day dt) && (dt_day dt <=? days_in_month (dt_year dt) (dt_month dt)) &&
  (0 <=? dt_hour dt) && (dt_hour dt <=? 23) &&
  (0 <=? dt_minute dt) && (dt_minute dt <=? 59) &&
  (0 <=? dt_second dt) && (dt_second dt <=? 59).

(** [datetime.strptime(s, format)] for a format given as its matcher. *)
Definition strptime (format : matcher datetime) (s : string)
  : pyresult datetime :=
  match format s with
  | (dt, "") :: _ => if valid_datetime dt then Ok dt else Raise ValueError
  | _ => Raise ValueError
  end.

Definition pad_left (width : nat) (s : string) : string :=
  repeat_char "0" (width - String.length s) ++ s.

(** [dt.strftime('%Y-%m-%d')]: the C library writes the year, on four
    digits or, below 1000, as the platform has it. *)
Definition strftime_year (P : platform) (year : Z) : string :=
  if pads_year P then pad_left 4 (str_of_Z year) else str_of_Z year.

Definition strftime_date (P : platform) (dt : datetime) : string :=
  strftime_year P (dt_year dt) ++ "-" ++
  pad_left 2 (str_of_Z (dt_month dt)) ++ "-" ++
  pad_left 2 (str_of_Z (dt_day dt)).

(** [dt.strftime('%H:%M:%S')] *)
Definition strftime_time (dt : datetime) : string :=
  pad_left 2 (str_of_Z (dt_hour dt)) ++ ":" ++
  pad_left 2 (str_of_Z (dt_minute dt)) ++ ":" ++
  pad_left 2 (str_of_Z (dt_second dt)).

(* ===================================================================== *)
(** * The regular expression of [clean_text]                              *)
(* ===================================================================== *)

(** Read the literal [lit] (lower-case letters and punctuation) at the
    start of [s], letters in either case: what follows it, if it is there. *)
Fixpoint read_nocase (lit s : string) : option string :=
  match lit, s with
  | "", _ => Some s
  | String a lit', String b s' =>
      if Ascii.eqb a (lower_char b) then read_nocase lit' s' else None
  | String _ _, "" => None
  end.

(** Does the whole of [s] match [,\s*extra,\s*commas\s*] (flag IGNORECASE)?
    With the final [$] the greedy [\s*] reaches the end of the text. *)
Definition matches_extra_commas (s : string) : bool :=
  match s with
  | String "," r =>
      match read_nocase "extra," (lstrip_by isspace r) with
      | Some r1 =>
          match read_nocase "commas" (lstrip_by isspace r1) with
          | Some r2 => negb (nonempty (lstrip_by isspace r2))
          | None => false
          end
      | None => false
      end
  | _ => false
  end.

(** [re.sub(r',\s*extra,\s*commas\s*$', '', s, flags=re.IGNORECASE)]: the
    leftmost match runs to the end of the text and is deleted. *)
Fixpoint sub_extra_commas (s : string) : string :=
  match s with
  | "" => ""
  | String c r =>
      if matches_extra_commas s then "" else String c (sub_extra_commas r)
  end.

(* ===================================================================== *)
(** * DATA CLEANING FUNCTIONS ([data_processing.py])                      *)
(* ===================================================================== *)

Definition str_in (s : string) (l : list string) : bool :=
  existsb (String.eqb s) l.

(** [clean_boolean(value)]: 1 or 0. *)
Definition clean_boolean (value : pyval) : Z :=
  match value with
  | PNone => 0
  | _ =>
      let str_value := lower (strip (str_of value)) in
      if str_in str_value ["true"; "1"; "yes"] then 1 else 0
  end.

(** [clean_text(value)] *)
Definition clean_text (value : pyval) : option string :=
  if none_or_empty value then None else
  let text := strip (str_of value) in
  let text := replace "%%" "%" text in
  let text := sub_extra_commas text in
  if nonempty text then Some (strip text) else None.

(** The loop of [clean_email]:
    [while '@@' in email: email = email.replace('@@', '@')].
    One unit of [fuel] is spent per iteration. *)
Fixpoint collapse_at (fuel : nat) (email : string) : string :=
  if contains "@@" email then
    match fuel with
    | O => email
    | S f => collapse_at f (replace "@@" "@" email)
    end
  else email.

(** [clean_email(value)].  The loop is given the length of the text as
    fuel; [collapse_at_done] below shows that it always leaves the loop by
    its test. *)
Definition clean_email (value : pyval) : option string :=
  if none_or_empty value then None else
  let email := lower (strip (str_of value)) in
  let email := collapse_at (String.length email) email in
  if nonempty email then Some email else None.

(** [clean_integer(value)] *)
Definition clean_integer (value : pyval) : pyresult Z :=
  if none_or_empty value then Ok 0 else
  except_value_type
    (let* x := py_float (strip (str_of value)) in int_of_float x)
    0.

(** [clean_float(value)] *)
Definition clean_float (value : pyval) : pyresult pyfloat :=
  if none_or_empty value then Ok float_zero else
  except_value_type (py_float (strip (str_of value))) float_zero.

(** [clean_datetime(value)] *)
Definition clean_datetime (P : platform) (value : pyval)
  : pyresult (option string) :=
  if none_or_empty value then Ok None else
  except_value
    (let* dt := strptime m_date_time (strip (str_of value)) in
     Ok (Some (strftime_date P dt ++ " " ++ strftime_time dt)))
    (except_value
       (let* dt := strptime m_date (strip (str_of value)) in
        Ok (Some (strftime_date P dt ++ " 00:00:00")))
       (Ok None)).

(** [clean_location(value)] *)
Definition clean_location (value : pyval) : option string :=
  if none_or_empty value || String.eqb (lower (strip (str_of value))) "null"
  then None
  else Some (strip (str_of value)).

(** The loop body of [parse_tags]:
    [tag = str(tag).strip(); if tag and tag not in cleaned_tags: append]. *)
Definition add_tag (cleaned_tags : list string) (tag : json) : list string :=
  let tag := strip (py_str tag) in
  if nonempty tag && negb (str_in tag cleaned_tags)
  then (cleaned_tags ++ [tag])%list
  else cleaned_tags.

(** [parse_tags(value)]: only [json.JSONDecodeError] is caught. *)
Definition parse_tags (P : platform) (value : pyval)
  : pyresult (list string) :=
  if none_or_empty value then Ok [] else
  match json_loads P (str_of value) with
  | Ok (JList tags) => Ok (fold_left add_tag tags [])
  | Ok _ => Ok []
  | Raise JSONDecodeError => Ok []
  | Raise e => Raise e
  | Beyond => Beyond
  end.

(** What the decoder raises: [JSONDecodeError], the [ValueError] of
    [int()], or [RecursionError]. *)
Definition decoder_error (e : exn) : Prop :=
  e = JSONDecodeError \/ e = ValueError \/ e = RecursionError.

(** [clean_header(header)] *)
Definition clean_header (header : string) : string := strip header.

(* ===================================================================== *)
(** * DATABASE SCHEMA: the three tables                                   *)
(* ===================================================================== *)

(** A row of [authors].  [first_name], [last_name] and [email] are NOT NULL,
    [email] is UNIQUE, [id] is INTEGER PRIMARY KEY AUTOINCREMENT.  The
    column [created_at] (the clock at insertion) is left out of all rows. *)
Record author : Type := mk_author {
  a_id : Z;
  a_first_name : string;
  a_last_name : string;
  a_email : string;
  a_company : option string;
  a_job_title : option string;
  a_bio : option string;
  a_follower_count : Z;
  a_verified : Z
}.

(** A row of [posts]; [id] is INTEGER PRIMARY KEY, [author_id] NOT NULL. *)
Record post : Type := mk_post {
  p_id : Z;
  p_author_id : Z;
  p_text : option string;
  p_date : option string;
  p_likes : Z;
  p_comments : Z;
  p_shares : Z;
  p_total_engagements : Z;
  p_engagement_rate : option pyfloat;
  p_image_svg : option string;
  p_category : option string;
  p_location : option string
}.

(** A row of [post_tags]; [id] is INTEGER PRIMARY KEY AUTOINCREMENT. *)
Record post_tag : Type := mk_post_tag {
  t_id : Z;
  t_post_id : Z;
  t_tag : string
}.

(** The database: the rows of each table in insertion order and the two
    AUTOINCREMENT counters kept in [sqlite_sequence]. *)
Record db : Type := mk_db {
  authors : list author;
  authors_seq : Z;
  posts : list post;
  post_tags : list post_tag;
  post_tags_seq : Z
}.

(** [create_database_schema(conn)]: the three tables dropped and created
    anew. *)
Definition create_database_schema : db := mk_db [] 0 [] [] 0.

(** ** Values bound to the parameters of a statement *)

(** The integers SQLite stores: 64 bits, two's complement. *)
Definition sqlite_int (n : Z) : Prop := - 2 ^ 63 <= n < 2 ^ 63.

Definition sqlite_intb (n : Z) : bool := (- 2 ^ 63 <=? n) && (n <? 2 ^ 63).

(** An [int] bound to a parameter: [sqlite3] raises OverflowError when it
    does not fit. *)
Definition bind_int (n : Z) : pyresult Z :=
  if sqlite_intb n then Ok n else Raise OverflowError.

Definition bind_ints (l : list Z) : pyresult unit :=
  if forallb sqlite_intb l then Ok tt else Raise OverflowError.

(** A [float] bound to a parameter: not-a-number is stored as NULL. *)
Definition bind_real (x : pyfloat) : option pyfloat :=
  match x with
  | FNan => None
  | _ => Some x
  end.

Definition max_list (l : list Z) : Z := fold_right Z.max 0 l.

(** The rowid AUTOINCREMENT assigns: one past the largest ever used. *)
Definition next_rowid (seq : Z) (ids : list Z) : Z :=
  Z.max seq (max_list ids) + 1.

(** [SELECT id FROM authors WHERE email = ?] followed by [fetchone()]. *)
Definition select_author_id (d : db) (email : string) : option Z :=
  match filter (fun a => String.eqb (a_email a) email) (authors d) with
  | a :: _ => Some (a_id a)
  | [] => None
  end.

(** [INSERT OR IGNORE INTO authors (...) VALUES (...)].  The rowid is drawn
    before the constraints are checked, so that the counter advances even
    when the row is ignored: for a NULL in a NOT NULL column, or for an
    email already present. *)
Definition insert_or_ignore_author (d : db)
    (first_name last_name : option string) (email : string)
    (company job_title bio : option string) (follower_count verified : Z)
  : db :=
  let id := next_rowid (authors_seq d) (map a_id (authors d)) in
  let kept :=
    match first_name, last_name, select_author_id d email with
    | Some fn, Some ln, None =>
        (authors d ++ [mk_author id fn ln email company job_title bio
                         follower_count verified])%list
    | _, _, _ => authors d
    end in
  mk_db kept id (posts d) (post_tags d) (post_tags_seq d).

(** [INSERT INTO authors (...) VALUES (...)]: a constraint that fails
    raises. *)
Definition insert_author (d : db)
    (first_name last_name email : string)
    (company job_title bio : option string) (follower_count verified : Z)
  : pyresult db :=
  let id := next_rowid (authors_seq d) (map a_id (authors d)) in
  match select_author_id d email with
  | Some _ => Raise IntegrityError
  | None =>
      Ok (mk_db (authors d ++ [mk_author id first_name last_name email company
                                 job_title bio follower_count verified])%list
                id (posts d) (post_tags d) (post_tags_seq d))
  end.

Definition has_post (d : db) (id : Z) : bool :=
  existsb (fun p => p_id p =? id) (posts d).

(** [INSERT OR REPLACE INTO posts (...) VALUES (...)]: a row with the same
    id is deleted before the new one goes in.  The rows of [post_tags] are
    not touched. *)
Definition insert_or_replace_post (d : db) (p : post) : db :=
  mk_db (authors d) (authors_seq d)
        (filter (fun q => negb (p_id q =? p_id p)) (posts d) ++ [p])%list
        (post_tags d) (post_tags_seq d).

(** [INSERT INTO posts (...) VALUES (...)] *)
Definition insert_post (d : db) (p : post) : pyresult db :=
  if has_post d (p_id p) then Raise IntegrityError
  else Ok (mk_db (authors d) (authors_seq d) (posts d ++ [p])%list
                 (post_tags d) (post_tags_seq d)).

(** [INSERT INTO post_tags (post_id, tag) VALUES (?, ?)] *)
Definition insert_post_tag (d : db) (post_id : Z) (tag : string) : db :=
  let id := next_rowid (post_tags_seq d) (map t_id (post_tags d)) in
  mk_db (authors d) (authors_seq d) (posts d)
        (post_tags d ++ [mk_post_tag id post_id tag])%list id.

(** [DELETE FROM post_tags WHERE post_id = ?] *)
Definition delete_post_tags (d : db) (post_id : Z) : db :=
  mk_db (authors d) (authors_seq d) (posts d)
        (filter (fun t => negb (t_post_id t =? post_id)) (post_tags d))
        (post_tags_seq d).

(** [DELETE FROM posts WHERE id = ?] *)
Definition delete_post_row (d : db) (id : Z) : db :=
  mk_db (authors d) (authors_seq d)
        (filter (fun p => negb (p_id p =? id)) (posts d))
        (post_tags d) (post_tags_seq d).

(** [SELECT tag FROM post_tags WHERE post_id = ?] *)
Definition select_tags (d : db) (post_id : Z) : list string :=
  map t_tag (filter (fun t => t_post_id t =? post_id) (post_tags d)).

(* ===================================================================== *)
(** * DATA IMPORT ([import_data])                                         *)
(* ===================================================================== *)

Record issues_fixed : Type := mk_issues {
  boolean_inconsistency : nat;
  double_percent : nat;
  extra_commas : nat;
  null_locations : nat;
  missing_images : nat;
  duplicate_tags : nat;
  double_at_emails : nat
}.

Record stats : Type := mk_stats {
  total_rows : nat;
  authors_created : nat;
  posts_created : nat;
  tags_created : nat;
  issues : issues_fixed
}.

Definition stats0 : stats := mk_stats 0 0 0 0 (mk_issues 0 0 0 0 0 0 0).

Definition bump (b : bool) (n : nat) : nat := if b then S n else n.

(** What a line of the file becomes under [csv.DictReader]: the field names
    paired with the cells, [None] for the names a short line does not
    reach; a name that occurs twice keeps its last cell. *)
Fixpoint dict_row (fieldnames : list string) (cells : list string)
    (d : gmap string (option string)) : gmap string (option string) :=
  match fieldnames with
  | [] => d
  | k :: ks =>
      match cells with
      | [] => dict_row ks [] (<[k := None]> d)
      | c :: cs => dict_row ks cs (<[k := Some c]> d)
      end
  end.

(** [row.get(key, default)] *)
Definition row_get (row : gmap string (option string)) (key : string)
    (default : pyval) : pyval :=
  match row !! key with
  | Some (Some s) => PStr s
  | Some None => PNone
  | None => default
  end.

(** The state the loop of [import_data] carries from row to row. *)
Record import_state : Type := mk_import_state {
  im_db : db;
  im_cache : gmap string Z;
  im_stats : stats
}.

(** The tag loop of a row:
    [for tag in tags: if tag not in seen_tags: INSERT ...; tags_created += 1;
     seen_tags.add(tag) else: duplicate_tags += 1]. *)
Record tag_loop : Type := mk_tag_loop {
  tl_db : db;
  tl_seen : gset string;
  tl_created : nat;
  tl_duplicates : nat
}.

Definition tag_step (post_id : Z) (st : tag_loop) (tag : string) : tag_loop :=
  if bool_decide (tag ∈ tl_seen st)
  then mk_tag_loop (tl_db st) (tl_seen st) (tl_created st)
                   (S (tl_duplicates st))
  else mk_tag_loop (insert_post_tag (tl_db st) post_id tag)
                   ({[tag]} ∪ tl_seen st) (S (tl_created st))
                   (tl_duplicates st).

Definition insert_tags (d : db) (post_id : Z) (tags : list string) : tag_loop :=
  fold_left (tag_step post_id) tags (mk_tag_loop d ∅ 0 0).

(** Step 1 of the insertion, "Insert or get author":
    [if email and email not in authors_cache: INSERT OR IGNORE ...;
     SELECT id ...; if result: authors_cache[email] = result[0];
     authors_created += 1].  The boolean tells whether the counter moves. *)
Definition insert_or_get_author (d : db) (authors_cache : gmap string Z)
    (email first_name last_name company job_title bio : option string)
    (follower_count verified : Z) : pyresult (db * gmap string Z * bool) :=
  match email with
  | Some e =>
      if nonempty e && negb (bool_decide (is_Some (authors_cache !! e))) then
        let* follower_count := bind_int follower_count in
        let d' := insert_or_ignore_author d first_name last_name e
                    company job_title bio follower_count verified in
        match select_author_id d' e with
        | Some id => Ok (d', <[e := id]> authors_cache, true)
        | None => Ok (d', authors_cache, false)
        end
      else Ok (d, authors_cache, false)
  | None => Ok (d, authors_cache, false)
  end.

(** [authors_cache.get(email, None)] *)
Definition cache_get (authors_cache : gmap string Z) (email : option string)
  : option Z :=
  match email with
  | Some e => authors_cache !! e
  | None => None
  end.

(** One iteration of [for row in reader]. *)
Definition import_row (P : platform) (st : import_state)
    (row : gmap string (option string)) : pyresult import_state :=
  let s := im_stats st in
  let i := issues s in
  (* CLEAN THE DATA *)
  let first_name := clean_text (row_get row "author_first_name" (PStr "")) in
  let last_name := clean_text (row_get row "author_last_name" (PStr "")) in
  let raw_email := row_get row "author_email" (PStr "") in
  let email := clean_email raw_email in
  let n_double_at :=
    bump (contains "@@" (str_of raw_email)) (double_at_emails i) in
  let company := clean_text (row_get row "author_company" (PStr "")) in
  let job_title := clean_text (row_get row "author_job_title" (PStr "")) in
  let bio := clean_text (row_get row "author_bio" (PStr "")) in
  let* follower_count :=
    clean_integer (row_get row "author_follower_count" (PInt 0)) in
  let raw_verified := row_get row "author_verified" (PStr "") in
  let verified := clean_boolean raw_verified in
  let n_boolean :=
    bump (negb (str_in (lower (str_of raw_verified))
                  ["true"; "false"; "0"; "1"; ""]))
         (boolean_inconsistency i) in
  let* post_id := clean_integer (row_get row "post_id" (PInt 0)) in
  let raw_text := row_get row "post_text" (PStr "") in
  let post_text := clean_text raw_text in
  let n_percent := bump (contains "%%" (str_of raw_text)) (double_percent i) in
  let n_commas :=
    bump (contains "extra, commas" (lower (str_of raw_text))) (extra_commas i) in
  let* post_date := clean_datetime P (row_get row "post_date" (PStr "")) in
  let* likes := clean_integer (row_get row "likes" (PInt 0)) in
  let* comments := clean_integer (row_get row "comments" (PInt 0)) in
  let* shares := clean_integer (row_get row "shares" (PInt 0)) in
  let* total_engagements :=
    clean_integer (row_get row "total_engagements" (PInt 0)) in
  let* engagement_rate :=
    clean_float (row_get row "engagement_rate" (PInt 0)) in
  let image_svg := clean_text (row_get row "post_image_svg" (PStr "")) in
  let n_images :=
    bump (negb (match image_svg with Some t => nonempty t | None => false end))
         (missing_images i) in
  let category := clean_text (row_get row "post_category" (PStr "")) in
  let raw_location := row_get row "location" (PStr "") in
  let location := clean_location raw_location in
  let n_locations :=
    bump (str_in (lower (strip (str_of raw_location))) ["null"; ""])
         (null_locations i) in
  let raw_tags := row_get row "post_tags" (PStr "") in
  let* tags := parse_tags P raw_tags in
  (* INSERT INTO DATABASE *)
  (* 1. Insert or get author *)
  let* author_step :=
    insert_or_get_author (im_db st) (im_cache st) email first_name last_name
      company job_title bio follower_count verified in
  let '(d1, cache1, created) := author_step in
  let n_authors := bump created (authors_created s) in
  match cache_get cache1 email with
  | None =>
      (* continue *)
      Ok (mk_import_state d1 cache1
            (mk_stats (S (total_rows s)) n_authors (posts_created s)
               (tags_created s)
               (mk_issues n_boolean n_percent n_commas n_locations n_images
                  (duplicate_tags i) n_double_at)))
  | Some author_id =>
      (* 2. Insert post *)
      let* _ :=
        bind_ints [post_id; likes; comments; shares; total_engagements] in
      let d2 :=
        insert_or_replace_post d1
          (mk_post post_id author_id post_text post_date likes comments shares
             total_engagements (bind_real engagement_rate) image_svg category
             location) in
      (* 3. Insert tags *)
      let tl := insert_tags d2 post_id tags in
      Ok (mk_import_state (tl_db tl) cache1
            (mk_stats (S (total_rows s)) n_authors (S (posts_created s))
               (tags_created s + tl_created tl)
               (mk_issues n_boolean n_percent n_commas n_locations n_images
                  (duplicate_tags i + tl_duplicates tl) n_double_at)))
  end.

Fixpoint import_rows (P : platform) (st : import_state)
    (rows : list (gmap string (option string))) : pyresult import_state :=
  match rows with
  | [] => Ok st
  | row :: rest => let* st' := import_row P st row in import_rows P st' rest
  end.

(** The dictionaries [csv.DictReader] yields for the lines of a file: the
    first line gives the field names, which are cleaned; empty lines are
    skipped. *)
Definition reader_rows (lines : list (list string))
  : list (gmap string (option string)) :=
  match lines with
  | [] => []
  | header :: body =>
      let fieldnames := map clean_header header in
      map (fun cells => dict_row fieldnames cells ∅)
          (filter (fun cells => negb (bool_decide (cells = []))) body)
  end.

(** [import_data(conn, csv_path)].  The file is given as the lines
    [csv.reader] splits it into, [None] when it cannot be opened.  The
    result is the database as the connection sees it after the final
    [commit], and the statistics returned. *)
Definition import_data (P : platform) (conn : db)
    (file : option (list (list string))) : pyresult (db * stats) :=
  match file with
  | None => Raise FileNotFoundError
  | Some lines =>
      let* st := import_rows P (mk_import_state conn ∅ stats0)
                   (reader_rows lines) in
      Ok (im_db st, im_stats st)
  end.

Definition sys_admin_email : string := "sys.admin@socialmediaposts.com".

(** [ensure_sys_admin(conn)] *)
Definition ensure_sys_admin (conn : db) : pyresult db :=
  match select_author_id conn sys_admin_email with
  | None =>
      insert_author conn "Sys" "Admin" sys_admin_email
        (Some "Social Media Posts") (Some "System Administrator")
        (Some "The default system administrator account.") 999999 1
  | Some _ => Ok conn
  end.

(* ===================================================================== *)
(** * BACKEND API ([app.py])                                              *)
(* ===================================================================== *)

(** ** Connections and the handler monad *)

(** What a request works on.  [hs_file] is the database file, [None] when
    [data_processing.py] was never run: [init_db] only warns, and
    [sqlite3.connect] then opens a file without tables, on which every
    statement raises [OperationalError].  [hs_view] is what the connection
    of the request sees, its uncommitted changes included.  [hs_open]
    counts the connections opened and not closed. *)
Record hstate : Type := mk_hstate {
  hs_file : option db;
  hs_view : option db;
  hs_open : nat
}.

Definition handler (A : Type) : Type := hstate -> pyresult A * hstate.

Definition h_ret {A} (a : A) : handler A := fun h => (Ok a, h).

Definition h_bind {A B} (m : handler A) (k : A -> handler B) : handler B :=
  fun h =>
    match m h with
    | (Ok a, h') => k a h'
    | (Raise e, h') => (Raise e, h')
    | (Beyond, h') => (Beyond, h')
    end.

Notation "'let!' x := c1 'in' c2" := (h_bind c1 (fun x => c2))
  (at level 10, x name, c1 at level 100, c2 at level 200).

Definition h_lift {A} (r : pyresult A) : handler A := fun h => (r, h).

(** [conn = get_db_connection()] *)
Definition get_db_connection : handler unit :=
  fun h => (Ok tt, mk_hstate (hs_file h) (hs_file h) (S (hs_open h))).

(** [conn.close()]: what was not committed is lost. *)
Definition conn_close : handler unit :=
  fun h => (Ok tt, mk_hstate (hs_file h) (hs_file h) (pred (hs_open h))).

(** [conn.commit()] *)
Definition conn_commit : handler unit :=
  fun h => (Ok tt, mk_hstate (hs_view h) (hs_view h) (hs_open h)).

(** A SELECT: [cursor.execute(...)] and the fetch. *)
Definition sql_select {A} (q : db -> A) : handler A :=
  fun h =>
    match hs_view h with
    | Some d => (Ok (q d), h)
    | None => (Raise OperationalError, h)
    end.

(** A SELECT with parameters: the statement is prepared, which fails on a
    file without tables, before its parameters are bound. *)
Definition sql_query {A} (q : db -> pyresult A) : handler A :=
  fun h =>
    match hs_view h with
    | Some d => (q d, h)
    | None => (Raise OperationalError, h)
    end.

(** An INSERT, UPDATE or DELETE. *)
Definition sql_execute (stmt : db -> pyresult db) : handler unit :=
  fun h =>
    match hs_view h with
    | Some d =>
        match stmt d with
        | Ok d' => (Ok tt, mk_hstate (hs_file h) (Some d') (hs_open h))
        | Raise e => (Raise e, h)
        | Beyond => (Beyond, h)
        end
    | None => (Raise OperationalError, h)
    end.

Fixpoint h_for {A} (l : list A) (body : A -> handler unit) : handler unit :=
  match l with
  | [] => h_ret tt
  | x :: r => let! _ := body x in h_for r body
  end.

(** ** Responses *)

Record author_view : Type := mk_author_view {
  av_id : Z;
  av_name : string;
  av_firstName : string;
  av_lastName : string;
  av_email : string;
  av_company : option string;
  av_title : option string;
  av_bio : option string;
  av_followerCount : Z;
  av_verified : bool
}.

Record post_view : Type := mk_post_view {
  pv_id : Z;
  pv_author : author_view;
  pv_content : option string;
  pv_date : option string;
  pv_likes : Z;
  pv_comments : Z;
  pv_shares : Z;
  pv_totalEngagements : Z;
  pv_engagementRate : option pyfloat;
  pv_image : option string;
  pv_category : option string;
  pv_location : option string;
  pv_tags : list string
}.

(** What [get_post] sends of the author and of the post. *)
Record author_detail : Type := mk_author_detail {
  ad_name : string;
  ad_email : string;
  ad_company : option string;
  ad_title : option string;
  ad_bio : option string;
  ad_followerCount : Z;
  ad_verified : bool
}.

Record post_detail : Type := mk_post_detail {
  pd_id : Z;
  pd_author : author_detail;
  pd_content : option string;
  pd_date : option string;
  pd_likes : Z;
  pd_comments : Z;
  pd_shares : Z;
  pd_image : option string;
  pd_category : option string;
  pd_location : option string;
  pd_tags : list string
}.

Record pagination : Type := mk_pagination {
  currentPage : Z;
  totalPages : Z;
  totalPosts : Z;
  postsPerPage : Z;
  hasNext : bool;
  hasPrev : bool
}.

Record author_entry : Type := mk_author_entry {
  ae_id : Z;
  ae_name : string;
  ae_email : string;
  ae_company : option string;
  ae_title : option string
}.

(** The JSON a handler answers with.  [BException e] is
    [{'error': str(e)}].  In [BStats] the field [avgEngagement], a rounded
    binary64 average, is left out. *)
Inductive body : Type :=
  | BError (msg : string)
  | BException (e : exn)
  | BMessage (msg : string)
  | BCreated (msg : string) (id : Z)
  | BPosts (page_posts : list post_view) (pg : pagination)
  | BPost (p : post_detail)
  | BStats (total_posts total_likes total_comments : Z)
  | BCategories (categories : list string)
  | BAuthors (entries : list author_entry).

Record response : Type := mk_response {
  status : Z;
  payload : body
}.

(** [try: ... except Exception as e: return jsonify({'error': str(e)}), 500]
    around the body of every handler.  No handler decodes JSON text, so
    that none leaves the repertoire: the last case does not occur. *)
Definition try_except (body_ : handler response) : hstate -> response * hstate :=
  fun h =>
    match body_ h with
    | (Ok r, h') => (r, h')
    | (Raise e, h') => (mk_response 500 (BException e), h')
    | (Beyond, h') => (mk_response 0 (BError ""), h')
    end.

(** ** The engine *)

(** What SQL and the build of SQLite leave open. *)
Record engine : Type := mk_engine {
  (** the order in which the list query of [get_posts] returns rows that
      tie under its ORDER BY, by ascending rank; it may depend on the rows
      stored and on the filters and the sort key, which choose the query
      plan, and not on the values bound to LIMIT and OFFSET *)
  posts_tie_rank : db -> string -> string -> string -> string -> string ->
                   post * author -> Z;
  (** the same for the ORDER BY of [get_authors] *)
  authors_tie_rank : db -> author -> Z;
  (** the text SQLite makes of a REAL value that goes to a TEXT column *)
  real_text : pyfloat -> string;
  (** SQLITE_MAX_LIKE_PATTERN_LENGTH, in bytes (50000 unless changed) *)
  like_limit : N;
  (** is LIKE evaluated on a row that another filter rejects, in the count
      query and in the list query of [get_posts] *)
  count_like_eager : bool;
  list_like_eager : bool
}.

(** ** Pieces of SQL *)

Definition ascii_lower (c : ascii) : ascii :=
  if in_range 65 90 (code c) then ascii_of_nat (code c + 32) else c.

(** The matcher of LIKE: [%] stands for any run of characters, [_] for any
    one, and letters A-Z match in either case. *)
Fixpoint like_match (pattern : string) : string -> bool :=
  match pattern with
  | "" => fun text => negb (nonempty text)
  | String c p' =>
      if Ascii.eqb c "%" then
        fix any (text : string) : bool :=
          like_match p' text ||
          match text with
          | "" => false
          | String _ t' => any t'
          end
      else if Ascii.eqb c "_" then
        fun text =>
          match text with
          | "" => false
          | String _ t' => like_match p' t'
          end
      else
        fun text =>
          match text with
          | "" => false
          | String d t' =>
              Ascii.eqb (ascii_lower c) (ascii_lower d) && like_match p' t'
          end
  end.

(** The matcher reads a text as a C string: up to its first NUL. *)
Fixpoint until_nul (s : string) : string :=
  match s with
  | "" => ""
  | String c r => if Nat.eqb (code c) 0 then "" else String c (until_nul r)
  end.

(** [text LIKE pattern] *)
Definition sql_like (pattern text : string) : bool :=
  like_match (until_nul pattern) (until_nul text).

(** The length of a text in UTF-8: two bytes for a character from 128 on. *)
Fixpoint utf8_length (s : string) : N :=
  match s with
  | "" => 0%N
  | String c r => ((if Nat.ltb (code c) 128 then 1 else 2) + utf8_length r)%N
  end.

(** A comparison with a column that may hold NULL is not true on NULL. *)
Definition on_text (f : string -> bool) (col : option string) : bool :=
  match col with
  | Some s => f s
  | None => false
  end.

(** [FROM posts p JOIN authors a ON p.author_id = a.id] *)
Definition join_posts_authors (d : db) : list (post * author) :=
  flat_map (fun p =>
              map (fun a => (p, a))
                  (filter (fun a => a_id a =? p_author_id p) (authors d)))
           (posts d).

(** NULL sorts before every text. *)
Definition opt_str_leb (a b : option string) : bool :=
  match a, b with
  | None, _ => true
  | Some _, None => false
  | Some x, Some y => str_leb x y
  end.

(** Insertion of [x] after the elements that are to stay before it. *)
Fixpoint insert_sorted {A} (before : A -> A -> bool) (x : A) (l : list A)
  : list A :=
  match l with
  | [] => [x]
  | y :: r => if before y x then y :: insert_sorted before x r else x :: l
  end.

(** ORDER BY, as a stable sort: [before y x] says that [y] may stay in front
    of a later [x]. *)
Definition order_by {A} (before : A -> A -> bool) (l : list A) : list A :=
  fold_left (fun acc x => insert_sorted before x acc) l [].

(** [LIMIT ? OFFSET ?]: a negative limit is no limit, a negative offset is
    none. *)
Definition limit_offset {A} (limit offset : Z) (l : list A) : list A :=
  let rest := drop (Z.to_nat offset) l in
  if limit <? 0 then rest else take (Z.to_nat limit) rest.

(** ** GET /api/posts *)

Record posts_args : Type := mk_posts_args {
  arg_search : option string;
  arg_category : option string;
  arg_dateFrom : option string;
  arg_dateTo : option string;
  arg_sortBy : option string;
  arg_page : option string;
  arg_limit : option string
}.

(** [request.args.get(name, default)] *)
Definition args_get (v : option string) (default : string) : string :=
  match v with
  | Some s => s
  | None => default
  end.

(** [int(request.args.get(name, default))] with an [int] default. *)
Definition args_int (v : option string) (default : Z) : pyresult Z :=
  match v with
  | Some s => py_int s
  | None => Ok default
  end.

(** The WHERE clause built from the filters. *)
Definition where_clause (search category date_from date_to : string)
    (pa : post * author) : bool :=
  let '(p, a) := pa in
  (if nonempty search then
     let pat := "%" ++ search ++ "%" in
     on_text (sql_like pat) (p_text p)
     || sql_like pat (a_first_name a)
     || sql_like pat (a_last_name a)
     || sql_like pat (a_first_name a ++ " " ++ a_last_name a)
   else true)
  && (if nonempty category
      then on_text (String.eqb category) (p_category p) else true)
  && (if nonempty date_from
      then on_text (str_leb date_from) (p_date p) else true)
  && (if nonempty date_to
      then on_text (fun dt => str_leb dt (date_to ++ " 23:59:59")) (p_date p)
      else true).

(** The rows in the order of an engine's ranks. *)
Definition order_ties {A} (rank : A -> Z) (l : list A) : list A :=
  order_by (fun y x => rank y <=? rank x) l.

(** The ORDER BY clause chosen by [sortBy]; [rank] orders the rows that
    tie. *)
Definition sort_rows (rank : post * author -> Z) (sort_by : string)
    (rows : list (post * author)) : list (post * author) :=
  let rows := order_ties rank rows in
  if String.eqb sort_by "oldest" then
    order_by (fun y x => opt_str_leb (p_date (fst y)) (p_date (fst x))) rows
  else if String.eqb sort_by "mostLiked" then
    order_by (fun y x => p_likes (fst x) <=? p_likes (fst y)) rows
  else if String.eqb sort_by "mostCommented" then
    order_by (fun y x => p_comments (fst x) <=? p_comments (fst y)) rows
  else
    order_by (fun y x => opt_str_leb (p_date (fst x)) (p_date (fst y))) rows.

Definition view_author (a : author) : author_view :=
  mk_author_view (a_id a) (a_first_name a ++ " " ++ a_last_name a)
    (a_first_name a) (a_last_name a) (a_email a) (a_company a)
    (a_job_title a) (a_bio a) (a_follower_count a)
    (negb (a_verified a =? 0)).

Definition view_post (d : db) (pa : post * author) : post_view :=
  let '(p, a) := pa in
  mk_post_view (p_id p) (view_author a) (p_text p) (p_date p) (p_likes p)
    (p_comments p) (p_shares p) (p_total_engagements p)
    (p_engagement_rate p) (p_image_svg p) (p_category p) (p_location p)
    (select_tags d (p_id p)).

(** The rows the filters select, in the order of the join. *)
Definition matching_posts (search category date_from date_to : string)
    (d : db) : list (post * author) :=
  filter (where_clause search category date_from date_to)
         (join_posts_authors d).

(** [a // b] *)
Definition floordiv (a b : Z) : pyresult Z :=
  if b =? 0 then Raise ZeroDivisionError else Ok (a / b).

(** Is the pattern [%search%] longer than the engine takes? *)
Definition like_too_long (E : engine) (search : string) : bool :=
  nonempty search
  && N.ltb (like_limit E) (utf8_length ("%" ++ search ++ "%")).

(** A pattern that is too long makes LIKE fail with "LIKE or GLOB pattern
    too complex" on the first row it is evaluated on: a row of the join
    that passes the other filters, or, when the engine is [eager], any row
    of the join. *)
Definition like_check (E : engine) (eager : bool)
    (search category date_from date_to : string) (d : db) : pyresult unit :=
  if like_too_long E search
     && match join_posts_authors d with
        | [] => false
        | _ :: _ =>
            eager ||
            match filter (where_clause "" category date_from date_to)
                         (join_posts_authors d) with
            | [] => false
            | _ :: _ => true
            end
        end
  then Raise OperationalError
  else Ok tt.

Definition get_posts (E : engine) (args : posts_args)
  : hstate -> response * hstate :=
  try_except (
    let search := strip (args_get (arg_search args) "") in
    let category := strip (args_get (arg_category args) "") in
    let date_from := strip (args_get (arg_dateFrom args) "") in
    let date_to := strip (args_get (arg_dateTo args) "") in
    let sort_by := strip (args_get (arg_sortBy args) "newest") in
    let! page := h_lift (args_int (arg_page args) 1) in
    let! limit := h_lift (args_int (arg_limit args) 10) in
    let! _ := get_db_connection in
    let matching := matching_posts search category date_from date_to in
    let! total_count :=
      sql_query (fun d =>
        let* _ := like_check E (count_like_eager E)
                    search category date_from date_to d in
        Ok (Z.of_nat (length (matching d)))) in
    let offset := (page - 1) * limit in
    let! rows :=
      sql_query (fun d =>
        let rank :=
          posts_tie_rank E d search category date_from date_to sort_by in
        let* limit := bind_int limit in
        let* offset := bind_int offset in
        let* _ := like_check E (list_like_eager E)
                    search category date_from date_to d in
        Ok (limit_offset limit offset (sort_rows rank sort_by (matching d)))) in
    let! page_posts := sql_select (fun d => map (view_post d) rows) in
    let! _ := conn_close in
    let! total_pages := h_lift (floordiv (total_count + limit - 1) limit) in
    h_ret (mk_response 200
             (BPosts page_posts
                (mk_pagination page total_pages total_count limit
                   (page <? total_pages) (1 <? page))))).

(** What the two queries of [get_posts] may fail on, in the order in which
    they do: the pattern of the count query, the values bound to LIMIT and
    OFFSET, the pattern of the list query. *)
Definition list_checks (E : engine) (args : posts_args) (page limit : Z)
    (d : db) : pyresult unit :=
  let search := strip (args_get (arg_search args) "") in
  let category := strip (args_get (arg_category args) "") in
  let date_from := strip (args_get (arg_dateFrom args) "") in
  let date_to := strip (args_get (arg_dateTo args) "") in
  let* _ := like_check E (count_like_eager E)
              search category date_from date_to d in
  let* _ := bind_int limit in
  let* _ := bind_int ((page - 1) * limit) in
  like_check E (list_like_eager E) search category date_from date_to d.

(** The rank an engine gives the rows of a request for the list. *)
Definition request_rank (E : engine) (args : posts_args) (d : db)
  : post * author -> Z :=
  posts_tie_rank E d (strip (args_get (arg_search args) ""))
    (strip (args_get (arg_category args) ""))
    (strip (args_get (arg_dateFrom args) ""))
    (strip (args_get (arg_dateTo args) ""))
    (strip (args_get (arg_sortBy args) "newest")).

(** ** GET /api/posts/<id> *)

Definition get_post (post_id : Z) : hstate -> response * hstate :=
  try_except (
    let! _ := get_db_connection in
    let! row :=
      sql_query (fun d =>
        let* post_id := bind_int post_id in
        Ok (head (filter (fun pa => p_id (fst pa) =? post_id)
                         (join_posts_authors d)))) in
    match row with
    | None =>
        let! _ := conn_close in
        h_ret (mk_response 404 (BError "Post not found"))
    | Some pa =>
        let! tags := sql_select (fun d => select_tags d post_id) in
        let! _ := conn_close in
        let p := fst pa in
        let a := snd pa in
        h_ret (mk_response 200
                 (BPost (mk_post_detail (p_id p)
                           (mk_author_detail
                              (a_first_name a ++ " " ++ a_last_name a)
                              (a_email a) (a_company a) (a_job_title a)
                              (a_bio a) (a_follower_count a)
                              (negb (a_verified a =? 0)))
                           (p_text p) (p_date p) (p_likes p) (p_comments p)
                           (p_shares p) (p_image_svg p) (p_category p)
                           (p_location p) tags)))
    end).

(** ** POST /api/posts *)

(** The body of a request is the object [request.get_json()] returns: any
    JSON value. *)

(** [d.get(k)] on the members of a [dict] *)
Definition dict_lookup (k : string) (members : list (string * json))
  : option json :=
  match filter (fun kv => String.eqb (fst kv) k) members with
  | kv :: _ => Some (snd kv)
  | [] => None
  end.

(** [data.get(key, default)]: only a [dict] has the method. *)
Definition json_get (data : json) (key : string) (default : json)
  : pyresult json :=
  match data with
  | JDict members =>
      match dict_lookup key members with
      | Some v => Ok v
      | None => Ok default
      end
  | _ => Raise AttributeError
  end.

(** The truth value of an object. *)
Definition truthy (v : json) : bool :=
  match v with
  | JNull => false
  | JBool b => b
  | JInt n => negb (n =? 0)
  | JFloat (FFin _ m _) => negb (m =? 0)
  | JFloat _ => true
  | JStr s => nonempty s
  | JList items => match items with [] => false | _ => true end
  | JDict members => match members with [] => false | _ => true end
  end.

Fixpoint chars (s : string) : list string :=
  match s with
  | "" => []
  | String c r => String c "" :: chars r
  end.

(** [for tag in v]: the elements of a list, the characters of a [str], the
    keys of a [dict]; the other objects are not iterable. *)
Definition json_iter (v : json) : pyresult (list json) :=
  match v with
  | JList items => Ok items
  | JStr s => Ok (map JStr (chars s))
  | JDict members => Ok (map (fun kv => JStr (fst kv)) members)
  | _ => Raise TypeError
  end.

(** [key in data]: a key of a [dict], an element of a list, a part of a
    [str]; the other objects have no [in]. *)
Definition json_in (key : string) (data : json) : pyresult bool :=
  match data with
  | JDict members =>
      Ok (match dict_lookup key members with Some _ => true | None => false end)
  | JList items =>
      Ok (existsb (fun v => match v with
                            | JStr s => String.eqb s key
                            | _ => false
                            end) items)
  | JStr s => Ok (contains key s)
  | _ => Raise TypeError
  end.

(** [data[key]]: a list and a [str] are indexed by integers only. *)
Definition json_item (data : json) (key : string) : pyresult json :=
  match data with
  | JDict members =>
      match dict_lookup key members with
      | Some v => Ok v
      | None => Raise KeyError
      end
  | _ => Raise TypeError
  end.

(** An object bound to a parameter that goes to a TEXT column, or is
    compared with one: what the column keeps of it, [None] for NULL.  A
    list or a [dict] cannot be bound. *)
Definition bind_text (E : engine) (v : json) : pyresult (option string) :=
  match v with
  | JNull => Ok None
  | JBool b => Ok (Some (if b then "1" else "0"))
  | JInt n => let* n := bind_int n in Ok (Some (str_of_Z n))
  | JFloat x =>
      Ok (match bind_real x with
          | Some x => Some (real_text E x)
          | None => None
          end)
  | JStr s => Ok (Some s)
  | JList _ => Raise ProgrammingError
  | JDict _ => Raise ProgrammingError
  end.

(** [INSERT INTO post_tags (post_id, tag) VALUES (?, ?)] with the tag as
    the request gives it; the column is NOT NULL.  The id was bound to an
    earlier statement of the handler. *)
Definition insert_request_tag (E : engine) (post_id : Z) (tag : json) (d : db)
  : pyresult db :=
  let* tag := bind_text E tag in
  match tag with
  | Some t => Ok (insert_post_tag d post_id t)
  | None => Raise IntegrityError
  end.

(** The texts the tags of a request are stored as, in the order given; the
    first tag that cannot be stored ends the loop. *)
Fixpoint tag_texts (E : engine) (tags : list json) : pyresult (list string) :=
  match tags with
  | [] => Ok []
  | tag :: rest =>
      let* t := bind_text E tag in
      match t with
      | Some s => let* r := tag_texts E rest in Ok (s :: r)
      | None => Raise IntegrityError
      end
  end.

(** [SELECT MAX(id) as max_id FROM posts]: NULL on an empty table. *)
Definition select_max_id (d : db) : option Z :=
  match map p_id (posts d) with
  | [] => None
  | x :: r => Some (fold_left Z.max r x)
  end.

(** [v or 0] *)
Definition or_zero (v : option Z) : Z :=
  match v with
  | Some x => x
  | None => 0
  end.

(** [SELECT id FROM authors WHERE email = ?] with the email as the request
    gives it. *)
Definition select_author_by (E : engine) (email : json) (d : db)
  : pyresult (option Z) :=
  let* email := bind_text E email in
  Ok (match email with
      | Some e => select_author_id d e
      | None => None
      end).

(** The INSERT of [create_post]. *)
Definition insert_request_post (E : engine) (new_id author_id : Z)
    (content : json) (now : string) (image_svg category location : json)
    (d : db) : pyresult db :=
  let* new_id := bind_int new_id in
  let* text := bind_text E content in
  let* image_svg := bind_text E image_svg in
  let* category := bind_text E category in
  let* location := bind_text E location in
  insert_post d
    (mk_post new_id author_id text (Some now) 0 0 0 0 (Some float_zero)
       image_svg category location).

(** [not data.get(key)] on an object *)
Definition missing (data : json) (key : string) : bool :=
  match json_get data key JNull with
  | Ok v => negb (truthy v)
  | _ => false
  end.


(** [now] is [datetime.now().strftime('%Y-%m-%d %H:%M:%S')], the clock at
    the time of the request. *)
Definition create_post (E : engine) (now : string) (data : json)
  : hstate -> response * hstate :=
  try_except (
    let! email := h_lift (json_get data "authorEmail" JNull) in
    if negb (truthy email) then
      h_ret (mk_response 400 (BError "Author email is required"))
    else
    let! content := h_lift (json_get data "content" JNull) in
    if negb (truthy content) then
      h_ret (mk_response 400 (BError "Content is required"))
    else
      let! _ := get_db_connection in
      let! author_ := sql_query (select_author_by E email) in
      match author_ with
      | None =>
          let! _ := conn_close in
          h_ret (mk_response 404 (BError "Author not found"))
      | Some author_id =>
          let! max_id := sql_select (fun d => or_zero (select_max_id d)) in
          let new_id := max_id + 1 in
          let! image_svg := h_lift (json_get data "imageSvg" (JStr "")) in
          let! category := h_lift (json_get data "category" (JStr "")) in
          let! location := h_lift (json_get data "location" (JStr "")) in
          let! _ :=
            sql_execute
              (insert_request_post E new_id author_id content now image_svg
                 category location) in
          let! tags := h_lift (json_get data "tags" (JList [])) in
          let! tags := h_lift (json_iter tags) in
          let! _ :=
            h_for tags (fun tag =>
              sql_execute (insert_request_tag E new_id tag)) in
          let! _ := conn_commit in
          let! _ := conn_close in
          h_ret (mk_response 201 (BCreated "Post created successfully" new_id))
      end).

(** ** PUT /api/posts/<id> *)

(** [if key in data: updates.append(...); params.append(data[key])]: the
    value to bind, if the key is there. *)
Definition update_param (data : json) (key : string)
  : pyresult (option json) :=
  let* present := json_in key data in
  if present then let* v := json_item data key in Ok (Some v)
  else Ok None.

(** A column keeps its value unless the request brings one. *)
Definition updated (new : option (option string)) (old : option string)
  : option string :=
  match new with
  | Some v => v
  | None => old
  end.

(** What the UPDATE binds, for the keys present. *)
Record update_values : Type := mk_update_values {
  uv_content : option (option string);
  uv_category : option (option string);
  uv_location : option (option string);
  uv_imageSvg : option (option string)
}.

(** [UPDATE posts SET ... WHERE id = ?] for the keys present. *)
Definition update_post_row (d : db) (post_id : Z) (data : update_values) : db :=
  mk_db (authors d) (authors_seq d)
        (map (fun p =>
                if p_id p =? post_id then
                  mk_post (p_id p) (p_author_id p)
                    (updated (uv_content data) (p_text p)) (p_date p)
                    (p_likes p) (p_comments p) (p_shares p)
                    (p_total_engagements p) (p_engagement_rate p)
                    (updated (uv_imageSvg data) (p_image_svg p))
                    (updated (uv_category data) (p_category p))
                    (updated (uv_location data) (p_location p))
                else p)
             (posts d))
        (post_tags d) (post_tags_seq d).

Definition is_some {A} (v : option A) : bool :=
  match v with
  | Some _ => true
  | None => false
  end.

(** A parameter of the UPDATE, bound if it is there. *)
Definition bind_update (E : engine) (v : option json)
  : pyresult (option (option string)) :=
  match v with
  | Some v => let* t := bind_text E v in Ok (Some t)
  | None => Ok None
  end.

(** The UPDATE of [update_post]: the values are bound in the order
    content, category, location, imageSvg, then the id, which the SELECT
    before it has bound already. *)
Definition update_request_post (E : engine) (post_id : Z)
    (content category location image_svg : option json) (d : db)
  : pyresult db :=
  let* content := bind_update E content in
  let* category := bind_update E category in
  let* location := bind_update E location in
  let* image_svg := bind_update E image_svg in
  Ok (update_post_row d post_id
        (mk_update_values content category location image_svg)).

(** What a request asks to write into the columns of a post. *)
Definition request_update_values (E : engine) (data : json)
  : pyresult update_values :=
  let* content := update_param data "content" in
  let* category := update_param data "category" in
  let* location := update_param data "location" in
  let* image_svg := update_param data "imageSvg" in
  let* content := bind_update E content in
  let* category := bind_update E category in
  let* location := bind_update E location in
  let* image_svg := bind_update E image_svg in
  Ok (mk_update_values content category location image_svg).

(** The tags a request asks to give a post, as they are stored: [None]
    when it has no key [tags]. *)
Definition request_update_tags (E : engine) (data : json)
  : pyresult (option (list string)) :=
  let* has_tags := json_in "tags" data in
  if has_tags then
    let* tags := json_item data "tags" in
    let* tags := json_iter tags in
    let* texts := tag_texts E tags in
    Ok (Some texts)
  else Ok None.

(** A request that names none of the four columns. *)
Definition no_update : update_values := mk_update_values None None None None.

Definition update_post (E : engine) (post_id : Z) (data : json)
  : hstate -> response * hstate :=
  try_except (
    let! _ := get_db_connection in
    let! found :=
      sql_query (fun d =>
        let* post_id := bind_int post_id in Ok (has_post d post_id)) in
    if negb found then
      let! _ := conn_close in
      h_ret (mk_response 404 (BError "Post not found"))
    else
      let! content := h_lift (update_param data "content") in
      let! category := h_lift (update_param data "category") in
      let! location := h_lift (update_param data "location") in
      let! image_svg := h_lift (update_param data "imageSvg") in
      let! _ :=
        if is_some content || is_some category
           || is_some location || is_some image_svg
        then sql_execute
               (update_request_post E post_id content category location
                  image_svg)
        else h_ret tt in
      let! has_tags := h_lift (json_in "tags" data) in
      let! _ :=
        if has_tags then
          let! _ := sql_execute (fun d => Ok (delete_post_tags d post_id)) in
          let! tags := h_lift (json_item data "tags") in
          let! tags := h_lift (json_iter tags) in
          h_for tags (fun tag =>
            sql_execute (insert_request_tag E post_id tag))
        else h_ret tt in
      let! _ := conn_commit in
      let! _ := conn_close in
      h_ret (mk_response 200 (BMessage "Post updated successfully"))).

(** ** DELETE /api/posts/<id> *)

Definition delete_post (post_id : Z) : hstate -> response * hstate :=
  try_except (
    let! _ := get_db_connection in
    let! found :=
      sql_query (fun d =>
        let* post_id := bind_int post_id in Ok (has_post d post_id)) in
    if negb found then
      let! _ := conn_close in
      h_ret (mk_response 404 (BError "Post not found"))
    else
      let! _ := sql_execute (fun d => Ok (delete_post_tags d post_id)) in
      let! _ := sql_execute (fun d => Ok (delete_post_row d post_id)) in
      let! _ := conn_commit in
      let! _ := conn_close in
      h_ret (mk_response 200 (BMessage "Post deleted successfully"))).

(** ** GET /api/stats *)

Definition sum_list (l : list Z) : Z := fold_right Z.add 0 l.

(** The rows of [posts] as a scan of the table meets them: by rowid, which
    is the id. *)
Definition by_rowid (l : list post) : list post :=
  order_by (fun y x => p_id y <=? p_id x) l.

(** [SUM(column)] adds the values in 64 bits as the scan meets them, and
    fails with "integer overflow" when a partial sum does not fit. *)
Fixpoint sql_sum_from (acc : Z) (l : list Z) : pyresult Z :=
  match l with
  | [] => Ok acc
  | x :: r =>
      if sqlite_intb (acc + x) then sql_sum_from (acc + x) r
      else Raise OperationalError
  end.

(** [SUM(column) ... or 0]: the sum of no row is NULL. *)
Definition sql_sum (l : list Z) : pyresult Z := sql_sum_from 0 l.

Definition get_stats : hstate -> response * hstate :=
  try_except (
    let! _ := get_db_connection in
    let! total_posts := sql_select (fun d => Z.of_nat (length (posts d))) in
    let! total_likes :=
      sql_query (fun d => sql_sum (map p_likes (by_rowid (posts d)))) in
    let! total_comments :=
      sql_query (fun d => sql_sum (map p_comments (by_rowid (posts d)))) in
    let! _ := conn_close in
    h_ret (mk_response 200 (BStats total_posts total_likes total_comments))).

(** ** GET /api/categories *)

Fixpoint distinct (seen : list string) (l : list string) : list string :=
  match l with
  | [] => []
  | x :: r => if str_in x seen then distinct seen r else x :: distinct (x :: seen) r
  end.

(** [SELECT DISTINCT category FROM posts WHERE category IS NOT NULL AND
    category != '' ORDER BY category] *)
Definition select_categories (d : db) : list string :=
  order_by str_leb
    (distinct []
       (flat_map (fun p =>
                    match p_category p with
                    | Some c => if nonempty c then [c] else []
                    | None => []
                    end)
                 (posts d))).

Definition get_categories : hstate -> response * hstate :=
  try_except (
    let! _ := get_db_connection in
    let! categories := sql_select select_categories in
    let! _ := conn_close in
    h_ret (mk_response 200 (BCategories categories))).

(** ** GET /api/authors *)

(** [ORDER BY first_name, last_name] *)
Definition author_before (y x : author) : bool :=
  match str_compare (a_first_name y) (a_first_name x) with
  | Lt => true
  | Gt => false
  | Eq => str_leb (a_last_name y) (a_last_name x)
  end.

Definition get_authors (E : engine) : hstate -> response * hstate :=
  try_except (
    let! _ := get_db_connection in
    let! rows :=
      sql_select (fun d =>
        limit_offset 100 0
          (order_by author_before
             (order_ties (authors_tie_rank E d) (authors d)))) in
    let authors_ :=
      map (fun a =>
             mk_author_entry (a_id a) (a_first_name a ++ " " ++ a_last_name a)
               (a_email a) (a_company a) (a_job_title a))
          rows in
    let! _ := conn_close in
    h_ret (mk_response 200 (BAuthors authors_))).

(** A request arrives with no connection open. *)
Definition serving (file : option db) : hstate := mk_hstate file None 0.

(** ** The routes *)

(** A request that reaches a handler.  The [int] converter of
    [/api/posts/<int:post_id>] matches digits only: the id is a natural
    number, of any size. *)
Inductive request : Type :=
  | GetStats
  | GetCategories
  | GetPosts (args : posts_args)
  | GetPost (post_id : N)
  | CreatePost (now : string) (data : json)
  | UpdatePost (post_id : N) (data : json)
  | DeletePost (post_id : N)
  | GetAuthors.

Definition route (E : engine) (rq : request) : hstate -> response * hstate :=
  match rq with
  | GetStats => get_stats
  | GetCategories => get_categories
  | GetPosts args => get_posts E args
  | GetPost post_id => get_post (Z.of_N post_id)
  | CreatePost now data => create_post E now data
  | UpdatePost post_id data => update_post E (Z.of_N post_id) data
  | DeletePost post_id => delete_post (Z.of_N post_id)
  | GetAuthors => get_authors E
  end.

(* ===================================================================== *)
(** * Properties of the store, and the states it can reach                *)
(* ===================================================================== *)

(** The author email of a create request, as it is bound, is the email of
    no author. *)
Definition unknown_author (E : engine) (data : json) (d : db) : Prop :=
  forall email e,
    json_get data "authorEmail" JNull = Ok email ->
    bind_text E email = Ok (Some e) ->
    select_author_id d e = None.

(** No (post id, tag) pair occurs twice in [post_tags]. *)
Definition tags_unique (d : db) : Prop :=
  NoDup (map (fun t => (t_post_id t, t_tag t)) (post_tags d)).


(** No email occurs twice in [authors]. *)
Definition authors_unique (d : db) : Prop := NoDup (map a_email (authors d)).


(** One operation on the store: a run of the importer on the open
    connection, the seeding of the fallback author, or a request served. *)
Inductive store_step : db -> db -> Prop :=
  | step_import P d file d' st :
      import_data P d file = Ok (d', st) -> store_step d d'
  | step_sys_admin d d' :
      ensure_sys_admin d = Ok d' -> store_step d d'
  | step_request E d rq r h' d' :
      route E rq (serving (Some d)) = (r, h') ->
      hs_file h' = Some d' ->
      store_step d d'.

(** The states reached from the empty schema. *)
Inductive reachable : db -> Prop :=
  | reach_schema : reachable create_database_schema
  | reach_step d d' : reachable d -> store_step d d' -> reachable d'.

(** The loop of [clean_email] as a relation between the text at its entry
    and the text at its exit. *)
Inductive while_collapse : string -> string -> Prop :=
  | wc_exit email :
      contains "@@" email = false -> while_collapse email email
  | wc_iter email final :
      contains "@@" email = true ->
      while_collapse (replace "@@" "@" email) final ->
      while_collapse email final.

(** [clean_text] as the specification words it: the input trimmed, every
    [%%] replaced by [%], the trailing pattern stripped, and null for the
    empty input. *)
Definition clean_text_as_specified (s : string) : option string :=
  match s with
  | "" => None
  | _ => Some (sub_extra_commas (replace "%%" "%" (strip s)))
  end.

(** The tags of a decoded array as the specification words them: every
    element coerced to a string and trimmed, the empty ones dropped, later
    duplicates dropped. *)
Definition tags_as_specified (items : list json) : list string :=
  distinct [] (filter nonempty (map (fun t => strip (py_str t)) items)).

(** The rows a request for the list selects. *)
Definition selected_posts (args : posts_args) (d : db) : list (post * author) :=
  matching_posts (strip (args_get (arg_search args) ""))
    (strip (args_get (arg_category args) ""))
    (strip (args_get (arg_dateFrom args) ""))
    (strip (args_get (arg_dateTo args) "")) d.

(* ===================================================================== *)
(** * Sample data                                                         *)
(* ===================================================================== *)

Definition sample_header : list string :=
  ["post_id"; "author_first_name"; "author_last_name"; "author_email";
   "post_text"; "post_tags"].

(** A file of one post whose tag cell repeats a tag. *)
Definition sample_file : list (list string) :=
  [sample_header;
   ["7"; "Ann"; "Lee"; "ann@example.com"; "hello"; dq "['#a','#a','#b']"]].

(** The store after [import_data] has read [sample_file] into the empty
    schema. *)
Definition sample_store : db :=
  Eval vm_compute in
    match import_data cpython_linux create_database_schema
            (Some sample_file) with
    | Ok (d, _) => d
    | _ => create_database_schema
    end.

(** An engine for the examples: rows that tie come latest first, a LIKE
    pattern has up to 50000 bytes and is evaluated after the other filters.
    The examples bind no REAL value to a TEXT column; [repr] stands for
    its text. *)
Definition sample_engine : engine :=
  mk_engine (fun _ _ _ _ _ _ pa => - p_id (fst pa)) (fun _ a => - a_id a)
    float_repr 50000%N false false.

(** A create request that names a tag twice. *)
Definition sample_request : json :=
  JDict [("authorEmail", JStr "ann@example.com"); ("content", JStr "hi");
         ("tags", JList [JStr "#x"; JStr "#x"])].

Definition sample_now : string := "2024-01-01 00:00:00".

(** The store after that request. *)
Definition sample_store_after_create : db :=
  Eval vm_compute in
    match hs_file (create_post sample_engine sample_now sample_request
                     (serving (Some sample_store))).2 with
    | Some d => d
    | None => sample_store
    end.





(** A create request for an author the store does not have, without
    content. *)
Definition stranger_request : json :=
  JDict [("authorEmail", JStr "nobody@example.com")].

(** A file of 25 posts by one author. *)
Definition file_25 : list (list string) :=
  sample_header ::
  map (fun n => [str_of_Z (Z.of_nat n); "Ann"; "Lee"; "ann@example.com";
                 "post " ++ str_of_Z (Z.of_nat n); "[]"])
      (seq 1 25).

Definition store_25 : db :=
  Eval vm_compute in
    match import_data cpython_linux create_database_schema (Some file_25) with
    | Ok (d, _) => d
    | _ => create_database_schema
    end.

(** [GET /api/posts?page=3&limit=10] *)
Definition page_3_of_10 : posts_args :=
  mk_posts_args None None None None None (Some "3") (Some "10").

(** [GET /api/posts?page=1&limit=10000000000000000000] *)
Definition huge_page : posts_args :=
  mk_posts_args None None None None None (Some "1")
    (Some "10000000000000000000").

(** [GET /api/posts] *)
Definition no_args : posts_args :=
  mk_posts_args None None None None None None None.

(* ===================================================================== *)
(** * MAIN FUNCTION ([data_processing.py]) and further store properties   *)
(* ===================================================================== *)

(** [main()].  [database] is the database file before the run, [csv] the
    CSV file, [None] when [os.path.exists] does not find it.  The schema is
    committed by [create_database_schema], the rows by the [commit] that
    ends [import_data], the fallback author by [ensure_sys_admin]; when one
    of them raises, [finally: conn.close()] leaves what was committed so
    far.  The result is the database file after the run and the statistics
    reported ([None] when the run stops at the missing file).  When the
    import leaves the repertoire, so does the run, and the file given with
    it stands for nothing. *)
Definition main (P : platform) (database : option db)
    (csv : option (list (list string)))
  : option db * pyresult (option stats) :=
  match csv with
  | None => (database, Ok None)
  | Some lines =>
      match import_data P create_database_schema (Some lines) with
      | Raise e => (Some create_database_schema, Raise e)
      | Beyond => (Some create_database_schema, Beyond)
      | Ok (d, st) =>
          match ensure_sys_admin d with
          | Ok d' => (Some d', Ok (Some st))
          | Raise e => (Some d, Raise e)
          | Beyond => (Some d, Beyond)
          end
      end
  end.

(** No author id occurs twice in [authors]. *)
Definition author_ids_unique (d : db) : Prop := NoDup (map a_id (authors d)).

(** Every post belongs to an author that is there. *)
Definition posts_have_authors (d : db) : Prop :=
  forall p, In p (posts d) -> In (p_author_id p) (map a_id (authors d)).

(** Every id the importer remembers for an email is the id of an author
    row. *)
Definition cache_sound (d : db) (authors_cache : gmap string Z) : Prop :=
  forall e id, authors_cache !! e = Some id -> In id (map a_id (authors d)).

(** A text that is empty or starts with a character that [sp] does not
    hold for. *)
Definition head_kept (sp : ascii -> bool) (s : string) : bool :=
  match s with
  | "" => true
  | String c _ => negb (sp c)
  end.

(** The posts of a page answered by [get_posts]. *)
Definition response_posts (r : response) : list post_view :=
  match payload r with
  | BPosts page_posts _ => page_posts
  | _ => []
  end.

(** Two neighbours of a list stand in the order [before]. *)
Fixpoint ordered {A} (before : A -> A -> bool) (l : list A) : Prop :=
  match l with
  | [] => True
  | x :: r =>
      match r with
      | [] => True
      | y :: _ => before x y = true /\ ordered before r
      end
  end.

(** Every author of the table is in the cache of the importer. *)
Definition cache_complete (d : db) (authors_cache : gmap string Z) : Prop :=
  forall a, In a (authors d) -> is_Some (authors_cache !! a_email a).

(** The columns [import_data] reads with [clean_integer]. *)
Definition integer_columns : list string :=
  ["author_follower_count"; "post_id"; "likes"; "comments"; "shares";
   "total_engagements"].

(** The state of the importer when it starts on [sample_store]. *)
Definition sample_state : import_state :=
  mk_import_state sample_store ∅ stats0.

(** A line whose email cell is blank. *)
Definition row_without_email : gmap string (option string) :=
  dict_row sample_header ["8"; "Bob"; "Ray"; "  "; "hello"; "[]"] ∅.

(** A line of a new author whose first name cell is empty. *)
Definition row_without_name : gmap string (option string) :=
  dict_row sample_header ["9"; ""; "Ray"; "bob@example.com"; "hello"; "[]"] ∅.

(** The routes that answer GET requests. *)
Definition is_get (rq : request) : bool :=
  match rq with
  | GetStats | GetCategories | GetPosts _ | GetPost _ | GetAuthors => true
  | CreatePost _ _ | UpdatePost _ _ | DeletePost _ => false
  end.

(** How a row of [posts] and the row [UPDATE posts SET ...] makes of it
    compare: the text, image, category and location are those of the
    request where it brings them, and nothing else differs. *)
Definition updated_from (data : update_values) (p p' : post) : Prop :=
  p_id p' = p_id p /\ p_author_id p' = p_author_id p /\
  p_date p' = p_date p /\ p_likes p' = p_likes p /\
  p_comments p' = p_comments p /\ p_shares p' = p_shares p /\
  p_total_engagements p' = p_total_engagements p /\
  p_engagement_rate p' = p_engagement_rate p /\
  p_text p' = updated (uv_content data) (p_text p) /\
  p_image_svg p' = updated (uv_imageSvg data) (p_image_svg p) /\
  p_category p' = updated (uv_category data) (p_category p) /\
  p_location p' = updated (uv_location data) (p_location p).

(** A request that changes the category of post 7 and nothing else. *)
Definition sample_update : json := JDict [("category", JStr "news")].

(** The order [sortBy] asks for, on the posts as they are listed:
    [listed_before sort_by x y] when [x] may stand before [y]. *)
Definition listed_before (sort_by : string) (x y : post_view) : bool :=
  if String.eqb sort_by "oldest" then opt_str_leb (pv_date x) (pv_date y)
  else if String.eqb sort_by "mostLiked" then pv_likes y <=? pv_likes x
  else if String.eqb sort_by "mostCommented" then
    pv_comments y <=? pv_comments x
  else opt_str_leb (pv_date y) (pv_date x).

(** Two requests for the list that differ at most in page and limit. *)
Definition same_query (a b : posts_args) : Prop :=
  arg_search a = arg_search b /\ arg_category a = arg_category b /\
  arg_dateFrom a = arg_dateFrom b /\ arg_dateTo a = arg_dateTo b /\
  arg_sortBy a = arg_sortBy b.

(** A text without NUL: LIKE reads all of it. *)
Definition no_nul (s : string) : Prop := until_nul s = s.

(** A text with its letters A-Z in lower case, as LIKE compares it. *)
Fixpoint ascii_lower_text (s : string) : string :=
  match s with
  | "" => ""
  | String c r => String (ascii_lower c) (ascii_lower_text r)
  end.

(** [GET /api/posts?page=1&limit=10] and [GET /api/posts?page=2&limit=10] *)
Definition page_1_of_10 : posts_args :=
  mk_posts_args None None None None None (Some "1") (Some "10").

Definition page_2_of_10 : posts_args :=
  mk_posts_args None None None None None (Some "2") (Some "10").

(** A line whose tag cell is an integer literal of 4301 digits. *)
Definition row_with_long_number : gmap string (option string) :=
  dict_row ["post_id"; "author_email"; "post_tags"]
    ["8"; "ann@example.com"; repeat_char "1" 4301] ∅.

(** A file that brings a post of the author of [sample_store] and a post of
    a new author, and the store after it is imported into
    [sample_store]. *)
Definition second_file : list (list string) :=
  [sample_header;
   ["8"; "Anna"; "Leigh"; "ann@example.com"; "again"; "[]"];
   ["9"; "Bob"; "Ray"; "bob@example.com"; "hello"; dq "['#b']"]].

Definition sample_store_after_second : db :=
  Eval vm_compute in
    match import_data cpython_linux sample_store (Some second_file) with
    | Ok (d, _) => d
    | _ => sample_store
    end.

(** A line whose [likes] cell reads as an infinity. *)
Definition row_with_infinity : gmap string (option string) :=
  dict_row ["post_id"; "author_email"; "likes"]
    ["8"; "ann@example.com"; "Infinity"] ∅.

(* ===================================================================== *)
(** * Facts about strings                                                 *)
(* ===================================================================== *)

Section StringFacts.

Lemma str_in_In (s : string) (l : list string) :
  str_in s l = true <-> In s l.
Proof.
  unfold str_in. rewrite existsb_exists. split.
  - intros [x [Hx Heq]]. apply String.eqb_eq in Heq. now subst.
  - intros H. exists s. split; [assumption | apply String.eqb_refl].
Qed.

Lemma str_in_false (s : string) (l : list string) :
  str_in s l = false <-> ~ In s l.
Proof.
  rewrite <- str_in_In. destruct (str_in s l); split; congruence.
Qed.

Lemma length_append (a b : string) :
  String.length (a ++ b) = (String.length a + String.length b)%nat.
Proof. induction a as [|c a IH]; simpl; [reflexivity | now rewrite IH]. Qed.

Lemma lower_char_idem (c : ascii) : lower_char (lower_char c) = lower_char c.
Proof.
  destruct c as [b0 b1 b2 b3 b4 b5 b6 b7].
  destruct b0, b1, b2, b3, b4, b5, b6, b7; reflexivity.
Qed.

Lemma lower_idem (s : string) : lower (lower s) = lower s.
Proof.
  induction s as [|c s IH]; simpl; [reflexivity|].
  now rewrite lower_char_idem, IH.
Qed.

Lemma lower_append (a b : string) : lower (a ++ b) = lower a ++ lower b.
Proof. induction a as [|c a IH]; simpl; [reflexivity | now rewrite IH]. Qed.

(** Replacing by a lower-case text keeps a lower-case text lower-case. *)
Lemma lower_replace_from (old new : string) :
  lower new = new ->
  forall s skip, lower s = s ->
    lower (replace_from old new skip s) = replace_from old new skip s.
Proof.
  intros Hnew s. induction s as [|c s IH]; intros skip Hs; simpl.
  - reflexivity.
  - simpl in Hs. injection Hs as Hc Hr.
    destruct skip as [|k].
    + destruct (startswith old (String c s)).
      * rewrite lower_append, Hnew. f_equal. now apply IH.
      * simpl. rewrite Hc. f_equal. now apply IH.
    + now apply IH.
Qed.

Lemma startswith_cons (p s : string) (c : ascii) :
  startswith (String c p) s = true ->
  exists s', s = String c s' /\ startswith p s' = true.
Proof.
  destruct s as [|b s']; cbn [startswith]; [discriminate|].
  intros H. apply andb_true_iff in H as [Hc Hp].
  apply Ascii.eqb_eq in Hc. subst b. now exists s'.
Qed.

Lemma replace_from_step (old new : string) (c : ascii) (s : string) :
  replace_from old new 0 (String c s) =
  if startswith old (String c s)
  then new ++ replace_from old new (String.length old - 1) s
  else String c (replace_from old new 0 s).
Proof. reflexivity. Qed.

(** What [replace] leaves of a text when two characters become one. *)
Lemma length_replace_at_upper (s : string) (skip : nat) :
  (String.length (replace_from "@@" "@" skip s) <= String.length s - skip)%nat.
Proof.
  revert skip. induction s as [|c s IH]; intros skip.
  - simpl. lia.
  - destruct skip as [|k].
    + rewrite replace_from_step.
      destruct (startswith "@@" (String c s)) eqn:Hst.
      * apply startswith_cons in Hst as [s1 [Hs1 Hst]].
        apply startswith_cons in Hst as [s2 [Hs2 _]].
        injection Hs1 as Hc Hs. subst c s s1.
        rewrite length_append. specialize (IH 1%nat).
        change (String.length "@@" - 1)%nat with 1%nat.
        cbn [String.length] in *. lia.
      * specialize (IH 0%nat). cbn [String.length]. lia.
    + cbn [replace_from String.length]. specialize (IH k). lia.
Qed.

(** An iteration of the loop of [clean_email] makes the text shorter. *)
Lemma replace_at_shrinks (s : string) :
  contains "@@" s = true ->
  (String.length (replace "@@" "@" s) < String.length s)%nat.
Proof.
  change (replace "@@" "@" s) with (replace_from "@@" "@" 0 s).
  induction s as [|c s IH]; intros H.
  - discriminate.
  - cbn [contains] in H. rewrite replace_from_step.
    destruct (startswith "@@" (String c s)) eqn:Hst.
    + apply startswith_cons in Hst as [s1 [Hs1 Hst]].
      apply startswith_cons in Hst as [s2 [Hs2 _]].
      injection Hs1 as Hc Hs. subst c s s1.
      rewrite length_append.
      pose proof (length_replace_at_upper (String "@" s2) 1) as Hu.
      change (String.length "@@" - 1)%nat with 1%nat.
      cbn [String.length] in *. lia.
    + cbn [orb] in H. apply IH in H. cbn [String.length]. lia.
Qed.

(** The loop of [clean_email] leaves by its test before the fuel is
    out. *)
Lemma collapse_at_done (fuel : nat) (s : string) :
  (String.length s <= fuel)%nat ->
  contains "@@" (collapse_at fuel s) = false.
Proof.
  revert s. induction fuel as [|f IH]; intros s Hlen.
  - destruct s; [reflexivity | simpl in Hlen; lia].
  - cbn [collapse_at]. destruct (contains "@@" s) eqn:Hc.
    + apply IH. pose proof (replace_at_shrinks s Hc). lia.
    + assumption.
Qed.

Lemma collapse_at_while (fuel : nat) (s : string) :
  (String.length s <= fuel)%nat ->
  while_collapse s (collapse_at fuel s).
Proof.
  revert s. induction fuel as [|f IH]; intros s Hlen.
  - destruct s; [now apply wc_exit | simpl in Hlen; lia].
  - cbn [collapse_at]. destruct (contains "@@" s) eqn:Hc.
    + apply wc_iter; [assumption|].
      apply IH. pose proof (replace_at_shrinks s Hc). lia.
    + now apply wc_exit.
Qed.

Lemma collapse_at_lower (fuel : nat) (s : string) :
  lower s = s -> lower (collapse_at fuel s) = collapse_at fuel s.
Proof.
  revert s. induction fuel as [|f IH]; intros s Hs; simpl.
  - now destruct (contains "@@" s).
  - destruct (contains "@@" s); [|assumption].
    apply IH. unfold replace. now apply lower_replace_from.
Qed.

End StringFacts.

(* ===================================================================== *)
(** * The normalizers                                                     *)
(* ===================================================================== *)

(** ** [clean_boolean] *)

(** C6, as stated, does not hold: the value is stripped before it is
    lowercased, so that [" true "] is true although the lowercased input
    is none of the three words. *)
Lemma clean_boolean_unstripped_counterexample :
  ~ (forall value : pyval,
       clean_boolean value = 1 <->
       In (lower (str_of value)) ["true"; "1"; "yes"]).
Proof.
  intros H. destruct (H (PStr " true ")) as [H1 _].
  specialize (H1 eq_refl). cbn in H1.
  destruct H1 as [H1|[H1|[H1|[]]]]; discriminate H1.
Qed.

(** C6 (amended): [clean_boolean] returns true (1) if and only if the
    input, stripped of surrounding whitespace and lowercased, is one of
    "true", "1", "yes"; every other input yields false (0), among them
    "false", "0", the empty string, garbage and [None]. *)
Theorem clean_boolean_true_iff (value : pyval) :
  (clean_boolean value = 1 <->
   In (lower (strip (str_of value))) ["true"; "1"; "yes"]) /\
  (clean_boolean value = 0 <->
   ~ In (lower (strip (str_of value))) ["true"; "1"; "yes"]) /\
  map clean_boolean
    [PStr "true"; PStr "True"; PStr "TRUE"; PStr "1"; PStr "yes";
     PStr "false"; PStr "0"; PStr ""; PStr "maybe"; PNone]
  = [1; 1; 1; 1; 1; 0; 0; 0; 0; 0].
Proof.
  assert (Hnone : ~ In (lower (strip (str_of PNone))) ["true"; "1"; "yes"]).
  { cbn. intros [H|[H|[H|[]]]]; discriminate H. }
  split; [split|split; [split|vm_compute; reflexivity]].
  - destruct value as [|s|n]; [discriminate| |];
      unfold clean_boolean; intros H;
      apply str_in_In;
      destruct (str_in _ _); [reflexivity|discriminate|reflexivity|discriminate].
  - destruct value as [|s|n]; [intros H; now apply Hnone in H| |];
      unfold clean_boolean; intros H; apply str_in_In in H; now rewrite H.
  - destruct value as [|s|n]; [intros _; exact Hnone| |];
      unfold clean_boolean; intros H; apply str_in_false;
      destruct (str_in _ _); [discriminate|reflexivity|discriminate|reflexivity].
  - destruct value as [|s|n]; [reflexivity| |];
      unfold clean_boolean; intros H; apply str_in_false in H; now rewrite H.
Qed.

(** ** [clean_email] *)

(** C7: the loop of [clean_email] ends (each iteration makes the text
    strictly shorter while "@@" remains), and the text returned is
    lowercased and has no "@@", also when a collapse brings two '@'
    together; the empty input gives null. *)
Theorem clean_email_collapses (value : pyval) :
  let email := lower (strip (str_of value)) in
  while_collapse email (collapse_at (String.length email) email) /\
  (forall text,
     contains "@@" text = true ->
     (String.length (replace "@@" "@" text) < String.length text)%nat) /\
  (forall e,
     clean_email value = Some e -> contains "@@" e = false /\ lower e = e) /\
  clean_email (PStr "") = None /\
  clean_email (PStr "a@@@@b") = Some "a@b" /\
  clean_email (PStr "John@@Example.com") = Some "john@example.com".
Proof.
  intros email.
  split; [|split; [|split; [|split; [|split]]]];
    [| | |vm_compute; reflexivity..].
  - apply collapse_at_while. apply Nat.le_refl.
  - exact replace_at_shrinks.
  - intros e He. unfold clean_email in He.
    destruct (none_or_empty value); [discriminate|].
    fold email in He.
    destruct (nonempty (collapse_at (String.length email) email));
      [|discriminate].
    injection He as <-. split.
    + apply collapse_at_done. apply Nat.le_refl.
    + apply collapse_at_lower. apply lower_idem.
Qed.

Lemma clean_email_collapses_witness :
  contains "@@" "a@b" = false /\ lower "a@b" = "a@b".
Proof.
  exact (proj1 (proj2 (proj2 (clean_email_collapses (PStr "a@@@@b"))))
           "a@b" eq_refl).
Defined.

(** ** [clean_text] *)

(** C8, as stated, does not hold: a blank input is not empty, and yet the
    result is null, not the empty text that trimming leaves. *)
Lemma clean_text_blank_counterexample :
  ~ (forall s : string, clean_text (PStr s) = clean_text_as_specified s).
Proof.
  intros H. specialize (H "   "). vm_compute in H. discriminate H.
Qed.

(** C8 (amended): [clean_text] trims the input, replaces every "%%" by
    "%", strips the trailing ", extra, commas" pattern case-insensitively
    and trims what is left once more; it returns null when the input is
    empty and also when nothing is left of it. *)
Theorem clean_text_refines (s : string) :
  clean_text (PStr s) =
    match clean_text_as_specified s with
    | Some t => if nonempty t then Some (strip t) else None
    | None => None
    end /\
  clean_text (PStr "40%% off, extra, commas") = Some "40% off" /\
  clean_text (PStr "") = None /\
  clean_text (PStr "   ") = None /\
  clean_text (PStr ", extra, commas") = None /\
  clean_text (PStr "x , EXTRA,commas") = Some "x".
Proof.
  split; [|repeat match goal with |- _ /\ _ => split end;
             vm_compute; reflexivity].
  destruct s as [|c r]; reflexivity.
Qed.

(** ** [clean_integer], [clean_float], [clean_datetime] *)

Section Raising.

Lemma py_float_raises (s : string) (e : exn) :
  py_float s = Raise e -> e = ValueError.
Proof.
  unfold py_float.
  destruct (drop_underscores _ _) as [u|]; [|congruence].
  destruct (read_sign u) as [neg rest].
  destruct (read_decimal neg rest); [discriminate|].
  destruct (read_inf_nan neg rest); [discriminate|congruence].
Qed.

Lemma py_float_within (s : string) : py_float s <> Beyond.
Proof.
  unfold py_float.
  destruct (drop_underscores _ _) as [u|]; [|congruence].
  destruct (read_sign u) as [neg rest].
  destruct (read_decimal neg rest); [discriminate|].
  destruct (read_inf_nan neg rest); discriminate.
Qed.

Lemma strptime_raises (format : matcher datetime) (s : string) (e : exn) :
  strptime format s = Raise e -> e = ValueError.
Proof.
  unfold strptime.
  destruct (format s) as [|[dt [|c r]] l]; try congruence.
  destruct (valid_datetime dt); congruence.
Qed.

Lemma strptime_within (format : matcher datetime) (s : string) :
  strptime format s <> Beyond.
Proof.
  unfold strptime.
  destruct (format s) as [|[dt [|c r]] l]; try congruence.
  destruct (valid_datetime dt); congruence.
Qed.

(** [clean_float] always returns a number. *)
Lemma clean_float_returns (value : pyval) :
  exists x, clean_float value = Ok x.
Proof.
  unfold clean_float. destruct (none_or_empty value); [eauto|].
  destruct (py_float _) as [x|e|] eqn:H; cbn; [eauto| |].
  - apply py_float_raises in H. subst e. eauto.
  - now apply py_float_within in H.
Qed.

(** [clean_datetime] always returns a text or null. *)
Lemma clean_datetime_returns (P : platform) (value : pyval) :
  exists r, clean_datetime P value = Ok r.
Proof.
  unfold clean_datetime. destruct (none_or_empty value); [eauto|].
  destruct (strptime m_date_time _) as [dt|e|] eqn:H1; cbn; [eauto| |].
  - apply strptime_raises in H1. subst e. cbn.
    destruct (strptime m_date _) as [dt|e|] eqn:H2; cbn; [eauto| |].
    + apply strptime_raises in H2. subst e. eauto.
    + now apply strptime_within in H2.
  - now apply strptime_within in H1.
Qed.

(** [clean_integer] returns a number unless the text reads as an
    infinity, and then it raises [OverflowError]. *)
Lemma clean_integer_returns_or_overflows (value : pyval) :
  (exists n, clean_integer value = Ok n) \/
  (clean_integer value = Raise OverflowError /\
   exists neg, py_float (strip (str_of value)) = Ok (FInf neg)).
Proof.
  unfold clean_integer. destruct (none_or_empty value); [eauto|].
  destruct (py_float _) as [x|e|] eqn:H; cbn.
  - destruct x as [|neg|neg m ex]; cbn; eauto.
  - apply py_float_raises in H. subst e. eauto.
  - now apply py_float_within in H.
Qed.

End Raising.

(** C2 (the code departs from the claim): on the text "inf" (and on any
    text that [float()] reads as an infinity) [clean_integer] raises
    [OverflowError], which its [except (ValueError, TypeError)] does not
    catch; a file with such a cell makes [import_data] raise. *)
Theorem clean_integer_inf_raises :
  clean_integer (PStr "inf") = Raise OverflowError /\
  clean_integer (PStr "-Infinity") = Raise OverflowError /\
  clean_integer (PStr "1e999") = Raise OverflowError /\
  clean_integer (PStr "nan") = Ok 0 /\
  clean_integer (PStr "garbage") = Ok 0 /\
  forall P,
    import_data P create_database_schema
      (Some [["post_id"; "author_email"; "likes"];
             ["1"; "ann@example.com"; "inf"]]) = Raise OverflowError.
Proof.
  repeat match goal with |- _ /\ _ => split end;
    try intros P; vm_compute; reflexivity.
Qed.

(** ** [parse_tags] *)

Section ParseTags.

Lemma distinct_ext (seen seen' l : list string) :
  (forall x, In x seen <-> In x seen') ->
  distinct seen l = distinct seen' l.
Proof.
  revert seen seen'. induction l as [|x l IH]; intros seen seen' H.
  - reflexivity.
  - cbn [distinct].
    assert (Hx : str_in x seen = str_in x seen').
    { destruct (str_in x seen) eqn:E1, (str_in x seen') eqn:E2; trivial.
      - apply str_in_In, H, str_in_In in E1. congruence.
      - apply str_in_In, H, str_in_In in E2. congruence. }
    rewrite Hx. destruct (str_in x seen').
    + now apply IH.
    + f_equal. apply IH. intros y. cbn [In]. now rewrite H.
Qed.

(** The loop of [parse_tags], started on [cleaned], appends the tags that
    the declarative reading keeps. *)
Lemma fold_add_tag (items : list json) (cleaned : list string) :
  fold_left add_tag items cleaned =
  (cleaned ++
     distinct cleaned
       (filter nonempty (map (fun t => strip (py_str t)) items)))%list.
Proof.
  revert cleaned. induction items as [|t items IH]; intros cleaned.
  - cbn. now rewrite app_nil_r.
  - cbn [fold_left map]. rewrite IH. unfold add_tag.
    destruct (nonempty (strip (py_str t))) eqn:Hne.
    + rewrite filter_cons_True by (rewrite Hne; exact I).
      cbn [distinct andb].
      destruct (str_in (strip (py_str t)) cleaned) eqn:Hin; cbn [negb].
      * reflexivity.
      * rewrite <- app_assoc. cbn [app]. do 2 f_equal.
        apply distinct_ext. intros x. rewrite in_app_iff. cbn [In].
        tauto.
    + rewrite filter_cons_False by (rewrite Hne; exact id). reflexivity.
Qed.

Lemma fold_add_tag_NoDup (items : list json) (cleaned : list string) :
  NoDup cleaned -> NoDup (fold_left add_tag items cleaned).
Proof.
  revert cleaned. induction items as [|t items IH]; intros cleaned H.
  - exact H.
  - cbn [fold_left]. apply IH. unfold add_tag.
    destruct (nonempty _); cbn [andb]; [|exact H].
    destruct (str_in _ cleaned) eqn:Hin; cbn [negb]; [exact H|].
    apply NoDup_app. repeat split.
    + exact H.
    + intros x Hx Hx'. apply list_elem_of_In in Hx, Hx'.
      destruct Hx' as [E|[]]. subst x.
      apply str_in_false in Hin. contradiction.
    + apply NoDup_singleton.
Qed.

(** [parse_tags] never returns a tag twice. *)
Lemma parse_tags_NoDup (P : platform) (value : pyval) (tags : list string) :
  parse_tags P value = Ok tags -> NoDup tags.
Proof.
  unfold parse_tags. destruct (none_or_empty value).
  - intros [= <-]. constructor.
  - destruct (json_loads _ _) as [[| | | | |items|]|e|];
      try (intros [= <-]; constructor); try discriminate.
    + intros [= <-]. apply fold_add_tag_NoDup. constructor.
    + destruct e; try discriminate. intros [= <-]. constructor.
Qed.

Lemma scanstring_raises (s : string) (e : exn) :
  scanstring s = Raise e -> e = JSONDecodeError.
Proof.
  remember (String.length s) as n eqn:Hn. revert s Hn.
  induction n as [n IH] using lt_wf_ind. intros s Hn.
  assert (Hpush : forall c t, (String.length t < n)%nat ->
            push_char c (scanstring t) = Raise e -> e = JSONDecodeError).
  { intros c t Ht. unfold push_char.
    destruct (scanstring t) as [[u rest]|e'|] eqn:Hs; try discriminate.
    intros [= ->]. exact (IH _ Ht t eq_refl Hs). }
  destruct s as [|c r]; cbn [scanstring]; [congruence|].
  cbn [String.length] in Hn.
  destruct (Ascii.eqb c dquote); [discriminate|].
  destruct (Ascii.eqb c backslash).
  - destruct r as [|e1 r1]; [congruence|].
    assert (Hsimple : match simple_escape e1 with
                      | Some ch => push_char ch (scanstring r1)
                      | None => Raise JSONDecodeError
                      end = Raise e -> e = JSONDecodeError).
    { destruct (simple_escape e1); [|congruence].
      apply Hpush. cbn [String.length] in Hn. lia. }
    destruct e1 as [[] [] [] [] [] [] [] []]; try exact Hsimple.
    destruct r1 as [|h1 [|h2 [|h3 [|h4 r']]]]; try exact Hsimple.
    destruct (hex4 h1 h2 h3 h4) as [cp|]; [|congruence].
    destruct (Nat.ltb cp 256); [|discriminate].
    apply Hpush. cbn [String.length] in Hn. lia.
  - destruct (Nat.leb (code c) 31); [congruence|].
    apply Hpush. lia.
Qed.

Lemma scan_number_raises (s : string) (e : exn) :
  scan_number s = Raise e -> decoder_error e.
Proof.
  unfold scan_number, decoder_error.
  destruct (match s with String "-" r => (true, r) | _ => (false, s) end)
    as [neg r0].
  destruct (match r0 with
            | "" => None
            | String c r1 =>
                if Ascii.eqb c "0" then Some ("0", r1)
                else if is_digit c then Some (span_digits r0) else None
            end) as [[ip r1]|]; [|intros [= <-]; tauto].
  destruct (match r1 with
            | String "." r =>
                match span_digits r with
                | (String d ds, t) => (String d ds, t)
                | _ => ("", r1)
                end
            | _ => ("", r1)
            end) as [fp r2].
  match goal with
  | |- (let '(ex, r3) := ?X in _) = _ -> _ => destruct X as [ex r3]
  end.
  destruct fp; [destruct ex|]; try discriminate.
  destruct (Nat.ltb _ _); [intros [= <-]; tauto|discriminate].
Qed.

Lemma scan_raises (P : platform) (fuel : nat) :
  (forall depth s e, scan_once P fuel depth s = Raise e -> decoder_error e) /\
  (forall depth s acc e,
     parse_items P fuel depth s acc = Raise e -> decoder_error e) /\
  (forall depth s acc e,
     parse_members P fuel depth s acc = Raise e -> decoder_error e).
Proof.
  induction fuel as [|f [IH1 [IH2 IH3]]].
  - repeat split; intros; cbn in *; left; congruence.
  - repeat split.
    + intros depth s e. cbn [scan_once].
      destruct s as [|c r]; [intros [= <-]; now left|].
      destruct (Ascii.eqb c dquote).
      { destruct (scanstring r) as [[str rest]|e'|] eqn:Hs; try discriminate.
        intros [= <-]. left. now apply scanstring_raises in Hs. }
      destruct (Ascii.eqb c "{").
      { destruct (enter_container P depth); [|intros [= <-]; right; now right].
        destruct (skip_ws r) as [|c1 r1] eqn:Hw; [apply IH3|].
        destruct (Ascii.eqb c1 "}") eqn:Hc.
        - apply Ascii.eqb_eq in Hc. subst c1. discriminate.
        - intros H. apply (IH3 (S depth) (String c1 r1) [] e).
          destruct c1 as [[] [] [] [] [] [] [] []]; try exact H.
          discriminate Hc. }
      destruct (Ascii.eqb c "[").
      { destruct (enter_container P depth); [|intros [= <-]; right; now right].
        destruct (skip_ws r) as [|c1 r1] eqn:Hw; [apply IH2|].
        destruct (Ascii.eqb c1 "]") eqn:Hc.
        - apply Ascii.eqb_eq in Hc. subst c1. discriminate.
        - intros H. apply (IH2 (S depth) (String c1 r1) [] e).
          destruct c1 as [[] [] [] [] [] [] [] []]; try exact H.
          discriminate Hc. }
      repeat match goal with
             | |- (if ?b then _ else _) = _ -> _ =>
                 destruct b; [discriminate|]
             end.
      apply scan_number_raises.
    + intros depth s acc e. cbn [parse_items].
      destruct (scan_once P f depth s) as [[v r1]|e'|] eqn:Hs;
        try discriminate.
      * destruct (skip_ws r1) as [|c1 r2]; [intros [= <-]; now left|].
        destruct (Ascii.eqb c1 "]") eqn:Hc1.
        { apply Ascii.eqb_eq in Hc1. subst c1. discriminate. }
        destruct (Ascii.eqb c1 ",") eqn:Hc2.
        { apply Ascii.eqb_eq in Hc2. subst c1. apply IH2. }
        intros H. left.
        destruct c1 as [[] [] [] [] [] [] [] []];
          first [discriminate Hc1|discriminate Hc2|congruence].
      * intros [= <-]. now apply IH1 in Hs.
    + intros depth s acc e. cbn [parse_members].
      destruct s as [|c r]; [intros [= <-]; now left|].
      destruct (Ascii.eqb c dquote); [|intros [= <-]; now left].
      destruct (scanstring r) as [[key r1]|e'|] eqn:Hs; try discriminate.
      * destruct (skip_ws r1) as [|c1 r2]; [intros [= <-]; now left|].
        destruct (Ascii.eqb c1 ":") eqn:Hc.
        2:{ intros H. left.
            destruct c1 as [[] [] [] [] [] [] [] []];
              first [discriminate Hc|congruence]. }
        apply Ascii.eqb_eq in Hc. subst c1.
        destruct (scan_once P f depth (skip_ws r2)) as [[v r3]|e'|] eqn:Hv;
          try discriminate.
        -- destruct (skip_ws r3) as [|c3 r4]; [intros [= <-]; now left|].
           destruct (Ascii.eqb c3 "}") eqn:Hc1.
           { apply Ascii.eqb_eq in Hc1. subst c3. discriminate. }
           destruct (Ascii.eqb c3 ",") eqn:Hc2.
           { apply Ascii.eqb_eq in Hc2. subst c3. apply IH3. }
           intros H. left.
           destruct c3 as [[] [] [] [] [] [] [] []];
             first [discriminate Hc1|discriminate Hc2|congruence].
        -- intros [= <-]. now apply IH1 in Hv.
      * intros [= <-]. left. now apply scanstring_raises in Hs.
Qed.

Lemma json_loads_raises (P : platform) (s : string) (e : exn) :
  json_loads P s = Raise e -> decoder_error e.
Proof.
  unfold json_loads.
  destruct (scan_once P _ 0 (skip_ws s)) as [[v rest]|e'|] eqn:Hs;
    try discriminate.
  - destruct (skip_ws rest); [discriminate|]. intros [= <-]. now left.
  - intros [= <-]. exact (proj1 (scan_raises P _) _ _ _ Hs).
Qed.

(** What [parse_tags] raises is what the decoder raises and the handler
    does not catch. *)
Lemma parse_tags_raises (P : platform) (value : pyval) (e : exn) :
  parse_tags P value = Raise e -> e = ValueError \/ e = RecursionError.
Proof.
  unfold parse_tags. destruct (none_or_empty value); [discriminate|].
  destruct (json_loads P _) as [[| | | | |items|]|e'|] eqn:Hj;
    try discriminate.
  intros H. apply json_loads_raises in Hj.
  destruct Hj as [-> | [-> | ->]]; [discriminate| |]; injection H as <-; tauto.
Qed.

End ParseTags.

(** C10: when the JSON parse succeeds without giving an array,
    [parse_tags] returns the empty list, as it does when the text is not
    JSON and the parse fails with JSONDecodeError; the elements of an
    array are coerced to strings and trimmed, the empty ones are dropped,
    and then the later duplicates.  A parse that fails otherwise, on an
    integer literal of more than 4300 digits with ValueError or on arrays
    and objects nested too deep with RecursionError, fails [parse_tags]
    with it. *)
Theorem parse_tags_shape (P : platform) (s : string) :
  (forall v, json_loads P s = Ok v -> (forall items, v <> JList items) ->
     parse_tags P (PStr s) = Ok []) /\
  (json_loads P s = Raise JSONDecodeError -> parse_tags P (PStr s) = Ok []) /\
  (forall items, json_loads P s = Ok (JList items) ->
     parse_tags P (PStr s) = Ok (tags_as_specified items)) /\
  (forall e, json_loads P s = Raise e -> e <> JSONDecodeError ->
     parse_tags P (PStr s) = Raise e /\
     (e = ValueError \/ e = RecursionError)).
Proof.
  unfold parse_tags. destruct s as [|c r]; cbn [none_or_empty str_of].
  - repeat split; intros; try reflexivity; try discriminate;
      match goal with
      | H : json_loads P "" = Raise _ |- _ =>
          vm_compute in H; injection H as <-; contradiction
      end.
  - split; [|split; [|split]].
    + intros v Hv Hl. rewrite Hv. destruct v; try reflexivity.
      now destruct (Hl items).
    + intros ->. reflexivity.
    + intros items ->. now rewrite fold_add_tag.
    + intros e He Hne. rewrite He.
      destruct (json_loads_raises P _ e He) as [-> | [-> | ->]];
        [contradiction| |]; (split; [reflexivity|tauto]).
Qed.

Lemma parse_tags_shape_witness :
  parse_tags cpython_linux (PStr (dq "{'tag': '#a'}")) = Ok [] /\
  parse_tags cpython_linux (PStr "#a, #b") = Ok [] /\
  parse_tags cpython_linux (PStr (dq "[' #a ', 7, '', '#a', '7', null]"))
  = Ok ["#a"; "7"; "None"] /\
  parse_tags cpython_linux (PStr (repeat_char "1" 4301)) = Raise ValueError.
Proof.
  split; [|split; [|split]].
  - apply (proj1 (parse_tags_shape cpython_linux (dq "{'tag': '#a'}"))
             (JDict [("tag", JStr "#a")]) eq_refl).
    intros items H. discriminate H.
  - apply (proj1 (proj2 (parse_tags_shape cpython_linux "#a, #b")) eq_refl).
  - apply (proj1 (proj2 (proj2 (parse_tags_shape cpython_linux
                   (dq "[' #a ', 7, '', '#a', '7', null]"))))
             [JStr " #a "; JInt 7; JStr ""; JStr "#a"; JStr "7"; JNull]
             eq_refl).
  - apply (proj2 (proj2 (proj2 (parse_tags_shape cpython_linux
                   (repeat_char "1" 4301)))) ValueError).
    + vm_compute. reflexivity.
    + discriminate.
Defined.

(* ===================================================================== *)
(** * The store                                                           *)
(* ===================================================================== *)

Section StoreFacts.

#[local] Abbreviation tag_key := (fun t : post_tag => (t_post_id t, t_tag t)).

Lemma elem_of_map {A B} (f : A -> B) (l : list A) (y : B) :
  y ∈ map f l <-> exists x, y = f x /\ x ∈ l.
Proof.
  rewrite list_elem_of_In, in_map_iff. split.
  - intros [x [<- Hx]]. exists x. now rewrite list_elem_of_In.
  - intros [x [-> Hx]]. exists x. now rewrite <- list_elem_of_In.
Qed.

Lemma NoDup_map_filter {A B} (f : A -> B) (P : A -> Prop)
    `{forall x, Decision (P x)} (l : list A) :
  NoDup (map f l) -> NoDup (map f (filter P l)).
Proof.
  induction l as [|x l IH]; cbn [map]; intros Hn; [constructor|].
  apply NoDup_cons in Hn as [Hx Hl].
  rewrite filter_cons. case_decide; [|now apply IH].
  cbn [map]. apply NoDup_cons. split; [|now apply IH].
  intros Hin. apply Hx. apply elem_of_map in Hin as [y [Hy Hin]].
  apply list_elem_of_filter in Hin as [_ Hin].
  apply elem_of_map. now exists y.
Qed.



Lemma select_author_id_None (d : db) (email : string) :
  select_author_id d email = None <-> email ∉ map a_email (authors d).
Proof.
  unfold select_author_id. rewrite elem_of_map.
  destruct (filter _ (authors d)) as [|a l] eqn:Hf; split; try discriminate.
  - intros _ [a [-> Ha]].
    assert (Hin : a ∈ filter (fun a0 => String.eqb (a_email a0) (a_email a))
                    (authors d)).
    { apply list_elem_of_filter. split; [|assumption].
      rewrite String.eqb_refl. exact I. }
    rewrite Hf in Hin. inversion Hin.
  - reflexivity.
  - intros Hno. exfalso. apply Hno. exists a.
    assert (Hin : a ∈ filter (fun a0 => String.eqb (a_email a0) email)
                    (authors d)) by (rewrite Hf; left).
    apply list_elem_of_filter in Hin as [He Hin].
    apply Is_true_true, String.eqb_eq in He. now split.
Qed.

(** *** The author table *)

Lemma insert_or_ignore_author_unique d fn ln e c j b f v :
  authors_unique d ->
  authors_unique (insert_or_ignore_author d fn ln e c j b f v).
Proof.
  unfold authors_unique, insert_or_ignore_author. cbn [authors].
  intros Hu. destruct fn as [fn|], ln as [ln|]; try exact Hu.
  destruct (select_author_id d e) eqn:Hs; [exact Hu|].
  rewrite map_app. apply NoDup_app. repeat split.
  - exact Hu.
  - intros x Hx Hx'. cbn in Hx'. apply list_elem_of_In in Hx'.
    destruct Hx' as [<-|[]]. apply select_author_id_None in Hs.
    contradiction.
  - apply NoDup_singleton.
Qed.

Lemma insert_or_ignore_author_rest d fn ln e c j b f v :
  posts (insert_or_ignore_author d fn ln e c j b f v) = posts d /\
  post_tags (insert_or_ignore_author d fn ln e c j b f v) = post_tags d.
Proof. split; reflexivity. Qed.

Lemma insert_or_get_author_spec d cache email fn ln c j b f v d1 cache1 cr :
  insert_or_get_author d cache email fn ln c j b f v = Ok (d1, cache1, cr) ->
  (authors_unique d -> authors_unique d1) /\
  posts d1 = posts d /\ post_tags d1 = post_tags d.
Proof.
  unfold insert_or_get_author, bind_int, bind. intros H.
  destruct email as [e|]; [|injection H as <- _ _; auto].
  destruct (nonempty e && _); [|injection H as <- _ _; auto].
  destruct (sqlite_intb f); [|discriminate].
  assert (Hd : d1 = insert_or_ignore_author d fn ln e c j b f v).
  { destruct (select_author_id _ e); now injection H as <- _ _. }
  subst d1. split; [apply insert_or_ignore_author_unique|].
  apply insert_or_ignore_author_rest.
Qed.


(** *** The post table *)



(** The one row with the id of [p] is [p] itself: the fields are the new
    ones. *)
Lemma insert_or_replace_post_row d p :
  filter (fun q => p_id q =? p_id p) (posts (insert_or_replace_post d p))
  = [p].
Proof.
  unfold insert_or_replace_post. cbn [posts]. rewrite filter_app.
  rewrite filter_cons_True by (rewrite Z.eqb_refl; exact I).
  rewrite filter_nil.
  assert (Hnil : forall l, filter (fun q => p_id q =? p_id p)
                       (filter (fun q => negb (p_id q =? p_id p)) l) = []).
  { induction l as [|q l IH]; [reflexivity|].
    rewrite (filter_cons (fun q => negb (p_id q =? p_id p))).
    destruct (p_id q =? p_id p) eqn:He; case_decide as Hd; cbn in Hd;
      try contradiction; try (exfalso; now apply Hd).
    - exact IH.
    - rewrite filter_cons_False by (rewrite He; exact id). exact IH. }
  now rewrite Hnil.
Qed.

(** *** The tag table *)

Lemma insert_post_tag_keys d pid tag :
  authors (insert_post_tag d pid tag) = authors d /\
  posts (insert_post_tag d pid tag) = posts d /\
  map tag_key (post_tags (insert_post_tag d pid tag)) =
    (map tag_key (post_tags d) ++ [(pid, tag)])%list.
Proof.
  unfold insert_post_tag. cbn [authors posts post_tags].
  now rewrite map_app.
Qed.

(** The loop of the handlers: every tag of the request goes in. *)
Lemma insert_all_tags_keys pid tags d :
  let d' := fold_left (fun d t => insert_post_tag d pid t) tags d in
  authors d' = authors d /\ posts d' = posts d /\
  map tag_key (post_tags d') =
    (map tag_key (post_tags d) ++ map (pair pid) tags)%list.
Proof.
  revert d. induction tags as [|t tags IH]; intros d; cbn [fold_left map].
  - now rewrite app_nil_r.
  - destruct (IH (insert_post_tag d pid t)) as [Ha [Hp Hk]].
    destruct (insert_post_tag_keys d pid t) as [Ha' [Hp' Hk']].
    cbn zeta. rewrite Ha, Hp, Hk, Ha', Hp', Hk', <- app_assoc.
    repeat split.
Qed.

(** The loop of the importer on tags that are pairwise distinct and not
    yet seen: every tag goes in and none is counted as a duplicate. *)
Lemma insert_tags_fresh pid tags st :
  NoDup tags -> (forall t, t ∈ tags -> t ∉ tl_seen st) ->
  let r := fold_left (tag_step pid) tags st in
  tl_duplicates r = tl_duplicates st /\
  tl_created r = (tl_created st + length tags)%nat /\
  authors (tl_db r) = authors (tl_db st) /\
  posts (tl_db r) = posts (tl_db st) /\
  map tag_key (post_tags (tl_db r)) =
    (map tag_key (post_tags (tl_db st)) ++ map (pair pid) tags)%list.
Proof.
  revert st. induction tags as [|t tags IH]; intros st Hn Hs;
    cbn [fold_left map length].
  - rewrite app_nil_r, Nat.add_0_r. repeat split.
  - apply NoDup_cons in Hn as [Ht Hn].
    assert (Hstep : tag_step pid st t =
              mk_tag_loop (insert_post_tag (tl_db st) pid t)
                ({[t]} ∪ tl_seen st) (S (tl_created st)) (tl_duplicates st)).
    { unfold tag_step. rewrite bool_decide_eq_false_2; [reflexivity|].
      apply Hs. left. }
    rewrite Hstep.
    edestruct (IH (mk_tag_loop (insert_post_tag (tl_db st) pid t)
                     ({[t]} ∪ tl_seen st) (S (tl_created st))
                     (tl_duplicates st)))
      as [Hd [Hc [Ha [Hp Hk]]]]; [exact Hn| |].
    + intros x Hx. cbn [tl_seen]. intros Hin.
      apply elem_of_union in Hin as [Hin|Hin].
      * apply elem_of_singleton in Hin. subst x. contradiction.
      * apply (Hs x); [now right|assumption].
    + cbn zeta. rewrite Hd, Hc, Ha, Hp, Hk. cbn [tl_duplicates tl_created tl_db].
      destruct (insert_post_tag_keys (tl_db st) pid t) as [Ha' [Hp' Hk']].
      rewrite Ha', Hp', Hk', <- app_assoc. repeat split. lia.
Qed.

Lemma insert_tags_parsed P d pid value tags :
  parse_tags P value = Ok tags ->
  let r := insert_tags d pid tags in
  tl_duplicates r = 0%nat /\
  tl_created r = length tags /\
  authors (tl_db r) = authors d /\
  posts (tl_db r) = posts d /\
  map tag_key (post_tags (tl_db r)) =
    (map tag_key (post_tags d) ++ map (pair pid) tags)%list.
Proof.
  intros Htags. unfold insert_tags.
  apply (insert_tags_fresh pid tags (mk_tag_loop d ∅ 0 0)).
  - exact (parse_tags_NoDup P value tags Htags).
  - intros t _. cbn. apply not_elem_of_empty.
Qed.

End StoreFacts.

(** The cells of a row are cleaned one after the other; a row that is
    imported has passed every one of them. *)
Ltac import_steps H :=
  repeat
    match type of H with
    | bind (insert_or_get_author _ _ _ _ _ _ _ _ _ _) _ = _ => fail 1
    | bind ?c _ = Ok _ =>
        let E := fresh "Hcell" in
        destruct c eqn:E; [cbn [bind] in H|discriminate H|discriminate H]
    end.

Section ImportFacts.

Context (P : platform).

#[local] Abbreviation tag_key := (fun t : post_tag => (t_post_id t, t_tag t)).



(** What a row that is imported does to the store: the author table may
    gain the author of the row; then, unless the row is skipped, the post
    replaces the one of the same id and the tags parsed from the row are
    added for that id. *)
Lemma import_row_spec (st st' : import_state)
    (row : gmap string (option string)) :
  import_row P st row = Ok st' ->
  duplicate_tags (issues (im_stats st')) =
    duplicate_tags (issues (im_stats st)) /\
  exists d1,
    (authors_unique (im_db st) -> authors_unique d1) /\
    posts d1 = posts (im_db st) /\
    post_tags d1 = post_tags (im_db st) /\
    (im_db st' = d1 \/
     exists p tags,
       clean_integer (row_get row "post_id" (PInt 0)) = Ok (p_id p) /\
       parse_tags P (row_get row "post_tags" (PStr "")) = Ok tags /\
       authors (im_db st') = authors d1 /\
       posts (im_db st') = posts (insert_or_replace_post d1 p) /\
       map tag_key (post_tags (im_db st')) =
         (map tag_key (post_tags d1) ++ map (pair (p_id p)) tags)%list).
Proof.
  unfold import_row. intros H. import_steps H.
  match type of H with
  | context [insert_or_get_author ?a ?b ?c ?d ?e ?f ?g ?h ?i ?j] =>
      destruct (insert_or_get_author a b c d e f g h i j)
        as [[[d1 cache1] created]| |] eqn:Hauthor; try discriminate H
  end.
  cbn [bind] in H.
  apply insert_or_get_author_spec in Hauthor as [Hau [Hposts Htags]].
  destruct (cache_get cache1 _) as [author_id|].
  - destruct (bind_ints _); try discriminate H. cbn [bind] in H.
    injection H as <-. cbn [im_db im_stats issues duplicate_tags].
    match goal with
    | Ht : parse_tags P ?v = Ok ?tags |- context [insert_tags ?d ?i ?tags] =>
        destruct (insert_tags_parsed P d i v tags Ht)
          as [Hdup [_ [Ha [Hp Hk]]]]
    end.
    cbn zeta in *. rewrite Hdup. split; [lia|].
    exists d1. repeat split; try assumption. right.
    eexists. eexists. repeat apply conj; cycle 3;
      [exact Hp|exact Hk|reflexivity|reflexivity|exact Ha].
  - injection H as <-. cbn [im_db im_stats issues duplicate_tags].
    split; [reflexivity|]. exists d1. repeat split; try assumption. now left.
Qed.

(** The importer never counts a duplicate tag: [parse_tags] has removed
    the duplicates before the loop that would count them. *)
Lemma import_rows_duplicate_tags (rows : list (gmap string (option string)))
    (st st' : import_state) :
  import_rows P st rows = Ok st' ->
  duplicate_tags (issues (im_stats st')) =
    duplicate_tags (issues (im_stats st)).
Proof.
  revert st. induction rows as [|row rows IH]; intros st; cbn [import_rows].
  - now intros [= <-].
  - unfold bind. destruct (import_row P st row) as [st1| |] eqn:Hrow;
      try discriminate.
    intros H. apply IH in H. apply import_row_spec in Hrow as [Hd _].
    congruence.
Qed.

Lemma import_data_duplicate_tags (d d' : db) file (s : stats) :
  import_data P d file = Ok (d', s) -> duplicate_tags (issues s) = 0%nat.
Proof.
  unfold import_data, bind. destruct file as [lines|]; [|discriminate].
  destruct (import_rows _ _ _) as [st| |] eqn:H; try discriminate.
  intros [= _ <-]. now apply import_rows_duplicate_tags in H.
Qed.




End ImportFacts.

(* ===================================================================== *)
(** * The handlers                                                        *)
(* ===================================================================== *)

Section ListFacts.

Context {A : Type} (P Q : A -> Prop) `{!forall x, Decision (P x)}
  `{!forall x, Decision (Q x)}.

Lemma filter_filter_keep (l : list A) :
  (forall x, P x -> Q x) -> filter P (filter Q l) = filter P l.
Proof.
  intros HPQ. induction l as [|x l IH]; [reflexivity|].
  rewrite (filter_cons Q), (filter_cons P x l).
  destruct (decide (Q x)) as [q|q], (decide (P x)) as [p|p].
  - rewrite filter_cons_True by assumption. now rewrite IH.
  - rewrite filter_cons_False by assumption. exact IH.
  - exfalso. auto.
  - exact IH.
Qed.

Lemma filter_filter_none (l : list A) :
  (forall x, P x -> Q x -> False) -> filter P (filter Q l) = [].
Proof.
  intros HPQ. induction l as [|x l IH]; [reflexivity|].
  rewrite (filter_cons Q). destruct (decide (Q x)) as [q|q]; [|exact IH].
  rewrite filter_cons_False by (intros p; exact (HPQ x p q)). exact IH.
Qed.

Lemma filter_none (l : list A) :
  (forall x, In x l -> ~ P x) -> filter P l = [].
Proof.
  induction l as [|x l IH]; intros Hno; [reflexivity|].
  rewrite filter_cons_False by (apply Hno; now left).
  apply IH. intros y Hy. apply Hno. now right.
Qed.

Lemma filter_all (l : list A) :
  (forall x, In x l -> P x) -> filter P l = l.
Proof.
  induction l as [|x l IH]; intros Hall; [reflexivity|].
  rewrite filter_cons_True by (apply Hall; now left).
  f_equal. apply IH. intros y Hy. apply Hall. now right.
Qed.

End ListFacts.

(** Case analysis on an innermost scrutinee of the goal. *)
Ltac case_scrutinee :=
  match goal with
  | |- context [match ?x with _ => _ end] =>
      lazymatch x with
      | context [match _ with _ => _ end] => fail
      | _ => destruct x eqn:?
      end
  end.

(** One step of a handler whose next statement is known. *)
Ltac hstep :=
  unfold h_bind at 1;
  cbn [h_lift h_ret get_db_connection conn_close conn_commit sql_query
       sql_select sql_execute serving hs_file hs_view hs_open].

Ltac hstep_in H :=
  unfold h_bind at 1 in H;
  cbn [h_lift h_ret get_db_connection conn_close conn_commit sql_query
       sql_select sql_execute serving hs_file hs_view hs_open] in H.

Section HandlerFacts.

Context (E : engine).

#[local] Abbreviation tag_key := (fun t : post_tag => (t_post_id t, t_tag t)).

(** The loop [for tag in tags: cursor.execute('INSERT INTO post_tags ...')]
    on a store that has its tables: it ends well when every tag can be
    stored, and then every tag is in; it never touches the file. *)
Lemma h_for_request_tags (pid : Z) (tags : list json) (f : option db)
    (d : db) (n : nat) :
  exists v,
    h_for tags (fun tag => sql_execute (insert_request_tag E pid tag))
      (mk_hstate f (Some d) n)
    = (match tag_texts E tags with
       | Ok _ => Ok tt
       | Raise e => Raise e
       | Beyond => Beyond
       end, mk_hstate f v n) /\
    forall texts,
      tag_texts E tags = Ok texts ->
      v = Some (fold_left (fun d t => insert_post_tag d pid t) texts d).
Proof.
  revert d. induction tags as [|tag tags IH]; intros d.
  - exists (Some d). split; [reflexivity|]. now intros texts [= <-].
  - cbn [h_for tag_texts]. unfold h_bind at 1, sql_execute at 1.
    cbn [hs_view]. unfold insert_request_tag at 1.
    destruct (bind_text E tag) as [[s|]|e|]; cbn [bind].
    + destruct (IH (insert_post_tag d pid s)) as [v [Hv Htexts]].
      exists v. cbn [hs_file hs_open]. rewrite Hv.
      destruct (tag_texts E tags) as [texts|e|]; cbn [bind];
        (split; [reflexivity|]); try discriminate.
      intros texts' [= <-]. cbn [fold_left]. now apply Htexts.
    + exists (Some d). split; [reflexivity|discriminate].
    + exists (Some d). split; [reflexivity|discriminate].
    + exists (Some d). split; [reflexivity|discriminate].
Qed.

(** What [create_post] leaves in the database file: the file as it was,
    or, when the answer is 201, the file with the new post of a stored
    author and the tags of the request as they are bound. *)
Lemma create_post_file (now : string) (data : json) (d : db)
    (r : response) (h' : hstate) :
  create_post E now data (serving (Some d)) = (r, h') ->
  hs_file h' = Some d \/
  exists p e tags items texts,
    r = mk_response 201 (BCreated "Post created successfully" (p_id p)) /\
    p_id p = or_zero (select_max_id d) + 1 /\
    has_post d (p_id p) = false /\
    select_author_id d e = Some (p_author_id p) /\
    json_get data "tags" (JList []) = Ok tags /\
    json_iter tags = Ok items /\
    tag_texts E items = Ok texts /\
    hs_file h' =
      Some (fold_left (fun d t => insert_post_tag d (p_id p) t) texts
              (mk_db (authors d) (authors_seq d) (posts d ++ [p])%list
                 (post_tags d) (post_tags_seq d))).
Proof.
  unfold create_post, try_except.
  destruct (json_get data "authorEmail" JNull) as [email|e|]; hstep;
    [|intros [= _ <-]; now left..].
  destruct (truthy email); cbn [negb h_ret]; [|intros [= _ <-]; now left].
  destruct (json_get data "content" JNull) as [content|e|]; hstep;
    [|intros [= _ <-]; now left..].
  destruct (truthy content); cbn [negb h_ret]; [|intros [= _ <-]; now left].
  hstep. hstep. unfold select_author_by at 1.
  destruct (bind_text E email) as [[e|]|e|]; cbn [bind];
    [|hstep; intros [= _ <-]; now left|intros [= _ <-]; now left..].
  destruct (select_author_id d e) as [author_id|] eqn:Hauthor;
    [|hstep; intros [= _ <-]; now left].
  hstep.
  destruct (json_get data "imageSvg" (JStr "")) as [image_svg|e'|]; hstep;
    [|intros [= _ <-]; now left..].
  destruct (json_get data "category" (JStr "")) as [category|e'|]; hstep;
    [|intros [= _ <-]; now left..].
  destruct (json_get data "location" (JStr "")) as [location|e'|]; hstep;
    [|intros [= _ <-]; now left..].
  unfold h_bind at 1, sql_execute at 1. cbn [hs_view].
  destruct (insert_request_post E _ _ _ _ _ _ _ d) as [d1|e'|] eqn:Hpost;
    [|intros [= _ <-]; now left..].
  cbn [hs_file hs_open].
  destruct (json_get data "tags" (JList [])) as [tags|e'|] eqn:Htags; hstep;
    [|intros [= _ <-]; now left..].
  destruct (json_iter tags) as [items|e'|] eqn:Hitems; hstep;
    [|intros [= _ <-]; now left..].
  unfold h_bind at 1.
  destruct (h_for_request_tags (or_zero (select_max_id d) + 1) items
              (Some d) d1 1) as [v [-> Htexts]].
  destruct (tag_texts E items) as [texts|e'|] eqn:Htt;
    [|intros [= _ <-]; now left..].
  rewrite (Htexts texts eq_refl). hstep. hstep.
  intros [= <- <-]. right. cbn [hs_file].
  unfold insert_request_post, bind_int, bind in Hpost.
  destruct (sqlite_intb _); [|discriminate Hpost].
  destruct (bind_text E content) as [text| |]; try discriminate Hpost.
  destruct (bind_text E image_svg) as [image| |]; try discriminate Hpost.
  destruct (bind_text E category) as [cat| |]; try discriminate Hpost.
  destruct (bind_text E location) as [loc| |]; try discriminate Hpost.
  unfold insert_post in Hpost. cbn [p_id] in Hpost.
  destruct (has_post d _) eqn:Hhas; [discriminate Hpost|].
  injection Hpost as <-.
  eexists (mk_post _ _ _ _ _ _ _ _ _ _ _ _), e, tags, items, texts.
  cbn [p_id p_author_id]. repeat split; try assumption; reflexivity.
Qed.

(** What [update_post] leaves in the database file: the file as it was,
    or, when the answer is 200, the file with the columns of the post set
    as the request asks and, when the request has tags, the tag rows of the
    post replaced by its tags as they are bound. *)
Lemma update_post_file (post_id : Z) (data : json) (d : db)
    (r : response) (h' : hstate) :
  update_post E post_id data (serving (Some d)) = (r, h') ->
  hs_file h' = Some d \/
  exists values d0,
    r = mk_response 200 (BMessage "Post updated successfully") /\
    sqlite_intb post_id = true /\
    has_post d post_id = true /\
    request_update_values E data = Ok values /\
    (d0 = d /\ values = no_update \/ d0 = update_post_row d post_id values) /\
    (json_in "tags" data = Ok false /\ hs_file h' = Some d0 \/
     exists tags items texts,
       json_in "tags" data = Ok true /\
       json_item data "tags" = Ok tags /\
       json_iter tags = Ok items /\
       tag_texts E items = Ok texts /\
       hs_file h' =
         Some (fold_left (fun d t => insert_post_tag d post_id t) texts
                 (delete_post_tags d0 post_id))).
Proof.
  unfold update_post, try_except. hstep. hstep. unfold bind_int at 1.
  destruct (sqlite_intb post_id) eqn:Hrange; cbn [bind];
    [|intros [= _ <-]; now left].
  destruct (has_post d post_id) eqn:Hhas; cbn [negb];
    [|hstep; intros [= _ <-]; now left].
  unfold request_update_values.
  destruct (update_param data "content") as [content|e|]; hstep;
    [|intros [= _ <-]; now left..].
  destruct (update_param data "category") as [category|e|]; hstep;
    [|intros [= _ <-]; now left..].
  destruct (update_param data "location") as [location|e|]; hstep;
    [|intros [= _ <-]; now left..].
  destruct (update_param data "imageSvg") as [image_svg|e|]; hstep;
    [|intros [= _ <-]; now left..].
  cbn [bind].
  assert (Htags : forall d0 (res : pyresult response),
    ((let! has_tags := h_lift (json_in "tags" data) in
      let! _ :=
        if has_tags then
          let! _ := sql_execute (fun d => Ok (delete_post_tags d post_id)) in
          let! tags := h_lift (json_item data "tags") in
          let! tags := h_lift (json_iter tags) in
          h_for tags (fun tag => sql_execute (insert_request_tag E post_id tag))
        else h_ret tt in
      let! _ := conn_commit in
      let! _ := conn_close in
      h_ret (mk_response 200 (BMessage "Post updated successfully")))
       (mk_hstate (Some d) (Some d0) 1)) = (res, h') ->
    hs_file h' = Some d /\ (forall r0, res <> Ok r0) \/
    res = Ok (mk_response 200 (BMessage "Post updated successfully")) /\
    (json_in "tags" data = Ok false /\ hs_file h' = Some d0 \/
     exists tags items texts,
       json_in "tags" data = Ok true /\
       json_item data "tags" = Ok tags /\
       json_iter tags = Ok items /\
       tag_texts E items = Ok texts /\
       hs_file h' =
         Some (fold_left (fun d t => insert_post_tag d post_id t) texts
                 (delete_post_tags d0 post_id)))).
  { intros d0 res.
    destruct (json_in "tags" data) as [[|]|e|]; hstep;
      [| |intros [= <- <-]; left; split; [reflexivity|discriminate]..].
    - hstep. hstep.
      destruct (json_item data "tags") as [tags|e|]; hstep;
        [|intros [= <- <-]; left; split; [reflexivity|discriminate]..].
      destruct (json_iter tags) as [items|e|] eqn:Hitems; hstep;
        [|intros [= <- <-]; left; split; [reflexivity|discriminate]..].
      destruct (h_for_request_tags post_id items (Some d)
                  (delete_post_tags d0 post_id) 1) as [v [-> Htexts]].
      destruct (tag_texts E items) as [texts|e|] eqn:Htt;
        [|intros [= <- <-]; left; split; [reflexivity|discriminate]..].
      rewrite (Htexts texts eq_refl). hstep. hstep.
      intros [= <- <-]. right. split; [reflexivity|]. right.
      exists tags, items, texts. repeat split; try reflexivity; assumption.
    - hstep. hstep. hstep. intros [= <- <-]. right.
      split; [reflexivity|]. left. split; reflexivity. }
  destruct (is_some content || is_some category || is_some location
            || is_some image_svg) eqn:Hany.
  - unfold h_bind at 1, sql_execute at 1. cbn [hs_view].
    unfold update_request_post at 1.
    destruct (bind_update E content) as [c1|e|]; cbn [bind];
      [|intros [= _ <-]; now left..].
    destruct (bind_update E category) as [c2|e|]; cbn [bind];
      [|intros [= _ <-]; now left..].
    destruct (bind_update E location) as [c3|e|]; cbn [bind];
      [|intros [= _ <-]; now left..].
    destruct (bind_update E image_svg) as [c4|e|]; cbn [bind];
      [|intros [= _ <-]; now left..].
    cbn [hs_file hs_open].
    match goal with
    | |- match ?run with _ => _ end = _ -> _ =>
        destruct run as [res h0] eqn:Hrun
    end.
    intros Hres.
    assert (h0 = h') as -> by (destruct res; now injection Hres).
    destruct (Htags _ _ Hrun)
      as [[Hfile _]|[-> Hcase]]; [now left|].
    injection Hres as <-. right.
    exists (mk_update_values c1 c2 c3 c4). eexists.
    repeat split; [now right|exact Hcase].
  - hstep.
    match goal with
    | |- match ?run with _ => _ end = _ -> _ =>
        destruct run as [res h0] eqn:Hrun
    end.
    intros Hres.
    assert (h0 = h') as -> by (destruct res; now injection Hres).
    destruct (Htags _ _ Hrun) as [[Hfile _]|[-> Hcase]];
      [now left|].
    injection Hres as <-. right.
    destruct content, category, location, image_svg; try discriminate Hany.
    cbn [bind_update bind].
    exists no_update, d. repeat split; [now left|exact Hcase].
Qed.

(** What [delete_post] leaves in the database file. *)
Lemma delete_post_file (post_id : Z) (d : db) (r : response) (h' : hstate) :
  delete_post post_id (serving (Some d)) = (r, h') ->
  hs_file h' = Some d \/
  r = mk_response 200 (BMessage "Post deleted successfully") /\
  sqlite_intb post_id = true /\ has_post d post_id = true /\
  hs_file h' = Some (delete_post_row (delete_post_tags d post_id) post_id).
Proof.
  unfold delete_post, try_except. hstep. hstep. unfold bind_int at 1.
  destruct (sqlite_intb post_id); cbn [bind]; [|intros [= _ <-]; now left].
  destruct (has_post d post_id); cbn; intros [= <- <-]; [now right|now left].
Qed.

(** The handlers of GET requests leave the database file as it is. *)
Lemma get_handlers_file (h : hstate) :
  hs_file (get_stats h).2 = hs_file h /\
  hs_file (get_categories h).2 = hs_file h /\
  hs_file (get_authors E h).2 = hs_file h /\
  (forall post_id, hs_file (get_post post_id h).2 = hs_file h) /\
  (forall args, hs_file (get_posts E args h).2 = hs_file h).
Proof.
  destruct h as [f v n].
  repeat apply conj; intros;
    unfold get_stats, get_categories, get_authors, get_post, get_posts,
      try_except, h_bind, get_db_connection, sql_select, sql_query,
      conn_close, h_ret, h_lift, floordiv;
    cbn [hs_file hs_view hs_open];
    repeat case_scrutinee; reflexivity.
Qed.

(** *** The invariants under the operations of the handlers *)




(** Tag rows replaced for one post: the rows of the other posts stay and
    the new ones follow. *)
Lemma replaced_tags_keys (d : db) (post_id : Z) (tags : list string) :
  map tag_key
    (post_tags (fold_left (fun d t => insert_post_tag d post_id t) tags
                  (delete_post_tags d post_id))) =
  (map tag_key (filter (fun t => negb (t_post_id t =? post_id)) (post_tags d))
   ++ map (pair post_id) tags)%list.
Proof.
  destruct (insert_all_tags_keys post_id tags (delete_post_tags d post_id))
    as [_ [_ Hk]].
  exact Hk.
Qed.



(** [select_tags] by the (post id, tag) pairs of the table. *)
Lemma select_tags_keys (d : db) (post_id : Z) :
  select_tags d post_id
  = map snd (filter (fun k : Z * string => fst k =? post_id)
               (map tag_key (post_tags d))).
Proof.
  unfold select_tags. induction (post_tags d) as [|t l IH]; [reflexivity|].
  cbn [map]. destruct (t_post_id t =? post_id) eqn:Hid.
  - rewrite !filter_cons_True by (cbn; rewrite Hid; exact I).
    cbn [map snd]. now rewrite IH.
  - rewrite !filter_cons_False by (cbn; rewrite Hid; exact id). exact IH.
Qed.

Lemma filter_pairs_same (post_id : Z) (tags : list string) :
  map snd (filter (fun k : Z * string => fst k =? post_id)
             (map (pair post_id) tags)) = tags.
Proof.
  rewrite filter_all.
  - rewrite map_map. cbn. apply map_id.
  - intros k Hk. apply in_map_iff in Hk as [t [<- _]]. cbn.
    rewrite Z.eqb_refl. exact I.
Qed.

Lemma filter_pairs_other (post_id other : Z) (tags : list string) :
  other <> post_id ->
  filter (fun k : Z * string => fst k =? other) (map (pair post_id) tags)
  = [].
Proof.
  intros Hne. apply filter_none. intros k Hk Hid.
  apply in_map_iff in Hk as [t [<- _]]. cbn in Hid.
  apply Is_true_true, Z.eqb_eq in Hid. congruence.
Qed.

(** The tags a post has once its tag rows were replaced by [tags], and
    the tags of the other posts. *)
Lemma select_tags_replaced (d : db) (post_id : Z) (tags : list string) :
  let d' := fold_left (fun d t => insert_post_tag d post_id t) tags
              (delete_post_tags d post_id) in
  select_tags d' post_id = tags /\
  forall other, other <> post_id -> select_tags d' other = select_tags d other.
Proof.
  cbn zeta. split; [|intros other Hne];
    rewrite !select_tags_keys, replaced_tags_keys, filter_app, map_app.
  - rewrite filter_pairs_same.
    rewrite filter_none; [reflexivity|].
    intros k Hk Hid. apply in_map_iff in Hk as [t [<- Ht]].
    apply list_elem_of_In, list_elem_of_filter in Ht as [Hne _].
    cbn in Hid. apply Is_true_true in Hid. rewrite Hid in Hne. exact Hne.
  - rewrite filter_pairs_other, app_nil_r by assumption.
    change (filter (fun t => negb (t_post_id t =? post_id)) (post_tags d))
      with (post_tags (delete_post_tags d post_id)).
    rewrite <- !select_tags_keys. unfold select_tags.
    cbn [delete_post_tags post_tags]. f_equal.
    apply filter_filter_keep. intros t Hid.
    apply Is_true_true, Z.eqb_eq in Hid. rewrite Hid.
    apply Is_true_true, negb_true_iff, Z.eqb_neq. exact Hne.
Qed.



Lemma delete_post_tags_unique (d : db) (post_id : Z) :
  tags_unique d -> tags_unique (delete_post_tags d post_id).
Proof. unfold tags_unique. cbn [post_tags delete_post_tags]. apply NoDup_map_filter. Qed.




End HandlerFacts.


(* ===================================================================== *)
(** * The importer and its tally of duplicate tags                        *)
(* ===================================================================== *)

(** C1 (the code departs from the claim): importing one row whose tag cell
    is ["#a","#a","#b"] stores exactly the tags "#a" and "#b", but the tally
    of duplicate tags stays 0: [parse_tags] has already dropped the
    duplicate, so the counting branch of the importer's loop is never
    taken. *)
Theorem import_duplicate_tag_tally (P : platform) :
  parse_tags P (PStr (dq "['#a','#a','#b']")) = Ok ["#a"; "#b"] /\
  exists d s,
    import_data P create_database_schema (Some sample_file) = Ok (d, s) /\
    select_tags d 7 = ["#a"; "#b"] /\
    tags_created s = 2%nat /\
    duplicate_tags (issues s) = 0%nat.
Proof.
  split; [vm_compute; reflexivity|].
  destruct (import_data P create_database_schema (Some sample_file))
    as [[d s]|e|] eqn:H.
  - exists d, s. split; [reflexivity|].
    split; [|split; [|exact (import_data_duplicate_tags _ _ _ _ _ H)]];
      vm_compute in H; injection H as <- <-; reflexivity.
  - vm_compute in H. discriminate H.
  - vm_compute in H. discriminate H.
Qed.

(* ===================================================================== *)
(** * Uniqueness in the store                                             *)
(* ===================================================================== *)







(* ===================================================================== *)
(** * Requests                                                            *)
(* ===================================================================== *)

Section Requests.

(** ** No handler leaves the repertoire *)

Lemma bind_int_within (n : Z) : bind_int n <> Beyond.
Proof. unfold bind_int. now destruct (sqlite_intb n). Qed.

Lemma bind_text_within (E : engine) (v : json) : bind_text E v <> Beyond.
Proof.
  destruct v; cbn; try discriminate.
  unfold bind_int. now destruct (sqlite_intb n).
Qed.

Lemma tag_texts_within (E : engine) (tags : list json) :
  tag_texts E tags <> Beyond.
Proof.
  induction tags as [|tag tags IH]; cbn [tag_texts]; [discriminate|].
  destruct (bind_text E tag) as [[s|]|e|] eqn:H; cbn [bind]; try discriminate.
  - now destruct (tag_texts E tags).
  - now apply bind_text_within in H.
Qed.

Lemma json_get_within (data : json) (key : string) (default : json) :
  json_get data key default <> Beyond.
Proof. destruct data; cbn; try discriminate. now destruct (dict_lookup _ _). Qed.

Lemma json_iter_within (v : json) : json_iter v <> Beyond.
Proof. now destruct v. Qed.

Lemma json_in_within (key : string) (data : json) : json_in key data <> Beyond.
Proof. now destruct data. Qed.

Lemma json_item_within (data : json) (key : string) :
  json_item data key <> Beyond.
Proof. destruct data; cbn; try discriminate. now destruct (dict_lookup _ _). Qed.

Lemma update_param_within (data : json) (key : string) :
  update_param data key <> Beyond.
Proof.
  unfold update_param.
  destruct (json_in key data) as [[|]|e|] eqn:H; cbn [bind]; try discriminate.
  - destruct (json_item data key) eqn:H'; cbn [bind]; try discriminate.
    now apply json_item_within in H'.
  - now apply json_in_within in H.
Qed.

Lemma bind_update_within (E : engine) (v : option json) :
  bind_update E v <> Beyond.
Proof.
  destruct v as [v|]; cbn; [|discriminate].
  destruct (bind_text E v) eqn:H; cbn [bind]; try discriminate.
  now apply bind_text_within in H.
Qed.

Lemma insert_request_post_within (E : engine) (new_id author_id : Z)
    (content : json) (now : string) (image_svg category location : json)
    (d : db) :
  insert_request_post E new_id author_id content now image_svg category
    location d <> Beyond.
Proof.
  unfold insert_request_post, bind_int.
  destruct (sqlite_intb new_id); cbn [bind]; [|discriminate].
  destruct (bind_text E content) eqn:H1; cbn [bind]; try discriminate;
    [|now apply bind_text_within in H1].
  destruct (bind_text E image_svg) eqn:H2; cbn [bind]; try discriminate;
    [|now apply bind_text_within in H2].
  destruct (bind_text E category) eqn:H3; cbn [bind]; try discriminate;
    [|now apply bind_text_within in H3].
  destruct (bind_text E location) eqn:H4; cbn [bind]; try discriminate;
    [|now apply bind_text_within in H4].
  unfold insert_post. now destruct (has_post d _).
Qed.

Lemma update_request_post_within (E : engine) (post_id : Z)
    (content category location image_svg : option json) (d : db) :
  update_request_post E post_id content category location image_svg d
  <> Beyond.
Proof.
  unfold update_request_post.
  destruct (bind_update E content) eqn:H1; cbn [bind]; try discriminate;
    [|now apply bind_update_within in H1].
  destruct (bind_update E category) eqn:H2; cbn [bind]; try discriminate;
    [|now apply bind_update_within in H2].
  destruct (bind_update E location) eqn:H3; cbn [bind]; try discriminate;
    [|now apply bind_update_within in H3].
  destruct (bind_update E image_svg) eqn:H4; cbn [bind]; try discriminate.
  now apply bind_update_within in H4.
Qed.

Lemma sql_sum_within (l : list Z) : sql_sum l <> Beyond.
Proof.
  unfold sql_sum. generalize 0. induction l as [|x l IH]; intros acc;
    cbn [sql_sum_from]; [discriminate|].
  destruct (sqlite_intb (acc + x)); [apply IH|discriminate].
Qed.

Lemma py_int_within (s : string) : py_int s <> Beyond.
Proof.
  unfold py_int. destruct (read_sign _) as [neg body].
  destruct (drop_underscores _ body) as [u|]; [|discriminate].
  destruct (span_digits u) as [[|c ds] [|c' t]]; try discriminate.
  now destruct (Nat.ltb _ _).
Qed.

(** ** The connection of a request *)

Ltac answer := eexists; eexists; split; [reflexivity|cbn; auto].

Ltac within :=
  exfalso;
  match goal with
  | H : _ = Beyond |- _ =>
      revert H;
      first [apply bind_int_within|apply bind_text_within
            |apply tag_texts_within|apply json_get_within
            |apply json_iter_within|apply json_in_within
            |apply json_item_within|apply update_param_within
            |apply bind_update_within|apply insert_request_post_within
            |apply update_request_post_within|apply sql_sum_within
            |apply py_int_within]
  end.

Context (E : engine).

Lemma create_post_answer (now : string) (data : json) (h : hstate) :
  exists r h',
    create_post E now data h = (r, h') /\
    (status r = 500 \/ hs_open h' = hs_open h).
Proof.
  destruct h as [f v n]. unfold create_post, try_except.
  destruct (json_get data "authorEmail" JNull) as [email|e|] eqn:H1; hstep;
    [|answer|within].
  destruct (truthy email); cbn [negb h_ret]; [|answer].
  destruct (json_get data "content" JNull) as [content|e|] eqn:H2; hstep;
    [|answer|within].
  destruct (truthy content); cbn [negb h_ret]; [|answer].
  destruct f as [d|]; hstep; hstep; [|answer].
  unfold select_author_by at 1.
  destruct (bind_text E email) as [[e|]|e|] eqn:H3; cbn [bind];
    [|hstep; answer|answer|within].
  destruct (select_author_id d e) as [author_id|]; [|hstep; answer].
  hstep.
  destruct (json_get data "imageSvg" (JStr "")) as [image_svg|e'|] eqn:H4;
    hstep; [|answer|within].
  destruct (json_get data "category" (JStr "")) as [category|e'|] eqn:H5;
    hstep; [|answer|within].
  destruct (json_get data "location" (JStr "")) as [location|e'|] eqn:H6;
    hstep; [|answer|within].
  unfold h_bind at 1, sql_execute at 1. cbn [hs_view].
  destruct (insert_request_post E _ _ _ _ _ _ _ d) as [d1|e'|] eqn:H7;
    [|answer|within].
  cbn [hs_file hs_open].
  destruct (json_get data "tags" (JList [])) as [tags|e'|] eqn:H8; hstep;
    [|answer|within].
  destruct (json_iter tags) as [items|e'|] eqn:H9; hstep; [|answer|within].
  unfold h_bind at 1.
  destruct (h_for_request_tags E (or_zero (select_max_id d) + 1) items
              (Some d) d1 (S n)) as [v' [-> _]].
  destruct (tag_texts E items) as [texts|e'|] eqn:H10; [|answer|within].
  hstep. hstep. answer.
Qed.

Lemma update_post_answer (post_id : Z) (data : json) (h : hstate) :
  exists r h',
    update_post E post_id data h = (r, h') /\
    (status r = 500 \/ hs_open h' = hs_open h).
Proof.
  destruct h as [f v n]. unfold update_post, try_except.
  destruct f as [d|]; hstep; hstep; [|answer].
  unfold bind_int at 1.
  destruct (sqlite_intb post_id); cbn [bind]; [|answer].
  destruct (has_post d post_id); cbn [negb]; [|hstep; answer].
  destruct (update_param data "content") as [content|e|] eqn:H1; hstep;
    [|answer|within].
  destruct (update_param data "category") as [category|e|] eqn:H2; hstep;
    [|answer|within].
  destruct (update_param data "location") as [location|e|] eqn:H3; hstep;
    [|answer|within].
  destruct (update_param data "imageSvg") as [image_svg|e|] eqn:H4; hstep;
    [|answer|within].
  assert (Htags : forall d0,
    exists r h',
      match
        (let! has_tags := h_lift (json_in "tags" data) in
         let! _ :=
           if has_tags then
             let! _ :=
               sql_execute (fun d => Ok (delete_post_tags d post_id)) in
             let! tags := h_lift (json_item data "tags") in
             let! tags := h_lift (json_iter tags) in
             h_for tags
               (fun tag => sql_execute (insert_request_tag E post_id tag))
           else h_ret tt in
         let! _ := conn_commit in
         let! _ := conn_close in
         h_ret (mk_response 200 (BMessage "Post updated successfully")))
          (mk_hstate (Some d) (Some d0) (S n))
      with
      | (Ok r, h') => (r, h')
      | (Raise e, h') => (mk_response 500 (BException e), h')
      | (Beyond, h') => (mk_response 0 (BError ""), h')
      end = (r, h') /\
      (status r = 500 \/ hs_open h' = n)).
  { intros d0.
    destruct (json_in "tags" data) as [[|]|e|] eqn:H5; hstep;
      [| |answer|within].
    - hstep. hstep.
      destruct (json_item data "tags") as [tags|e|] eqn:H6; hstep;
        [|answer|within].
      destruct (json_iter tags) as [items|e|] eqn:H7; hstep;
        [|answer|within].
      destruct (h_for_request_tags E post_id items (Some d)
                  (delete_post_tags d0 post_id) (S n)) as [v' [-> _]].
      destruct (tag_texts E items) as [texts|e|] eqn:H8; [|answer|within].
      hstep. hstep. answer.
    - hstep. hstep. hstep. answer. }
  destruct (is_some content || is_some category || is_some location
            || is_some image_svg).
  - unfold h_bind at 1, sql_execute at 1. cbn [hs_view].
    destruct (update_request_post E post_id content category location
                image_svg d) as [d0|e|] eqn:H5; [|answer|within].
    cbn [hs_file hs_open]. exact (Htags d0).
  - hstep. exact (Htags d).
Qed.

Lemma route_answer (rq : request) (h : hstate) :
  exists r h',
    route E rq h = (r, h') /\ (status r = 500 \/ hs_open h' = hs_open h).
Proof.
  destruct rq as [| |args|post_id|now data|post_id data|post_id|];
    cbn [route];
    [| | | |apply create_post_answer|apply update_post_answer| |];
    destruct h as [f v n];
    unfold get_stats, get_categories, get_authors, get_post, get_posts,
      delete_post, try_except.
  - destruct f as [d|]; hstep; hstep; [|answer].
    hstep.
    destruct (sql_sum (map p_likes (by_rowid (posts d)))) eqn:H1;
      [|answer|within].
    hstep.
    destruct (sql_sum (map p_comments (by_rowid (posts d)))) eqn:H2;
      [|answer|within].
    hstep. answer.
  - unfold h_bind, get_db_connection, sql_select, conn_close, h_ret;
      cbn [hs_file hs_view hs_open]; repeat case_scrutinee; answer.
  - unfold args_int.
    assert (Hpage : exists r, (match arg_page args with
                               | Some s => py_int s
                               | None => Ok 1
                               end) = r /\ r <> Beyond).
    { eexists. split; [reflexivity|].
      destruct (arg_page args); [apply py_int_within|discriminate]. }
    destruct Hpage as [rp [-> Hp]].
    destruct rp as [page|e|]; [|hstep; answer|contradiction].
    assert (Hlimit : exists r, (match arg_limit args with
                                | Some s => py_int s
                                | None => Ok 10
                                end) = r /\ r <> Beyond).
    { eexists. split; [reflexivity|].
      destruct (arg_limit args); [apply py_int_within|discriminate]. }
    destruct Hlimit as [rl [-> Hl]].
    destruct rl as [limit|e|]; [|hstep; hstep; answer|contradiction].
    hstep. hstep. destruct f as [d|]; hstep; hstep; [|answer].
    unfold like_check at 1.
    match goal with
    | |- context [if ?b then Raise OperationalError else Ok tt] =>
        destruct b
    end; cbn [bind]; [answer|].
    hstep. unfold bind_int.
    destruct (sqlite_intb limit); cbn [bind]; [|answer].
    destruct (sqlite_intb ((page - 1) * limit)); cbn [bind]; [|answer].
    unfold like_check at 1.
    match goal with
    | |- context [if ?b then Raise OperationalError else Ok tt] =>
        destruct b
    end; cbn [bind]; [answer|].
    hstep. hstep. hstep. unfold floordiv.
    destruct (limit =? 0); answer.
  - destruct f as [d|]; hstep; hstep; [|answer].
    unfold bind_int.
    destruct (sqlite_intb (Z.of_N post_id)); cbn [bind]; [|answer].
    match goal with
    | |- context [head ?l] => destruct (head l) as [pa|]
    end; hstep; [hstep|]; answer.
  - destruct f as [d|]; hstep; hstep; [|answer].
    unfold bind_int.
    destruct (sqlite_intb (Z.of_N post_id)); cbn [bind]; [|answer].
    destruct (has_post d (Z.of_N post_id)); cbn [negb]; hstep;
      [hstep; hstep; hstep|]; answer.
  - unfold h_bind, get_db_connection, sql_select, conn_close, h_ret;
      cbn [hs_file hs_view hs_open]; repeat case_scrutinee; answer.
Qed.

(** A handler that answers anything but 500 has closed the connection it
    opened. *)
Lemma route_closes (rq : request) (h : hstate) :
  status (route E rq h).1 <> 500 -> hs_open (route E rq h).2 = hs_open h.
Proof.
  destruct (route_answer rq h) as [r [h' [-> [H|H]]]]; cbn; tauto.
Qed.

End Requests.

(** C4 (the code departs from the claim): when a statement raises after
    the connection has been opened, the [except] clause answers 500 and
    nothing closes the connection.  So it is for every handler on a
    database file without tables (one for which [data_processing.py] was
    not run): here [get_posts], [get_stats], [get_post], [delete_post]. *)
Theorem handlers_leave_connection_open (E : engine) :
  (let rh := get_posts E no_args (serving None) in
   rh.1 = mk_response 500 (BException OperationalError) /\ hs_open rh.2 = 1%nat) /\
  (let rh := get_stats (serving None) in
   rh.1 = mk_response 500 (BException OperationalError) /\ hs_open rh.2 = 1%nat) /\
  (let rh := get_post 7 (serving None) in
   rh.1 = mk_response 500 (BException OperationalError) /\ hs_open rh.2 = 1%nat) /\
  (let rh := delete_post 7 (serving None) in
   rh.1 = mk_response 500 (BException OperationalError) /\ hs_open rh.2 = 1%nat) /\
  (let rh := get_posts E no_args (serving (Some sample_store)) in
   status rh.1 = 200 /\ hs_open rh.2 = 0%nat).
Proof.
  repeat match goal with
         | |- _ /\ _ => split
         | |- let _ := _ in _ => cbv zeta
         end; vm_compute; reflexivity.
Qed.

(** ** Creating a post for an unknown author *)

(** C9, as stated, does not hold: the required fields are checked first,
    so that a request for an unknown author that brings no content is
    answered 400, not 404. *)
Lemma create_post_unknown_author_counterexample :
  ~ (forall (E : engine) (now : string) (data : json) (d : db),
       unknown_author E data d ->
       status (create_post E now data (serving (Some d))).1 = 404).
Proof.
  intros H.
  specialize (H sample_engine sample_now stranger_request sample_store).
  assert (Hu : unknown_author sample_engine stranger_request sample_store).
  { intros email e H1 H2. vm_compute in H1. injection H1 as <-.
    vm_compute in H2. injection H2 as <-. reflexivity. }
  specialize (H Hu). vm_compute in H. discriminate H.
Qed.

(** C9 (amended): a create request whose author email matches no author
    leaves the database file as it is, whatever it is answered: no post,
    tag or author row is written.  A body that is not an object is
    answered 500 before a connection is opened.  An object is answered 400
    when its author email or its content is missing or has no truth value
    (null, false, 0, an empty text, list or object), and no connection is
    opened.  Otherwise the author is looked up: when the email can be bound
    to the statement (a text, a number within 64 bits, a boolean), the
    answer is 404 and the connection is closed; when it cannot (a list, an
    object, an integer beyond 64 bits), the answer is 500 with the error of
    [sqlite3], and the connection stays open. *)
Theorem create_post_unknown_author (E : engine) (now : string) (data : json)
    (d : db) :
  unknown_author E data d ->
  let rh := create_post E now data (serving (Some d)) in
  hs_file rh.2 = Some d /\
  match json_get data "authorEmail" JNull, json_get data "content" JNull with
  | Ok email, Ok content =>
      if negb (truthy email) then
        rh.1 = mk_response 400 (BError "Author email is required") /\
        hs_open rh.2 = 0%nat
      else if negb (truthy content) then
        rh.1 = mk_response 400 (BError "Content is required") /\
        hs_open rh.2 = 0%nat
      else
        match bind_text E email with
        | Ok _ =>
            rh.1 = mk_response 404 (BError "Author not found") /\
            hs_open rh.2 = 0%nat
        | Raise e =>
            rh.1 = mk_response 500 (BException e) /\ hs_open rh.2 = 1%nat /\
            (e = ProgrammingError \/ e = OverflowError)
        | Beyond => False
        end
  | _, _ =>
      rh.1 = mk_response 500 (BException AttributeError) /\
      hs_open rh.2 = 0%nat
  end.
Proof.
  intros Hnone. cbv zeta.
  destruct (create_post E now data (serving (Some d))) as [r h'] eqn:Hrun.
  cbn [fst snd]. unfold create_post, try_except in Hrun.
  assert (Hdict : (exists members, data = JDict members) \/
                  forall key default,
                    json_get data key default = Raise AttributeError).
  { destruct data; try (right; reflexivity). left. now eexists. }
  destruct Hdict as [[members ->]|Hraise].
  2:{ rewrite !Hraise in *. hstep_in Hrun. injection Hrun as <- <-.
      repeat split. }
  destruct (json_get (JDict members) "authorEmail" JNull) as [email|e|] eqn:H1;
    [|cbn in H1; destruct (dict_lookup _ _); discriminate H1..].
  destruct (json_get (JDict members) "content" JNull) as [content|e|] eqn:H2;
    [|cbn in H2; destruct (dict_lookup _ _); discriminate H2..].
  hstep_in Hrun. destruct (truthy email); cbn [negb h_ret] in *;
    [|injection Hrun as <- <-; repeat split].
  hstep_in Hrun. destruct (truthy content); cbn [negb h_ret] in *;
    [|injection Hrun as <- <-; repeat split].
  hstep_in Hrun. hstep_in Hrun. unfold select_author_by at 1 in Hrun.
  destruct (bind_text E email) as [[e|]|e|] eqn:H3; cbn [bind] in Hrun.
  - rewrite (Hnone email e H1 H3) in Hrun. hstep_in Hrun.
    injection Hrun as <- <-. repeat split.
  - hstep_in Hrun. injection Hrun as <- <-. repeat split.
  - injection Hrun as <- <-. repeat split.
    destruct email; cbn in H3; try discriminate H3.
    + unfold bind_int in H3. destruct (sqlite_intb n); [discriminate H3|].
      injection H3 as <-. now right.
    + injection H3 as <-. now left.
    + injection H3 as <-. now left.
  - now apply bind_text_within in H3.
Qed.

Lemma create_post_unknown_author_witness :
  (let rh := create_post sample_engine sample_now
               (JDict [("authorEmail", JStr "nobody@example.com");
                       ("content", JStr "hi");
                       ("tags", JList [JStr "#x"])])
               (serving (Some sample_store)) in
   hs_file rh.2 = Some sample_store /\
   rh.1 = mk_response 404 (BError "Author not found") /\
   hs_open rh.2 = 0%nat) /\
  (let rh := create_post sample_engine sample_now
               (JDict [("authorEmail", JList [JStr "ann@example.com"]);
                       ("content", JStr "hi")])
               (serving (Some sample_store)) in
   hs_file rh.2 = Some sample_store /\
   rh.1 = mk_response 500 (BException ProgrammingError) /\
   hs_open rh.2 = 1%nat).
Proof.
  split.
  - assert (Hu : unknown_author sample_engine
                   (JDict [("authorEmail", JStr "nobody@example.com");
                           ("content", JStr "hi");
                           ("tags", JList [JStr "#x"])])
                   sample_store).
    { intros email e H1 H2. vm_compute in H1. injection H1 as <-.
      vm_compute in H2. injection H2 as <-. vm_compute. reflexivity. }
    pose proof (create_post_unknown_author sample_engine sample_now _ _ Hu)
      as H.
    cbv zeta in H. destruct H as [Hf H]. vm_compute in H.
    cbv zeta. split; [exact Hf|exact H].
  - assert (Hu : unknown_author sample_engine
                   (JDict [("authorEmail",
                            JList [JStr "ann@example.com"]);
                           ("content", JStr "hi")])
                   sample_store).
    { intros email e H1 H2. vm_compute in H1. injection H1 as <-.
      vm_compute in H2. discriminate H2. }
    pose proof (create_post_unknown_author sample_engine sample_now _ _ Hu)
      as H.
    cbv zeta in H. destruct H as [Hf H]. vm_compute in H.
    cbv zeta. split; [exact Hf|].
    destruct H as [Hr [Ho _]]. split; [exact Hr|exact Ho].
Defined.

(** ** Pagination *)

Section Pagination.

Context {A : Type} (before : A -> A -> bool).

Lemma length_insert_sorted (x : A) (l : list A) :
  length (insert_sorted before x l) = S (length l).
Proof.
  induction l as [|y l IH]; cbn; [reflexivity|].
  destruct (before y x); cbn; now rewrite ?IH.
Qed.

Lemma length_order_by (l : list A) :
  length (order_by before l) = length l.
Proof.
  unfold order_by.
  assert (H : forall acc, length (fold_left
                 (fun acc x => insert_sorted before x acc) l acc)
               = (length acc + length l)%nat).
  { induction l as [|x l IH]; intros acc; cbn [fold_left length].
    - lia.
    - rewrite IH, length_insert_sorted. lia. }
  now rewrite H.
Qed.

Lemma length_limit_offset (limit offset : Z) (l : list A) :
  0 <= limit ->
  Z.of_nat (length (limit_offset limit offset l)) =
  Z.min limit (Z.max 0 (Z.of_nat (length l) - Z.max 0 offset)).
Proof.
  intros Hl. unfold limit_offset.
  destruct (limit <? 0) eqn:E; [lia|].
  rewrite length_take, length_drop. lia.
Qed.

End Pagination.

Lemma length_sort_rows (rank : post * author -> Z) (sort_by : string)
    (rows : list (post * author)) :
  length (sort_rows rank sort_by rows) = length rows.
Proof.
  unfold sort_rows, order_ties.
  repeat case_scrutinee; rewrite length_order_by; apply length_order_by.
Qed.

(** The quotient [(n + l - 1) // l] is the ceiling of [n / l]. *)
Lemma ceiling_division (n l : Z) :
  0 <= n -> 1 <= l ->
  ((n + l - 1) / l - 1) * l < n <= (n + l - 1) / l * l.
Proof.
  intros Hn Hl.
  pose proof (Z.div_mod (n + l - 1) l ltac:(lia)) as Hdm.
  pose proof (Z.mod_pos_bound (n + l - 1) l ltac:(lia)) as Hb.
  nia.
Qed.

(** What [get_posts] answers on a store with its tables. *)
Lemma get_posts_answer (E : engine) (args : posts_args) (d : db) :
  (get_posts E args (serving (Some d))).1 =
  match args_int (arg_page args) 1 with
  | Raise e => mk_response 500 (BException e)
  | Beyond => mk_response 0 (BError "")
  | Ok page =>
      match args_int (arg_limit args) 10 with
      | Raise e => mk_response 500 (BException e)
      | Beyond => mk_response 0 (BError "")
      | Ok limit =>
          match list_checks E args page limit d with
          | Raise e => mk_response 500 (BException e)
          | Beyond => mk_response 0 (BError "")
          | Ok _ =>
              if limit =? 0
              then mk_response 500 (BException ZeroDivisionError)
              else
                let N := Z.of_nat (length (selected_posts args d)) in
                mk_response 200
                  (BPosts
                     (map (view_post d)
                        (limit_offset limit ((page - 1) * limit)
                           (sort_rows (request_rank E args d)
                              (strip (args_get (arg_sortBy args) "newest"))
                              (selected_posts args d))))
                     (mk_pagination page ((N + limit - 1) / limit) N limit
                        (page <? (N + limit - 1) / limit) (1 <? page)))
          end
      end
  end.
Proof.
  unfold get_posts, try_except, list_checks.
  unfold h_bind at 1. unfold h_lift at 1.
  destruct (args_int (arg_page args) 1) as [page|e|]; [|reflexivity..].
  unfold h_bind at 1. unfold h_lift at 1.
  destruct (args_int (arg_limit args) 10) as [limit|e|]; [|reflexivity..].
  hstep. hstep. cbv zeta.
  destruct (like_check E (count_like_eager E) _ _ _ _ d) as [[]|e|];
    cbn [bind]; [|reflexivity..].
  hstep. unfold bind_int.
  destruct (sqlite_intb limit); cbn [bind]; [|reflexivity].
  destruct (sqlite_intb ((page - 1) * limit)); cbn [bind]; [|reflexivity].
  destruct (like_check E (list_like_eager E) _ _ _ _ d) as [[]|e|];
    cbn [bind]; [|reflexivity..].
  hstep. hstep. hstep. unfold floordiv.
  destruct (limit =? 0); reflexivity.
Qed.

(** A request whose pattern is not too long and whose LIMIT and OFFSET are
    integers of SQLite passes the checks of the two queries. *)
Lemma list_checks_pass (E : engine) (args : posts_args) (page limit : Z)
    (d : db) :
  like_too_long E (strip (args_get (arg_search args) "")) = false ->
  sqlite_int limit -> sqlite_int ((page - 1) * limit) ->
  list_checks E args page limit d = Ok tt.
Proof.
  intros Hlike Hlimit Hoffset. unfold list_checks, like_check, bind_int.
  rewrite Hlike. cbn [andb bind].
  replace (sqlite_intb limit) with true
    by (symmetry; unfold sqlite_intb, sqlite_int in *;
        apply andb_true_iff; split; [apply Z.leb_le|apply Z.ltb_lt]; lia).
  replace (sqlite_intb ((page - 1) * limit)) with true
    by (symmetry; unfold sqlite_intb, sqlite_int in *;
        apply andb_true_iff; split; [apply Z.leb_le|apply Z.ltb_lt]; lia).
  reflexivity.
Qed.

(** C5, as stated, does not hold for every page size: [sqlite3] binds
    LIMIT and OFFSET as 64-bit integers and raises OverflowError on a
    larger one, so that a request with limit 10^19 is answered 500. *)
Lemma get_posts_pagination_counterexample :
  ~ (forall (E : engine) (args : posts_args) (d : db) (page limit : Z),
       args_int (arg_page args) 1 = Ok page ->
       args_int (arg_limit args) 10 = Ok limit ->
       1 <= limit ->
       status (get_posts E args (serving (Some d))).1 = 200).
Proof.
  intros H.
  specialize (H sample_engine huge_page store_25 1 (10 ^ 19)
                eq_refl eq_refl ltac:(lia)).
  vm_compute in H. discriminate H.
Qed.

(** C5 (amended): for a page size [limit >= 1] and [N] selected posts,
    when [limit] and the offset [(page-1)*limit] are integers of SQLite
    and the search pattern is not longer than the engine takes,
    [get_posts] reports [totalPages] = ceiling(N / limit), [hasNext] iff
    the page is less than [totalPages] and [hasPrev] iff the page is
    greater than 1; the page holds the posts from rank (page-1)*limit on,
    at most [limit] of them: with 25 posts and limit 10, page 3 has 5
    posts, hasNext=false, hasPrev=true, totalPages=3. *)
Theorem get_posts_pagination (E : engine) (args : posts_args) (d : db)
    (page limit : Z) :
  args_int (arg_page args) 1 = Ok page ->
  args_int (arg_limit args) 10 = Ok limit ->
  1 <= limit ->
  sqlite_int limit -> sqlite_int ((page - 1) * limit) ->
  like_too_long E (strip (args_get (arg_search args) "")) = false ->
  let N := Z.of_nat (length (selected_posts args d)) in
  exists page_posts pg,
    (get_posts E args (serving (Some d))).1
      = mk_response 200 (BPosts page_posts pg) /\
    currentPage pg = page /\ postsPerPage pg = limit /\ totalPosts pg = N /\
    (totalPages pg - 1) * limit < N <= totalPages pg * limit /\
    (hasNext pg = true <-> page < totalPages pg) /\
    (hasPrev pg = true <-> 1 < page) /\
    (1 <= page ->
     Z.of_nat (length page_posts)
       = Z.min limit (Z.max 0 (N - (page - 1) * limit))) /\
    (N = 25 -> limit = 10 -> page = 3 ->
     length page_posts = 5%nat /\ hasNext pg = false /\ hasPrev pg = true /\
     totalPages pg = 3).
Proof.
  intros Hpage Hlimit Hl Hrange Hoffset Hlike N.
  rewrite get_posts_answer, Hpage, Hlimit.
  rewrite (list_checks_pass E args page limit d Hlike Hrange Hoffset).
  replace (limit =? 0) with false by (symmetry; apply Z.eqb_neq; lia).
  cbv zeta. fold N.
  eexists. eexists. split; [reflexivity|].
  cbn [currentPage postsPerPage totalPosts totalPages hasNext hasPrev].
  assert (Hlen : 1 <= page ->
            Z.of_nat (length (map (view_post d)
                        (limit_offset limit ((page - 1) * limit)
                           (sort_rows (request_rank E args d)
                              (strip (args_get (arg_sortBy args) "newest"))
                              (selected_posts args d)))))
            = Z.min limit (Z.max 0 (N - (page - 1) * limit))).
  { intros Hp. rewrite length_map, length_limit_offset by lia.
    rewrite length_sort_rows. fold N. nia. }
  pose proof (ceiling_division N limit ltac:(lia) Hl) as Hceil.
  repeat apply conj; try reflexivity.
  - apply Hceil.
  - apply Hceil.
  - apply Z.ltb_lt.
  - apply Z.ltb_lt.
  - apply Z.ltb_lt.
  - apply Z.ltb_lt.
  - exact Hlen.
  - intros HN -> ->. rewrite HN in *.
    repeat apply conj; try reflexivity.
    apply Nat2Z.inj. rewrite Hlen by lia. lia.
Qed.

Lemma get_posts_pagination_witness :
  exists page_posts pg,
    (get_posts sample_engine page_3_of_10 (serving (Some store_25))).1
      = mk_response 200 (BPosts page_posts pg) /\
    length page_posts = 5%nat /\ hasNext pg = false /\ hasPrev pg = true /\
    totalPages pg = 3.
Proof.
  destruct (get_posts_pagination sample_engine page_3_of_10 store_25 3 10)
    as [page_posts [pg [Hr [_ [_ [_ [_ [_ [_ [_ H25]]]]]]]]]].
  - vm_compute. reflexivity.
  - vm_compute. reflexivity.
  - lia.
  - unfold sqlite_int. lia.
  - unfold sqlite_int. lia.
  - vm_compute. reflexivity.
  - exists page_posts, pg. split; [exact Hr|].
    apply H25; [vm_compute|..]; reflexivity.
Defined.

(* ===================================================================== *)
(** * Further properties of the normalizers                               *)
(* ===================================================================== *)

Section Stripping.

Context (sp : ascii -> bool).

Lemma lstrip_head_kept (s : string) : head_kept sp (lstrip_by sp s) = true.
Proof.
  induction s as [|c s IH]; cbn [lstrip_by]; [reflexivity|].
  destruct (sp c) eqn:E; [exact IH|]. cbn. now rewrite E.
Qed.

Lemma lstrip_fixed (s : string) :
  head_kept sp s = true -> lstrip_by sp s = s.
Proof.
  destruct s as [|c s]; cbn; [reflexivity|].
  now destruct (sp c).
Qed.

Lemma rstrip_idem (s : string) :
  rstrip_by sp (rstrip_by sp s) = rstrip_by sp s.
Proof.
  induction s as [|c s IH]; cbn [rstrip_by]; [reflexivity|].
  destruct (rstrip_by sp s) as [|c' r'] eqn:E.
  - destruct (sp c) eqn:Ec; cbn; [reflexivity|now rewrite Ec].
  - cbn [rstrip_by]. cbn [rstrip_by] in IH. now rewrite IH.
Qed.

Lemma rstrip_head (c : ascii) (s : string) :
  sp c = false -> exists r, rstrip_by sp (String c s) = String c r.
Proof.
  intros Ec. cbn [rstrip_by]. destruct (rstrip_by sp s) as [|c' r'].
  - rewrite Ec. now exists "".
  - now exists (String c' r').
Qed.

Lemma rstrip_head_kept (s : string) :
  head_kept sp s = true -> head_kept sp (rstrip_by sp s) = true.
Proof.
  destruct s as [|c s]; [reflexivity|]. cbn [head_kept]. intros Ec.
  apply negb_true_iff in Ec. destruct (rstrip_head c s Ec) as [r ->].
  cbn. now rewrite Ec.
Qed.

(** Stripping a stripped text changes nothing. *)
Lemma strip_by_idem (s : string) :
  strip_by sp (strip_by sp s) = strip_by sp s.
Proof.
  unfold strip_by.
  rewrite (lstrip_fixed (rstrip_by sp (lstrip_by sp s))).
  - apply rstrip_idem.
  - apply rstrip_head_kept, lstrip_head_kept.
Qed.

Lemma strip_by_head_kept (s : string) : head_kept sp (strip_by sp s) = true.
Proof. apply rstrip_head_kept, lstrip_head_kept. Qed.

(** A text that starts with a character to keep is not stripped away. *)
Lemma strip_by_nonempty (c : ascii) (s : string) :
  sp c = false -> nonempty (strip_by sp (String c s)) = true.
Proof.
  intros Ec. unfold strip_by. rewrite lstrip_fixed by (cbn; now rewrite Ec).
  destruct (rstrip_head c s Ec) as [r ->]. reflexivity.
Qed.

End Stripping.

Section CleanTextFacts.

Lemma replace_percent_head (s : string) :
  head_kept isspace s = true ->
  head_kept isspace (replace "%%" "%" s) = true /\
  (nonempty s = true -> nonempty (replace "%%" "%" s) = true).
Proof.
  change (replace "%%" "%" s) with (replace_from "%%" "%" 0 s).
  destruct s as [|c s]; [now split|]. intros H.
  rewrite replace_from_step.
  destruct (startswith "%%" (String c s)); split; try reflexivity.
  exact H.
Qed.

Lemma sub_extra_commas_head (s : string) :
  head_kept isspace s = true -> head_kept isspace (sub_extra_commas s) = true.
Proof.
  destruct s as [|c s]; [reflexivity|]. cbn [sub_extra_commas].
  now destruct (matches_extra_commas (String c s)).
Qed.

End CleanTextFacts.

(** X1: a text that [clean_text] returns is never empty and has no
    whitespace around it: a cell is either cleaned to null or to a text
    that starts and ends with a character that is not whitespace. *)
Theorem clean_text_trimmed (value : pyval) (t : string) :
  clean_text value = Some t -> t <> "" /\ strip t = t.
Proof.
  unfold clean_text. destruct (none_or_empty value); [discriminate|].
  set (text := sub_extra_commas (replace "%%" "%" (strip (str_of value)))).
  assert (Hh : head_kept isspace text = true).
  { apply sub_extra_commas_head, replace_percent_head.
    apply strip_by_head_kept. }
  destruct text as [|c r] eqn:E; [discriminate|].
  cbn [nonempty]. intros [= <-]. split.
  - cbn [head_kept] in Hh. apply negb_true_iff in Hh.
    pose proof (strip_by_nonempty isspace c r Hh) as Hn.
    unfold strip. now destruct (strip_by isspace (String c r)).
  - apply strip_by_idem.
Qed.

Lemma clean_text_trimmed_witness :
  "40% off" <> "" /\ strip "40% off" = "40% off".
Proof.
  apply (clean_text_trimmed (PStr "  40%% off , extra, commas ")).
  vm_compute. reflexivity.
Defined.

(** X2: [clean_location] returns null for an empty cell and for the word
    "null" in any case, with or without whitespace around it; any other
    cell comes back trimmed and is never that word.  A cell of blanks only
    comes back as the empty text, not as null. *)
Theorem clean_location_cases (s : string) :
  (lower (strip s) = "null" -> clean_location (PStr s) = None) /\
  (forall t, clean_location (PStr s) = Some t ->
     t = strip s /\ strip t = t /\ lower t <> "null") /\
  (s <> "" -> strip s = "" -> clean_location (PStr s) = Some "").
Proof.
  unfold clean_location. cbn [str_of]. repeat apply conj.
  - intros ->. cbn. now rewrite orb_true_r.
  - intros t. destruct (none_or_empty (PStr s)); [discriminate|].
    cbn [orb]. destruct (String.eqb _ "null") eqn:E; [discriminate|].
    intros [= <-]. repeat split.
    + apply strip_by_idem.
    + now apply String.eqb_neq.
  - intros Hs He. destruct s as [|c r]; [contradiction|].
    cbn [none_or_empty orb]. now rewrite He.
Qed.

Lemma clean_location_cases_witness :
  clean_location (PStr " NULL ") = None /\
  clean_location (PStr "   ") = Some "".
Proof.
  split.
  - apply (proj1 (clean_location_cases " NULL ")). vm_compute. reflexivity.
  - apply (proj2 (proj2 (clean_location_cases "   "))).
    + discriminate.
    + vm_compute. reflexivity.
Defined.

(* ===================================================================== *)
(** * Further properties of the importer                                  *)
(* ===================================================================== *)

Section ImporterCases.

Lemma max_list_ge (l : list Z) (x : Z) : In x l -> x <= max_list l.
Proof.
  unfold max_list. induction l as [|y l IH]; cbn [fold_right In]; [tauto|].
  intros [->|H]; [lia|]. specialize (IH H). lia.
Qed.

Lemma next_rowid_fresh (seq : Z) (ids : list Z) : ~ In (next_rowid seq ids) ids.
Proof.
  intros H. apply max_list_ge in H. unfold next_rowid in H. lia.
Qed.

Lemma select_author_id_Some (d : db) (email : string) (id : Z) :
  select_author_id d email = Some id ->
  exists a, In a (authors d) /\ a_email a = email /\ a_id a = id.
Proof.
  unfold select_author_id.
  destruct (filter _ (authors d)) as [|a l] eqn:Hf; [discriminate|].
  intros [= <-]. exists a.
  assert (Hin : a ∈ filter (fun a0 => String.eqb (a_email a0) email)
                  (authors d)) by (rewrite Hf; left).
  apply list_elem_of_filter in Hin as [He Hin].
  apply Is_true_true, String.eqb_eq in He.
  apply list_elem_of_In in Hin. auto.
Qed.

(** What [INSERT OR IGNORE INTO authors] does to the table: the rows that
    are there stay as they are, in their order, and at most one row
    follows them, under an id that no row has. *)
Lemma insert_or_ignore_author_rows d fn ln e c j b f v :
  let d' := insert_or_ignore_author d fn ln e c j b f v in
  (authors d' = authors d \/
   exists a, authors d' = (authors d ++ [a])%list /\ a_email a = e /\
             ~ In (a_id a) (map a_id (authors d)) /\
             select_author_id d e = None /\
             fn = Some (a_first_name a) /\ ln = Some (a_last_name a)).
Proof.
  unfold insert_or_ignore_author. cbn [authors].
  destruct fn as [fn|], ln as [ln|]; try now left.
  destruct (select_author_id d e) eqn:Hs; [now left|].
  right. eexists. split; [reflexivity|]. cbn [a_email a_id a_first_name
    a_last_name]. repeat split. apply next_rowid_fresh.
Qed.

Lemma insert_or_get_author_rows d cache email fn ln c j b f v d1 cache1 cr :
  insert_or_get_author d cache email fn ln c j b f v = Ok (d1, cache1, cr) ->
  (exists more, authors d1 = (authors d ++ more)%list) /\
  (author_ids_unique d -> author_ids_unique d1) /\
  (cache_sound d cache -> cache_sound d1 cache1).
Proof.
  unfold insert_or_get_author, bind_int. intros H.
  assert (Hsame : (d1, cache1) = (d, cache) ->
            (exists more, authors d1 = (authors d ++ more)%list) /\
            (author_ids_unique d -> author_ids_unique d1) /\
            (cache_sound d cache -> cache_sound d1 cache1)).
  { intros [= -> ->]. split; [exists []; now rewrite app_nil_r|tauto]. }
  destruct email as [e|]; [|injection H as <- <- _; now apply Hsame].
  destruct (nonempty e && _); [|injection H as <- <- _; now apply Hsame].
  destruct (sqlite_intb f); cbn [bind] in H; [|discriminate H].
  pose proof (insert_or_ignore_author_rows d fn ln e c j b f v) as Hrows.
  cbn zeta in Hrows.
  set (d' := insert_or_ignore_author d fn ln e c j b f v) in *.
  assert (Hpre : exists more, authors d' = (authors d ++ more)%list).
  { destruct Hrows as [->|[a [-> _]]]; [exists []; now rewrite app_nil_r|].
    now exists [a]. }
  assert (Hids : author_ids_unique d -> author_ids_unique d').
  { unfold author_ids_unique. destruct Hrows as [->|[a [-> [_ [Hf _]]]]];
      [tauto|].
    intros Hu. rewrite map_app. apply NoDup_app. repeat split.
    - exact Hu.
    - intros x Hx Hx'. cbn in Hx'. apply list_elem_of_In in Hx'.
      destruct Hx' as [<-|[]]. apply list_elem_of_In in Hx. contradiction.
    - apply NoDup_singleton. }
  assert (Hold : cache_sound d cache -> cache_sound d' cache).
  { intros Hc e' id Hl. destruct Hpre as [more ->]. rewrite map_app.
    apply in_or_app. left. now apply (Hc e'). }
  destruct (select_author_id d' e) as [id|] eqn:Hs;
    injection H as <- <- _; split; try assumption; split; try assumption.
  intros Hc e' id' Hl. destruct (decide (e = e')) as [<-|Hne].
  - rewrite lookup_insert_eq in Hl. injection Hl as <-.
    apply select_author_id_Some in Hs as [a [Ha [_ <-]]].
    now apply in_map.
  - rewrite lookup_insert_ne in Hl by assumption. now apply (Hold Hc e').
Qed.

(** The two ways a row leaves the loop: skipped at [continue], or with its
    post and tags inserted. *)
Lemma import_row_cases (P : platform) (st st' : import_state)
    (row : gmap string (option string)) :
  import_row P st row = Ok st' ->
  let email := clean_email (row_get row "author_email" (PStr "")) in
  let first_name := clean_text (row_get row "author_first_name" (PStr "")) in
  let last_name := clean_text (row_get row "author_last_name" (PStr "")) in
  exists co jt bio fc ver d1 created tags,
    parse_tags P (row_get row "post_tags" (PStr "")) = Ok tags /\
    insert_or_get_author (im_db st) (im_cache st) email first_name last_name
      co jt bio fc ver = Ok (d1, im_cache st', created) /\
    total_rows (im_stats st') = S (total_rows (im_stats st)) /\
    authors_created (im_stats st') =
      bump created (authors_created (im_stats st)) /\
    ((cache_get (im_cache st') email = None /\
      im_db st' = d1 /\
      posts_created (im_stats st') = posts_created (im_stats st) /\
      tags_created (im_stats st') = tags_created (im_stats st)) \/
     (exists p,
        cache_get (im_cache st') email = Some (p_author_id p) /\
        clean_integer (row_get row "post_id" (PInt 0)) = Ok (p_id p) /\
        im_db st' =
          tl_db (insert_tags (insert_or_replace_post d1 p) (p_id p) tags) /\
        posts_created (im_stats st') = S (posts_created (im_stats st)) /\
        tags_created (im_stats st') =
          (tags_created (im_stats st) + length tags)%nat)).
Proof.
  unfold import_row. intros H. import_steps H.
  match type of H with
  | context [insert_or_get_author ?a ?b ?c ?d ?e ?f ?g ?h ?i ?j] =>
      destruct (insert_or_get_author a b c d e f g h i j)
        as [[[d1 cache1] created]| |] eqn:Hauthor; try discriminate H
  end.
  cbn [bind] in H. cbn zeta. do 8 eexists.
  destruct (cache_get cache1 _) as [author_id|] eqn:Hget.
  - destruct (bind_ints _); try discriminate H. cbn [bind] in H.
    injection H as <-.
    cbn [im_db im_cache im_stats total_rows authors_created posts_created
         tags_created].
    split; [reflexivity|].
    split; [exact Hauthor|]. split; [reflexivity|]. split; [reflexivity|].
    right. eexists (mk_post _ author_id _ _ _ _ _ _ _ _ _ _).
    cbn [p_id p_author_id]. rewrite Hget.
    match goal with
    | Ht : parse_tags P ?v = Ok ?tags |- context [insert_tags ?d ?i ?tags] =>
        destruct (insert_tags_parsed P d i v tags Ht) as [_ [Hc _]]
    end.
    cbn zeta in Hc. rewrite Hc. repeat split.
  - injection H as <-.
    cbn [im_db im_cache im_stats total_rows authors_created posts_created
         tags_created].
    split; [reflexivity|].
    split; [exact Hauthor|]. split; [reflexivity|]. split; [reflexivity|].
    left. rewrite Hget. repeat split.
Qed.

End ImporterCases.

Section ImporterAccounting.

Lemma clean_email_nonempty (value : pyval) (e : string) :
  clean_email value = Some e -> nonempty e = true.
Proof.
  unfold clean_email. destruct (none_or_empty value); [discriminate|].
  destruct (nonempty (collapse_at _ _)) eqn:Hn; [|discriminate].
  now intros [= <-].
Qed.

Lemma select_author_id_authors (d d' : db) (e : string) :
  authors d' = authors d -> select_author_id d' e = select_author_id d e.
Proof. unfold select_author_id. now intros ->. Qed.

Lemma select_author_id_new (d d' : db) (a : author) :
  select_author_id d (a_email a) = None ->
  authors d' = (authors d ++ [a])%list ->
  select_author_id d' (a_email a) = Some (a_id a).
Proof.
  unfold select_author_id. intros Hs ->. rewrite filter_app.
  destruct (filter _ (authors d)); [|discriminate].
  rewrite filter_cons_True by (rewrite String.eqb_refl; exact I).
  reflexivity.
Qed.

(** Under a cache that knows every author of the table, the author step
    adds a row exactly when it counts one. *)
Lemma insert_or_get_author_counts d cache email fn ln c j b f v d1 cache1 cr :
  insert_or_get_author d cache email fn ln c j b f v = Ok (d1, cache1, cr) ->
  cache_complete d cache ->
  cache_complete d1 cache1 /\
  length (authors d1) = bump cr (length (authors d)) /\
  (cr = true -> fn <> None /\ ln <> None).
Proof.
  unfold insert_or_get_author, bind_int. intros H Hc.
  destruct email as [e|]; [|injection H as <- <- <-; now auto].
  destruct (nonempty e && _) eqn:Hcond; [|injection H as <- <- <-; now auto].
  destruct (sqlite_intb f); cbn [bind] in H; [|discriminate H].
  apply andb_true_iff in Hcond as [_ Hnew].
  apply negb_true_iff, bool_decide_eq_false in Hnew.
  assert (Hs : select_author_id d e = None).
  { apply select_author_id_None. intros Hin.
    apply list_elem_of_In, in_map_iff in Hin as [a [<- Ha]].
    apply Hnew. now apply Hc. }
  pose proof (insert_or_ignore_author_rows d fn ln e c j b f v) as Hrows.
  cbn zeta in Hrows.
  set (d' := insert_or_ignore_author d fn ln e c j b f v) in *.
  destruct Hrows as [Hsame|[a [Hadd [He [_ [_ [Hfn Hln]]]]]]].
  - rewrite (select_author_id_authors d d') in H by assumption.
    rewrite Hs in H. injection H as <- <- <-. cbn [bump].
    split; [|split; [now rewrite Hsame|discriminate]].
    intros a Ha. rewrite Hsame in Ha. now apply Hc.
  - subst e.
    rewrite (select_author_id_new d d' a Hs Hadd) in H.
    injection H as <- <- <-. cbn [bump]. split; [|split].
    + intros a' Ha'. rewrite Hadd in Ha'. apply in_app_or in Ha'.
      destruct (decide (a_email a = a_email a')) as [E|E].
      * rewrite <- E, lookup_insert_eq. now eexists.
      * rewrite lookup_insert_ne by assumption.
        destruct Ha' as [Ha'|[<-|[]]]; [now apply Hc|congruence].
    + rewrite Hadd, length_app. cbn. lia.
    + intros _. rewrite Hfn, Hln. split; discriminate.
Qed.

(** The counters of a row against what the row does to the tables. *)
Lemma import_row_accounting (P : platform) (st st' : import_state)
    (row : gmap string (option string)) :
  import_row P st row = Ok st' ->
  cache_complete (im_db st) (im_cache st) ->
  cache_complete (im_db st') (im_cache st') /\
  total_rows (im_stats st') = S (total_rows (im_stats st)) /\
  (length (authors (im_db st')) + authors_created (im_stats st)
   = length (authors (im_db st)) + authors_created (im_stats st'))%nat /\
  (length (post_tags (im_db st')) + tags_created (im_stats st)
   = length (post_tags (im_db st)) + tags_created (im_stats st'))%nat /\
  (length (posts (im_db st')) + posts_created (im_stats st)
   <= length (posts (im_db st)) + posts_created (im_stats st'))%nat /\
  (posts_created (im_stats st') <= S (posts_created (im_stats st)))%nat /\
  (authors_created (im_stats st') <= S (authors_created (im_stats st)))%nat.
Proof.
  intros H Hc.
  destruct (import_row_cases P st st' row H)
    as [co [jt [bio [fc [ver [d1 [cr [tags
         [Htags [Hauthor [Hrows [Hcr Hcase]]]]]]]]]]]].
  cbn zeta in Hauthor, Hcase.
  destruct (insert_or_get_author_spec _ _ _ _ _ _ _ _ _ _ _ _ _ Hauthor)
    as [_ [Hp1 Ht1]].
  destruct (insert_or_get_author_counts _ _ _ _ _ _ _ _ _ _ _ _ _ Hauthor Hc)
    as [Hc1 [Hlen _]].
  assert (Hb : forall n, (bump cr n <= S n)%nat /\
                 (bump cr n + 0 = (if cr then 1 else 0) + n)%nat).
  { intros n. destruct cr; cbn; lia. }
  destruct Hcase as [[_ [-> [Hpc Htc]]]|[p [_ [_ [-> [Hpc Htc]]]]]].
  - rewrite Hp1, Ht1, Hpc, Htc, Hcr, Hlen, Hrows.
    split; [exact Hc1|]. split; [reflexivity|].
    pose proof (Hb (length (authors (im_db st)))).
    pose proof (Hb (authors_created (im_stats st))).
    destruct cr; cbn [bump] in *; repeat split; lia.
  - match goal with
    | |- context [insert_tags ?d ?i tags] =>
        destruct (insert_tags_parsed P d i _ tags Htags)
          as [_ [_ [Ha [Hp Hk]]]]
    end.
    cbn zeta in Ha, Hp, Hk.
    apply (f_equal (@length _)) in Hk.
    rewrite length_app, !length_map in Hk.
    cbn [insert_or_replace_post authors posts post_tags] in Ha, Hp, Hk.
    rewrite Ha, Hp, Hk, Hpc, Htc, Hcr, Hlen, Hrows, Ht1, Hp1.
    split. { intros a. rewrite Ha. apply Hc1. }
    split; [reflexivity|].
    rewrite length_app.
    pose proof (length_filter (fun q => negb (p_id q =? p_id p))
                  (posts (im_db st))) as Hf.
    cbn [length].
    destruct cr; cbn [bump]; repeat split; lia.
Qed.

Lemma import_rows_accounting (P : platform)
    (rows : list (gmap string (option string))) (st st' : import_state) :
  import_rows P st rows = Ok st' ->
  cache_complete (im_db st) (im_cache st) ->
  (total_rows (im_stats st') = total_rows (im_stats st) + length rows)%nat /\
  (length (authors (im_db st')) + authors_created (im_stats st)
   = length (authors (im_db st)) + authors_created (im_stats st'))%nat /\
  (length (post_tags (im_db st')) + tags_created (im_stats st)
   = length (post_tags (im_db st)) + tags_created (im_stats st'))%nat /\
  (length (posts (im_db st')) + posts_created (im_stats st)
   <= length (posts (im_db st)) + posts_created (im_stats st'))%nat /\
  (posts_created (im_stats st')
   <= posts_created (im_stats st) + length rows)%nat /\
  (authors_created (im_stats st')
   <= authors_created (im_stats st) + length rows)%nat.
Proof.
  revert st. induction rows as [|row rows IH]; intros st; cbn [import_rows].
  - intros [= <-] _. cbn [length]. repeat split; lia.
  - unfold bind. destruct (import_row P st row) as [st1| |] eqn:Hrow;
      try discriminate.
    intros H Hc.
    destruct (import_row_accounting _ _ _ _ Hrow Hc)
      as [Hc1 [R1 [A1 [T1 [P1 [Q1 S1]]]]]].
    destruct (IH _ H Hc1) as [R2 [A2 [T2 [P2 [Q2 S2]]]]].
    cbn [length]. repeat split; lia.
Qed.

End ImporterAccounting.

(* ===================================================================== *)
(** * Rows the importer skips, and what it reports                        *)
(* ===================================================================== *)

(** X3: a row whose email cell cleans to null is skipped: the store and
    the cache stay as they are, the row is counted in [total_rows] and in
    no other counter of the summary. *)
Theorem import_row_without_email (P : platform) (st st' : import_state)
    (row : gmap string (option string)) :
  clean_email (row_get row "author_email" (PStr "")) = None ->
  import_row P st row = Ok st' ->
  im_db st' = im_db st /\ im_cache st' = im_cache st /\
  total_rows (im_stats st') = S (total_rows (im_stats st)) /\
  authors_created (im_stats st') = authors_created (im_stats st) /\
  posts_created (im_stats st') = posts_created (im_stats st) /\
  tags_created (im_stats st') = tags_created (im_stats st).
Proof.
  intros He H.
  destruct (import_row_cases P st st' row H)
    as [co [jt [bio [fc [ver [d1 [cr [tags
         [Htags [Hauthor [Hrows [Hcr Hcase]]]]]]]]]]]].
  cbn zeta in Hauthor, Hcase. rewrite He in Hauthor, Hcase.
  cbn [insert_or_get_author cache_get] in Hauthor, Hcase.
  injection Hauthor as <- Hcache <-. cbn [bump] in Hcr.
  destruct Hcase as [[_ [Hd [Hp Ht]]]|[p [Hno _]]]; [|discriminate].
  auto 10.
Qed.

Lemma import_row_without_email_witness :
  exists st',
    import_row cpython_linux sample_state row_without_email = Ok st' /\
    im_db st' = sample_store /\ posts_created (im_stats st') = 0%nat.
Proof.
  eexists. split; [vm_compute; reflexivity|].
  match goal with
  | |- im_db ?s = _ /\ _ =>
      destruct (import_row_without_email cpython_linux sample_state s
                  row_without_email)
        as [Hd [_ [_ [_ [Hp _]]]]]
  end.
  - vm_compute. reflexivity.
  - vm_compute. reflexivity.
  - exact (conj Hd Hp).
Defined.

(** X4: a row of an author that neither the cache nor the table knows,
    whose first or last name cleans to null, leaves the three tables as
    they are: the INSERT OR IGNORE fails on NOT NULL, no id is found for
    the email, and the post of the row is dropped with its tags. *)
Theorem import_row_nameless_author (P : platform) (st st' : import_state)
    (row : gmap string (option string)) (e : string) :
  clean_email (row_get row "author_email" (PStr "")) = Some e ->
  im_cache st !! e = None ->
  select_author_id (im_db st) e = None ->
  clean_text (row_get row "author_first_name" (PStr "")) = None \/
  clean_text (row_get row "author_last_name" (PStr "")) = None ->
  import_row P st row = Ok st' ->
  authors (im_db st') = authors (im_db st) /\
  posts (im_db st') = posts (im_db st) /\
  post_tags (im_db st') = post_tags (im_db st) /\
  im_cache st' = im_cache st /\
  authors_created (im_stats st') = authors_created (im_stats st) /\
  posts_created (im_stats st') = posts_created (im_stats st).
Proof.
  intros He Hcache Hs Hname H.
  destruct (import_row_cases P st st' row H)
    as [co [jt [bio [fc [ver [d1 [cr [tags
         [Htags [Hauthor [Hrows [Hcr Hcase]]]]]]]]]]]].
  cbn zeta in Hauthor, Hcase. rewrite He in Hauthor, Hcase.
  unfold insert_or_get_author, bind_int in Hauthor.
  rewrite (clean_email_nonempty _ _ He), Hcache in Hauthor.
  rewrite bool_decide_eq_false_2 in Hauthor by (intros [x Hx]; discriminate).
  cbn [andb negb] in Hauthor.
  destruct (sqlite_intb fc); cbn [bind] in Hauthor; [|discriminate Hauthor].
  match type of Hauthor with
  | context [insert_or_ignore_author ?d ?fn ?ln ?e ?c ?j ?b ?f ?v] =>
      pose proof (insert_or_ignore_author_rows d fn ln e c j b f v) as Hr;
      pose proof (insert_or_ignore_author_rest d fn ln e c j b f v)
        as [Hp Ht];
      set (d' := insert_or_ignore_author d fn ln e c j b f v) in *
  end.
  cbn zeta in Hr.
  destruct Hr as [Hsame|[a [_ [_ [_ [_ [Hfn Hln]]]]]]];
    [|destruct Hname as [Hn|Hn]; congruence].
  rewrite (select_author_id_authors (im_db st) d') in Hauthor by assumption.
  rewrite Hs in Hauthor. injection Hauthor as <- Hc <-.
  cbn [bump] in Hcr. cbn [cache_get] in Hcase. rewrite <- Hc, Hcache in Hcase.
  destruct Hcase as [[_ [-> [Hpc _]]]|[p [Hno _]]]; [|discriminate].
  auto 10.
Qed.

Lemma import_row_nameless_author_witness :
  exists st',
    import_row cpython_linux sample_state row_without_name = Ok st' /\
    posts (im_db st') = posts sample_store /\
    authors (im_db st') = authors sample_store.
Proof.
  eexists. split; [vm_compute; reflexivity|].
  match goal with
  | |- posts (im_db ?s) = _ /\ _ =>
      destruct (import_row_nameless_author cpython_linux sample_state s
                  row_without_name "bob@example.com")
        as [Ha [Hp _]]
  end.
  - vm_compute. reflexivity.
  - vm_compute. reflexivity.
  - vm_compute. reflexivity.
  - left. vm_compute. reflexivity.
  - vm_compute. reflexivity.
  - exact (conj Hp Ha).
Defined.

(** X5: the summary of an import into the fresh schema is exact where it
    can be: [total_rows] is the number of lines read, [authors_created] the
    number of rows of [authors], [tags_created] the number of rows of
    [post_tags]; [posts_created] counts every row that got as far as its
    post, so that it bounds the rows of [posts] from above (a repeated post
    id replaces a row) and is bounded by [total_rows]. *)
Theorem import_data_report (P : platform) (lines : list (list string))
    (d : db) (s : stats) :
  import_data P create_database_schema (Some lines) = Ok (d, s) ->
  total_rows s = length (reader_rows lines) /\
  authors_created s = length (authors d) /\
  tags_created s = length (post_tags d) /\
  (length (posts d) <= posts_created s <= total_rows s)%nat.
Proof.
  unfold import_data, bind.
  destruct (import_rows _ _ _) as [st| |] eqn:H; try discriminate.
  intros [= <- <-].
  apply import_rows_accounting in H as [R [A [T [Hposts [Q _]]]]];
    [|intros a []].
  cbn [im_db im_stats create_database_schema authors posts post_tags stats0
       total_rows authors_created tags_created posts_created length] in *.
  repeat split; lia.
Qed.

Lemma import_data_report_witness :
  exists d s,
    import_data cpython_linux create_database_schema (Some sample_file)
    = Ok (d, s) /\
    total_rows s = 1%nat /\ authors_created s = length (authors d).
Proof.
  eexists. eexists. split; [vm_compute; reflexivity|].
  match goal with
  | |- total_rows ?s = _ /\ authors_created _ = length (authors ?d) =>
      destruct (import_data_report cpython_linux sample_file d s)
        as [Hr [Ha _]]
  end.
  - vm_compute. reflexivity.
  - split; [exact Hr|exact Ha].
Defined.

Section ImporterAuthors.

Context (P : platform).

(** What a row does to the author table and to the author ids of the
    posts. *)
Lemma import_row_authors (st st' : import_state)
    (row : gmap string (option string)) :
  import_row P st row = Ok st' ->
  (exists more, authors (im_db st') = (authors (im_db st) ++ more)%list) /\
  (author_ids_unique (im_db st) -> author_ids_unique (im_db st')) /\
  (cache_sound (im_db st) (im_cache st) ->
   cache_sound (im_db st') (im_cache st') /\
   (posts_have_authors (im_db st) -> posts_have_authors (im_db st'))).
Proof.
  intros H.
  destruct (import_row_cases P st st' row H)
    as [co [jt [bio [fc [ver [d1 [cr [tags
         [Htags [Hauthor [_ [_ Hcase]]]]]]]]]]]].
  cbn zeta in Hauthor, Hcase.
  destruct (insert_or_get_author_spec _ _ _ _ _ _ _ _ _ _ _ _ _ Hauthor)
    as [_ [Hp1 _]].
  destruct (insert_or_get_author_rows _ _ _ _ _ _ _ _ _ _ _ _ _ Hauthor)
    as [[more Hmore] [Hids Hsound]].
  assert (Hold : posts_have_authors (im_db st) -> posts_have_authors d1).
  { intros Hh p Hin. rewrite Hmore, map_app. apply in_or_app. left.
    apply Hh. now rewrite <- Hp1. }
  destruct Hcase as [[_ [-> _]]|[p [Hget [_ [-> _]]]]].
  - split; [now exists more|]. split; [assumption|]. auto.
  - match goal with
    | |- context [insert_tags ?d ?i tags] =>
        destruct (insert_tags_parsed P d i _ tags Htags)
          as [_ [_ [Ha [Hp _]]]]
    end.
    cbn zeta in Ha, Hp. cbn [insert_or_replace_post authors posts] in Ha, Hp.
    unfold author_ids_unique, cache_sound, posts_have_authors.
    rewrite Ha, Hp. split; [now exists more|]. split; [assumption|].
    intros Hc. specialize (Hsound Hc). split; [assumption|].
    intros Hh q Hin. apply in_app_or in Hin as [Hin|[<-|[]]].
    + apply list_elem_of_In, list_elem_of_filter in Hin as [_ Hin].
      apply list_elem_of_In in Hin. now apply (Hold Hh).
    + destruct (clean_email _) as [e|]; [|discriminate].
      cbn [cache_get] in Hget. now apply (Hsound e).
Qed.

Lemma import_rows_authors (rows : list (gmap string (option string)))
    (st st' : import_state) :
  import_rows P st rows = Ok st' ->
  (exists more, authors (im_db st') = (authors (im_db st) ++ more)%list) /\
  (author_ids_unique (im_db st) -> author_ids_unique (im_db st')) /\
  (cache_sound (im_db st) (im_cache st) ->
   cache_sound (im_db st') (im_cache st') /\
   (posts_have_authors (im_db st) -> posts_have_authors (im_db st'))).
Proof.
  revert st. induction rows as [|row rows IH]; intros st; cbn [import_rows].
  - intros [= <-]. split; [exists []; now rewrite app_nil_r|]. auto.
  - unfold bind. destruct (import_row P st row) as [st1| |] eqn:Hrow;
      try discriminate.
    intros H. apply IH in H as [[m2 H1] [H2 H3]].
    apply import_row_authors in Hrow as [[m1 G1] [G2 G3]].
    split; [|split].
    + exists (m1 ++ m2)%list. now rewrite H1, G1, app_assoc.
    + auto.
    + intros Hc. destruct (G3 Hc) as [Hc1 Hh1].
      destruct (H3 Hc1) as [Hc2 Hh2]. auto.
Qed.

Lemma import_data_authors (d d' : db) file (s : stats) :
  import_data P d file = Ok (d', s) ->
  (exists more, authors d' = (authors d ++ more)%list) /\
  (author_ids_unique d -> author_ids_unique d') /\
  (posts_have_authors d -> posts_have_authors d').
Proof.
  unfold import_data, bind. destruct file as [lines|]; [|discriminate].
  destruct (import_rows _ _ _) as [st| |] eqn:H; try discriminate.
  intros [= <- _]. apply import_rows_authors in H as [H1 [H2 H3]].
  cbn [im_db im_cache] in *. split; [assumption|]. split; [assumption|].
  apply H3. intros e id Hl. rewrite lookup_empty in Hl. discriminate.
Qed.

(** [ensure_sys_admin] returns, and the author it may add goes after the
    authors that are there, under a new id. *)
Lemma ensure_sys_admin_rows (d : db) :
  exists d', ensure_sys_admin d = Ok d' /\
    select_author_id d' sys_admin_email <> None /\
    posts d' = posts d /\ post_tags d' = post_tags d /\
    (exists more, authors d' = (authors d ++ more)%list) /\
    (author_ids_unique d -> author_ids_unique d').
Proof.
  unfold ensure_sys_admin, insert_author.
  destruct (select_author_id d sys_admin_email) as [id|] eqn:Hs.
  - exists d. rewrite Hs. repeat split; try discriminate; try tauto.
    exists []. now rewrite app_nil_r.
  - eexists. split; [reflexivity|]. cbn [authors posts post_tags].
    split; [|split; [reflexivity|split; [reflexivity|split]]].
    + match goal with
      | |- select_author_id ?d' _ <> None =>
          pose proof (select_author_id_new d d'
                     (mk_author (next_rowid (authors_seq d)
                                   (map a_id (authors d)))
                        "Sys" "Admin" sys_admin_email
                        (Some "Social Media Posts")
                        (Some "System Administrator")
                        (Some "The default system administrator account.")
                        999999 1) Hs eq_refl) as Hnew
      end.
      cbn [a_email a_id] in Hnew. rewrite Hnew. discriminate.
    + eexists. reflexivity.
    + unfold author_ids_unique. cbn [authors]. intros Hu.
      rewrite map_app. apply NoDup_app. repeat split.
      * exact Hu.
      * intros x Hx Hx'. cbn in Hx'. apply list_elem_of_In in Hx'.
        destruct Hx' as [<-|[]]. apply list_elem_of_In in Hx.
        now apply next_rowid_fresh in Hx.
      * apply NoDup_singleton.
Qed.

(** A text that [float()] reads as an infinity is neither null nor
    empty, and [clean_integer] raises on it. *)
Lemma clean_integer_overflows (value : pyval) (neg : bool) :
  py_float (strip (str_of value)) = Ok (FInf neg) ->
  clean_integer value = Raise OverflowError.
Proof.
  intros H. unfold clean_integer.
  destruct (none_or_empty value) eqn:Hn.
  - destruct value as [|[|c s]|n]; try discriminate;
      vm_compute in H; discriminate.
  - rewrite H. reflexivity.
Qed.

(** A row whose six integer cells are numbers gets as far as its tag
    cell. *)
Lemma import_row_tags_raise (st : import_state)
    (row : gmap string (option string)) (e : exn) :
  (forall key, In key integer_columns ->
     exists n, clean_integer (row_get row key (PInt 0)) = Ok n) ->
  parse_tags P (row_get row "post_tags" (PStr "")) = Raise e ->
  import_row P st row = Raise e.
Proof.
  intros Hcells Htags. unfold import_row, integer_columns in *.
  destruct (Hcells "author_follower_count") as [n0 ->];
    [cbn; repeat (first [left; reflexivity|right])|].
  destruct (Hcells "post_id") as [n1 ->];
    [cbn; repeat (first [left; reflexivity|right])|].
  destruct (Hcells "likes") as [n2 ->];
    [cbn; repeat (first [left; reflexivity|right])|].
  destruct (Hcells "comments") as [n3 ->];
    [cbn; repeat (first [left; reflexivity|right])|].
  destruct (Hcells "shares") as [n4 ->];
    [cbn; repeat (first [left; reflexivity|right])|].
  destruct (Hcells "total_engagements") as [n5 ->];
    [cbn; repeat (first [left; reflexivity|right])|].
  destruct (clean_datetime_returns P (row_get row "post_date" (PStr "")))
    as [dt ->].
  destruct (clean_float_returns (row_get row "engagement_rate" (PInt 0)))
    as [x ->].
  cbn [bind]. rewrite Htags. reflexivity.
Qed.

End ImporterAuthors.

(** X6: an import never changes or removes an author that is stored: the
    rows of [authors] it finds stay as they are and in their order, and new
    authors follow them.  A later row with the email of a stored author
    brings no new name, company or follower count. *)
Theorem import_data_keeps_authors (P : platform) (conn d : db)
    (file : option (list (list string))) (s : stats) :
  import_data P conn file = Ok (d, s) ->
  exists more, authors d = (authors conn ++ more)%list.
Proof.
  intros H. now apply import_data_authors in H as [H _].
Qed.

Lemma import_data_keeps_authors_witness :
  exists more,
    authors sample_store_after_second = (authors sample_store ++ more)%list /\
    authors sample_store <> [] /\ length more = 1%nat.
Proof.
  destruct (import_data_keeps_authors cpython_linux sample_store
              sample_store_after_second (Some second_file)
              (mk_stats 2 2 2 1 (mk_issues 0 0 0 2 2 0 0)))
    as [more Hmore].
  - vm_compute. reflexivity.
  - exists more. split; [exact Hmore|]. split; [vm_compute; discriminate|].
    apply (f_equal (@length _)) in Hmore. rewrite length_app in Hmore.
    change (length (authors sample_store_after_second)) with 2%nat in Hmore.
    change (length (authors sample_store)) with 1%nat in Hmore. lia.
Defined.

(** X7: a row in which one of the six cells read with [clean_integer] is
    a text that [float()] reads as an infinity makes the import fail with
    [OverflowError], whatever the other cells hold.  A row whose six
    integer cells are numbers and whose tag cell makes [parse_tags] raise
    (a text nested deeper than the interpreter allows, an integer literal
    of more than 4300 digits) makes the import fail with that error. *)
Theorem import_row_fails_on_infinity (P : platform) (st : import_state)
    (row : gmap string (option string)) :
  (forall key neg,
     In key integer_columns ->
     py_float (strip (str_of (row_get row key (PInt 0)))) = Ok (FInf neg) ->
     import_row P st row = Raise OverflowError) /\
  (forall e,
     (forall key, In key integer_columns ->
        exists n, clean_integer (row_get row key (PInt 0)) = Ok n) ->
     parse_tags P (row_get row "post_tags" (PStr "")) = Raise e ->
     import_row P st row = Raise e).
Proof.
  split.
  - intros key neg Hin Hf.
    apply clean_integer_overflows in Hf.
    unfold import_row, bind.
    destruct (clean_integer_returns_or_overflows
                (row_get row "author_follower_count" (PInt 0)))
      as [[n0 H0]|[H0 _]]; rewrite H0; [|reflexivity].
    destruct (clean_integer_returns_or_overflows
                (row_get row "post_id" (PInt 0)))
      as [[n1 H1]|[H1 _]]; rewrite H1; [|reflexivity].
    destruct (clean_datetime_returns P (row_get row "post_date" (PStr "")))
      as [dt ->].
    destruct (clean_integer_returns_or_overflows
                (row_get row "likes" (PInt 0)))
      as [[n2 H2]|[H2 _]]; rewrite H2; [|reflexivity].
    destruct (clean_integer_returns_or_overflows
                (row_get row "comments" (PInt 0)))
      as [[n3 H3]|[H3 _]]; rewrite H3; [|reflexivity].
    destruct (clean_integer_returns_or_overflows
                (row_get row "shares" (PInt 0)))
      as [[n4 H4]|[H4 _]]; rewrite H4; [|reflexivity].
    destruct (clean_integer_returns_or_overflows
                (row_get row "total_engagements" (PInt 0)))
      as [[n5 H5]|[H5 _]]; rewrite H5; [|reflexivity].
    exfalso. unfold integer_columns in Hin. cbn [In] in Hin.
    repeat (destruct Hin as [<-|Hin]; [congruence|]). exact Hin.
  - intros e. apply import_row_tags_raise.
Qed.

Lemma import_row_fails_on_infinity_witness :
  import_row cpython_linux sample_state row_with_infinity
  = Raise OverflowError /\
  import_row cpython_linux sample_state row_with_long_number
  = Raise ValueError.
Proof.
  split.
  - apply (proj1 (import_row_fails_on_infinity cpython_linux sample_state
                    row_with_infinity) "likes" false).
    + vm_compute. tauto.
    + vm_compute. reflexivity.
  - apply (proj2 (import_row_fails_on_infinity cpython_linux sample_state
                    row_with_long_number) ValueError).
    + intros key Hin. unfold integer_columns in Hin. cbn [In] in Hin.
      repeat (destruct Hin as [<-|Hin];
              [eexists; vm_compute; reflexivity|]).
      destruct Hin.
    + vm_compute. reflexivity.
Defined.

(** X8: [ensure_sys_admin] always returns; afterwards the author
    sys.admin@socialmediaposts.com is in the table, the authors that were
    there are unchanged, posts and tags are untouched, and a second call
    changes nothing. *)
Theorem ensure_sys_admin_idempotent (conn : db) :
  exists d,
    ensure_sys_admin conn = Ok d /\
    select_author_id d sys_admin_email <> None /\
    (exists more, authors d = (authors conn ++ more)%list) /\
    (select_author_id conn sys_admin_email <> None -> d = conn) /\
    posts d = posts conn /\ post_tags d = post_tags conn /\
    ensure_sys_admin d = Ok d.
Proof.
  destruct (ensure_sys_admin_rows conn) as [d [H [Hs [Hp [Ht [Hm _]]]]]].
  exists d. repeat apply conj; try assumption.
  - unfold ensure_sys_admin in H.
    destruct (select_author_id conn sys_admin_email); [|congruence].
    now injection H as <-.
  - unfold ensure_sys_admin.
    destruct (select_author_id d sys_admin_email); [reflexivity|congruence].
Qed.

(** X9: [main()] on a CSV file that is there.  The database it leaves does
    not depend on what the file held before.  When the run succeeds the
    store is one the model counts as reachable and holds the Sys Admin
    author; when the import raises, whatever the exception, [main] raises
    it too and the database is left with the three tables empty, the
    earlier content gone.  The third case is a run that leaves the
    repertoire, of which nothing is said. *)
Theorem main_outcome (P : platform) (database : option db)
    (lines : list (list string)) :
  main P database (Some lines) = main P None (Some lines) /\
  ((exists d s,
      main P database (Some lines) = (Some d, Ok (Some s)) /\
      reachable d /\ select_author_id d sys_admin_email <> None) \/
   (exists e,
      import_data P create_database_schema (Some lines) = Raise e /\
      main P database (Some lines)
      = (Some create_database_schema, Raise e)) \/
   import_data P create_database_schema (Some lines) = Beyond).
Proof.
  split; [reflexivity|]. unfold main.
  destruct (import_data P create_database_schema (Some lines))
    as [[d s]|e|] eqn:Himp.
  - left. destruct (ensure_sys_admin_rows d) as [d' [H [Hs _]]].
    rewrite H. exists d', s. split; [reflexivity|]. split; [|assumption].
    eapply reach_step; [eapply reach_step; [apply reach_schema|]|].
    + eapply step_import. exact Himp.
    + now apply step_sys_admin.
  - right. left. now exists e.
  - right. now right.
Qed.

(* ===================================================================== *)
(** * Further properties of the handlers                                  *)
(* ===================================================================== *)

Section References.

#[local] Abbreviation tag_key := (fun t : post_tag => (t_post_id t, t_tag t)).

Lemma sqlite_intb_true (n : Z) : sqlite_int n -> sqlite_intb n = true.
Proof.
  unfold sqlite_int, sqlite_intb. intros H.
  apply andb_true_iff. split; [apply Z.leb_le|apply Z.ltb_lt]; lia.
Qed.





(** The one author row of an id, when ids are unique. *)
Lemma author_of_id (l : list author) (id : Z) :
  NoDup (map a_id l) -> In id (map a_id l) ->
  exists a, filter (fun a => a_id a =? id) l = [a] /\ a_id a = id /\ In a l.
Proof.
  induction l as [|a l IH]; cbn [map]; intros Hn Hin; [destruct Hin|].
  apply NoDup_cons in Hn as [Ha Hn].
  destruct (Z.eq_dec (a_id a) id) as [E|E].
  - exists a. rewrite filter_cons_True by (apply Is_true_true, Z.eqb_eq, E).
    split; [|split; [exact E|now left]]. f_equal.
    apply filter_none. intros b Hb Hid. apply Is_true_true, Z.eqb_eq in Hid.
    apply Ha. apply list_elem_of_In. rewrite E, <- Hid. now apply in_map.
  - destruct Hin as [Hin|Hin]; [contradiction|].
    destruct (IH Hn Hin) as [b [Hf [Hb Hl]]]. exists b.
    rewrite filter_cons_False
      by (intros Hid; apply Is_true_true, Z.eqb_eq in Hid; contradiction).
    split; [exact Hf|split; [exact Hb|now right]].
Qed.

(** With unique author ids and no dangling author id, the join has one
    row for each post, in the order of the posts. *)
Lemma join_one_row_per_post (d : db) :
  author_ids_unique d -> posts_have_authors d ->
  map fst (join_posts_authors d) = posts d.
Proof.
  unfold author_ids_unique, posts_have_authors, join_posts_authors.
  intros Hu Hh. induction (posts d) as [|p l IH]; [reflexivity|].
  cbn [flat_map]. rewrite map_app, IH by (intros q Hq; apply Hh; now right).
  destruct (author_of_id (authors d) (p_author_id p) Hu
              (Hh p ltac:(now left))) as [a [-> _]].
  reflexivity.
Qed.

(** A request never touches the author table, and leaves every post with
    an author. *)
Lemma route_references (E : engine) (rq : request) (d d' : db)
    (r : response) (h' : hstate) :
  route E rq (serving (Some d)) = (r, h') ->
  hs_file h' = Some d' ->
  authors d' = authors d /\
  (posts_have_authors d -> posts_have_authors d').
Proof.
  intros Hrun Hfile.
  pose proof (get_handlers_file E (serving (Some d)))
    as [G1 [G2 [G3 [G4 G5]]]].
  destruct rq as [| |args|post_id|now data|post_id data|post_id|];
    cbn [route] in Hrun.
  - rewrite Hrun in G1. cbn in G1. rewrite G1 in Hfile.
    injection Hfile as <-. auto.
  - rewrite Hrun in G2. cbn in G2. rewrite G2 in Hfile.
    injection Hfile as <-. auto.
  - specialize (G5 args). rewrite Hrun in G5. cbn in G5. rewrite G5 in Hfile.
    injection Hfile as <-. auto.
  - specialize (G4 (Z.of_N post_id)). rewrite Hrun in G4. cbn in G4.
    rewrite G4 in Hfile. injection Hfile as <-. auto.
  - apply create_post_file in Hrun
      as [H|[p [e [tags [items [texts [_ [_ [_ [Hs [_ [_ [_ H]]]]]]]]]]]]];
      rewrite H in Hfile; injection Hfile as <-; [auto|].
    match goal with
    | |- context [fold_left ?f ?tags ?d0] =>
        destruct (insert_all_tags_keys (p_id p) tags d0) as [Ha [Hq _]]
    end.
    cbn zeta in Ha, Hq. cbn [authors posts] in Ha, Hq.
    unfold posts_have_authors. rewrite Ha, Hq. split; [reflexivity|].
    intros Hh q Hin. apply in_app_or in Hin as [Hin|[<-|[]]]; auto.
    apply select_author_id_Some in Hs as [a [Ha' [_ <-]]]. now apply in_map.
  - apply update_post_file in Hrun
      as [H|[values [d0 [_ [_ [_ [_ [Hd0 H]]]]]]]].
    { rewrite H in Hfile. injection Hfile as <-. auto. }
    assert (Hau : authors d0 = authors d)
      by (now destruct Hd0 as [[-> _]| ->]).
    assert (Hpo : posts_have_authors d -> posts_have_authors d0).
    { destruct Hd0 as [[-> _]| ->]; [exact id|].
      unfold posts_have_authors, update_post_row. cbn [authors posts].
      intros Hh q Hin. apply in_map_iff in Hin as [p [<- Hin]].
      destruct (p_id p =? Z.of_N post_id); cbn [p_author_id]; now apply Hh. }
    destruct H as [[_ H]|[tags [items [texts [_ [_ [_ [_ H]]]]]]]];
      rewrite H in Hfile; injection Hfile as <-; [auto|].
    match goal with
    | |- context [fold_left ?f ?tags ?d1] =>
        destruct (insert_all_tags_keys (Z.of_N post_id) tags d1)
          as [Ha [Hq _]]
    end.
    cbn zeta in Ha, Hq. cbn [authors posts delete_post_tags] in Ha, Hq.
    unfold posts_have_authors in *. rewrite Ha, Hq, Hau.
    split; [reflexivity|]. intros Hh. rewrite <- Hau. now apply Hpo.
  - apply delete_post_file in Hrun as [H|[_ [_ [_ H]]]];
      rewrite H in Hfile; injection Hfile as <-; [auto|].
    unfold posts_have_authors.
    cbn [delete_post_row delete_post_tags posts authors].
    split; [reflexivity|]. intros Hh q Hin.
    apply list_elem_of_In, list_elem_of_filter in Hin as [_ Hin].
    apply list_elem_of_In in Hin. now apply Hh.
  - rewrite Hrun in G3. cbn in G3. rewrite G3 in Hfile.
    injection Hfile as <-. auto.
Qed.

(** Author ids are unique in every state the store reaches, and every
    post has its author. *)
Lemma reachable_references (d : db) :
  reachable d -> author_ids_unique d /\ posts_have_authors d.
Proof.
  induction 1 as [|d d' Hr [IH1 IH2] Hstep].
  - split; [constructor|intros p []].
  - destruct Hstep
      as [P d file d' st Himp|d d' Hadm|E d rq r h' d' Hrun Hfile].
    + apply import_data_authors in Himp as [_ [H1 H2]]. auto.
    + destruct (ensure_sys_admin_rows d) as [d2 [H [_ [Hp [_ [[more Hm] Hu]]]]]].
      rewrite H in Hadm. injection Hadm as <-. split; [auto|].
      unfold posts_have_authors. rewrite Hp, Hm, map_app.
      intros p Hin. apply in_or_app. left. now apply IH2.
    + destruct (route_references E rq d d' r h' Hrun Hfile) as [Ha Hp].
      unfold author_ids_unique. rewrite Ha. auto.
Qed.

(** What [get_post] answers for an id that can be bound, by the first row
    of its join. *)
Lemma get_post_answer (post_id : Z) (d : db) :
  sqlite_int post_id ->
  (get_post post_id (serving (Some d))).1 =
  match head (filter (fun pa => p_id (fst pa) =? post_id)
                (join_posts_authors d)) with
  | None => mk_response 404 (BError "Post not found")
  | Some pa =>
      mk_response 200
        (BPost (mk_post_detail (p_id (fst pa))
                  (mk_author_detail
                     (a_first_name (snd pa) ++ " " ++ a_last_name (snd pa))
                     (a_email (snd pa)) (a_company (snd pa))
                     (a_job_title (snd pa)) (a_bio (snd pa))
                     (a_follower_count (snd pa))
                     (negb (a_verified (snd pa) =? 0)))
                  (p_text (fst pa)) (p_date (fst pa)) (p_likes (fst pa))
                  (p_comments (fst pa)) (p_shares (fst pa))
                  (p_image_svg (fst pa)) (p_category (fst pa))
                  (p_location (fst pa)) (select_tags d post_id)))
  end.
Proof.
  intros Hrange. unfold get_post, try_except. hstep. hstep.
  unfold bind_int. rewrite (sqlite_intb_true _ Hrange). cbn [bind].
  destruct (head _) as [pa|]; reflexivity.
Qed.

Lemma filter_by_post_id (post_id : Z) (l : list (post * author)) :
  map fst (filter (fun pa => p_id (fst pa) =? post_id) l)
  = filter (fun p => p_id p =? post_id) (map fst l).
Proof.
  induction l as [|pa l IH]; [reflexivity|].
  cbn [map]. destruct (p_id (fst pa) =? post_id) eqn:E.
  - rewrite !filter_cons_True by (rewrite E; exact I).
    cbn [map]. now rewrite IH.
  - rewrite !filter_cons_False by (rewrite E; exact id). exact IH.
Qed.

(** The rows of the join for one post id, when every post has its one
    author. *)
Lemma join_rows_of_id (d : db) (post_id : Z) :
  author_ids_unique d -> posts_have_authors d ->
  map fst (filter (fun pa => p_id (fst pa) =? post_id)
             (join_posts_authors d))
  = filter (fun p => p_id p =? post_id) (posts d).
Proof.
  intros Hu Hh. now rewrite filter_by_post_id, join_one_row_per_post.
Qed.

End References.

Section HandlerEffects.

#[local] Abbreviation tag_key := (fun t : post_tag => (t_post_id t, t_tag t)).

Lemma join_row_In (d : db) (pa : post * author) :
  In pa (join_posts_authors d) ->
  In (fst pa) (posts d) /\ In (snd pa) (authors d) /\
  a_id (snd pa) = p_author_id (fst pa).
Proof.
  unfold join_posts_authors. intros H.
  apply in_flat_map in H as [p [Hp H]].
  apply in_map_iff in H as [a [<- Ha]].
  apply list_elem_of_In, list_elem_of_filter in Ha as [Hid Ha].
  apply Is_true_true, Z.eqb_eq in Hid. apply list_elem_of_In in Ha.
  cbn [fst snd]. auto.
Qed.

Lemma get_post_absent (d : db) (post_id : Z) :
  sqlite_int post_id ->
  has_post d post_id = false ->
  (get_post post_id (serving (Some d))).1
  = mk_response 404 (BError "Post not found").
Proof.
  intros Hrange Hno. rewrite get_post_answer by assumption.
  rewrite filter_none; [reflexivity|].
  intros pa Hin Hid. apply Is_true_true, Z.eqb_eq in Hid.
  apply join_row_In in Hin as [Hp _].
  assert (Hhas : has_post d post_id = true); [|congruence].
  unfold has_post. apply existsb_exists. exists (fst pa).
  split; [assumption|now apply Z.eqb_eq].
Qed.


(** A request that names none of the four columns leaves the rows as they
    are. *)
Lemma update_post_row_none (d : db) (post_id : Z) :
  posts (update_post_row d post_id no_update) = posts d.
Proof.
  unfold update_post_row, no_update. cbn [posts uv_content uv_category
    uv_location uv_imageSvg updated].
  rewrite <- (map_id (posts d)) at 2. apply map_ext.
  intros p. destruct (p_id p =? post_id); [|reflexivity]. now destruct p.
Qed.

(** [update_post] on a post that is there, for a request that can be
    stored. *)
Lemma update_post_updated (E : engine) (post_id : Z) (data : json) (d : db)
    (values : update_values) (tags : option (list string)) :
  sqlite_int post_id ->
  has_post d post_id = true ->
  request_update_values E data = Ok values ->
  request_update_tags E data = Ok tags ->
  let d0 := update_post_row d post_id values in
  let d' :=
    match tags with
    | Some texts =>
        fold_left (fun d t => insert_post_tag d post_id t) texts
          (delete_post_tags d0 post_id)
    | None => d0
    end in
  exists d1,
    update_post E post_id data (serving (Some d))
    = (mk_response 200 (BMessage "Post updated successfully"),
       mk_hstate (Some d1) (Some d1) 0) /\
    authors d1 = authors d' /\ posts d1 = posts d' /\
    map tag_key (post_tags d1) = map tag_key (post_tags d') /\
    (forall i, select_tags d1 i = select_tags d' i).
Proof.
  intros Hrange Hhas Hvalues Htags. cbn zeta.
  unfold update_post, try_except. hstep. hstep.
  unfold bind_int at 1. rewrite (sqlite_intb_true _ Hrange). cbn [bind].
  rewrite Hhas. cbn [negb].
  unfold request_update_values in Hvalues.
  destruct (update_param data "content") as [content| |];
    try discriminate Hvalues; cbn [bind] in Hvalues; hstep.
  destruct (update_param data "category") as [category| |];
    try discriminate Hvalues; cbn [bind] in Hvalues; hstep.
  destruct (update_param data "location") as [location| |];
    try discriminate Hvalues; cbn [bind] in Hvalues; hstep.
  destruct (update_param data "imageSvg") as [image_svg| |];
    try discriminate Hvalues; cbn [bind] in Hvalues; hstep.
  assert (Htail : forall d0,
    match
      (let! has_tags := h_lift (json_in "tags" data) in
       let! _ :=
         if has_tags then
           let! _ :=
             sql_execute (fun d => Ok (delete_post_tags d post_id)) in
           let! tags := h_lift (json_item data "tags") in
           let! tags := h_lift (json_iter tags) in
           h_for tags
             (fun tag => sql_execute (insert_request_tag E post_id tag))
         else h_ret tt in
       let! _ := conn_commit in
       let! _ := conn_close in
       h_ret (mk_response 200 (BMessage "Post updated successfully")))
        (mk_hstate (Some d) (Some d0) 1)
    with
    | (Ok r, h') => (r, h')
    | (Raise e, h') => (mk_response 500 (BException e), h')
    | (Beyond, h') => (mk_response 0 (BError ""), h')
    end
    = (mk_response 200 (BMessage "Post updated successfully"),
       let d1 := match tags with
                 | Some texts =>
                     fold_left (fun d t => insert_post_tag d post_id t) texts
                       (delete_post_tags d0 post_id)
                 | None => d0
                 end in
       mk_hstate (Some d1) (Some d1) 0)).
  { intros d0. unfold request_update_tags in Htags.
    destruct (json_in "tags" data) as [[|]| |]; try discriminate Htags;
      cbn [bind] in Htags; hstep.
    - hstep. hstep.
      destruct (json_item data "tags") as [tv| |]; try discriminate Htags;
        cbn [bind] in Htags; hstep.
      destruct (json_iter tv) as [items| |]; try discriminate Htags;
        cbn [bind] in Htags; hstep.
      destruct (h_for_request_tags E post_id items (Some d)
                  (delete_post_tags d0 post_id) 1) as [v [-> Htexts]].
      destruct (tag_texts E items) as [texts| |] eqn:Htt;
        try discriminate Htags.
      cbn [bind] in Htags. injection Htags as <-.
      rewrite (Htexts texts eq_refl). hstep. hstep. reflexivity.
    - injection Htags as <-. hstep. hstep. hstep. reflexivity. }
  destruct (is_some content || is_some category || is_some location
            || is_some image_svg) eqn:Hany.
  - unfold h_bind at 1, sql_execute at 1. cbn [hs_view].
    unfold update_request_post at 1.
    destruct (bind_update E content) as [c1| |]; try discriminate Hvalues.
    destruct (bind_update E category) as [c2| |]; try discriminate Hvalues.
    destruct (bind_update E location) as [c3| |]; try discriminate Hvalues.
    destruct (bind_update E image_svg) as [c4| |]; try discriminate Hvalues.
    cbn [bind] in *. injection Hvalues as <-. cbn [hs_file hs_open].
    rewrite Htail. eexists. split; [reflexivity|]. auto.
  - hstep. rewrite Htail. cbn zeta. eexists. split; [reflexivity|].
    destruct content, category, location, image_svg; try discriminate Hany.
    cbn [bind_update bind] in Hvalues. injection Hvalues as <-.
    fold no_update. pose proof (update_post_row_none d post_id) as Hrow.
    destruct tags as [texts|].
    + destruct (insert_all_tags_keys post_id texts
                  (delete_post_tags d post_id)) as [Ha [Hp Hk]].
      destruct (insert_all_tags_keys post_id texts
                  (delete_post_tags (update_post_row d post_id no_update)
                     post_id)) as [Ha' [Hp' Hk']].
      cbn zeta in *. cbn [delete_post_tags authors posts post_tags] in *.
      assert (Hkeys :
        map tag_key (post_tags
          (fold_left (fun d t => insert_post_tag d post_id t) texts
             (delete_post_tags d post_id))) =
        map tag_key (post_tags
          (fold_left (fun d t => insert_post_tag d post_id t) texts
             (delete_post_tags (update_post_row d post_id no_update)
                post_id)))).
      { rewrite Hk, Hk'. reflexivity. }
      rewrite Ha, Ha', Hp, Hp', Hrow.
      repeat split; try assumption.
      intros i. rewrite !select_tags_keys. now rewrite Hkeys.
    + repeat split; try reflexivity. symmetry. exact Hrow.
Qed.

End HandlerEffects.

(* ===================================================================== *)
(** * Posts and their authors                                             *)
(* ===================================================================== *)

(** X10: in every state the store reaches, author ids are unique and the
    author id of every post is the id of a stored author, so that the join
    of [posts] with [authors], from which the API reads, has exactly one row
    for each post, in the order of the posts: no post is hidden from the
    API and none is listed twice. *)
Theorem reachable_posts_joined (d : db) (Hd : reachable d) :
  author_ids_unique d /\ posts_have_authors d /\
  map fst (join_posts_authors d) = posts d.
Proof.
  destruct (reachable_references d Hd) as [Hu Hh].
  split; [assumption|]. split; [assumption|].
  now apply join_one_row_per_post.
Qed.

Lemma reachable_posts_joined_witness :
  map fst (join_posts_authors sample_store_after_create)
  = posts sample_store_after_create.
Proof.
  apply (reachable_posts_joined sample_store_after_create).
  eapply reach_step; [eapply reach_step; [apply reach_schema|]|].
  - eapply (step_import cpython_linux _ (Some sample_file)).
    vm_compute. reflexivity.
  - eapply (step_request sample_engine _
              (CreatePost sample_now sample_request));
      vm_compute; reflexivity.
Defined.

(** X11: on a reachable store [get_post], for an id of the URL (a natural
    number) that SQLite can hold, answers 200 exactly when a post of that id
    is stored, with the content, the date and the counters of the row of
    that id, its author and its tags; for any other such id it answers 404
    "Post not found". *)
Theorem get_post_found_iff (d : db) (post_id : Z) (Hd : reachable d)
    (Hurl : 0 <= post_id) (Hrange : sqlite_int post_id) :
  (has_post d post_id = true ->
   exists p a pd,
     (get_post post_id (serving (Some d))).1 = mk_response 200 (BPost pd) /\
     In p (posts d) /\ p_id p = post_id /\
     In a (authors d) /\ a_id a = p_author_id p /\
     pd_id pd = post_id /\ pd_content pd = p_text p /\
     pd_date pd = p_date p /\ pd_likes pd = p_likes p /\
     pd_comments pd = p_comments p /\ pd_shares pd = p_shares p /\
     ad_email (pd_author pd) = a_email a /\
     pd_tags pd = select_tags d post_id) /\
  (has_post d post_id = false ->
   (get_post post_id (serving (Some d))).1
   = mk_response 404 (BError "Post not found")).
Proof.
  split; [|now apply get_post_absent].
  intros Hhas. destruct (reachable_references d Hd) as [Hu Hh].
  pose proof (join_rows_of_id d post_id Hu Hh) as Hrows.
  rewrite get_post_answer by assumption.
  destruct (filter (fun pa => p_id (fst pa) =? post_id)
              (join_posts_authors d)) as [|pa l] eqn:Hf.
  - exfalso. cbn [map] in Hrows.
    unfold has_post in Hhas. apply existsb_exists in Hhas as [p [Hp Hid]].
    assert (Hin : p ∈ filter (fun p => p_id p =? post_id) (posts d)).
    { apply list_elem_of_filter. split; [now rewrite Hid|].
      now apply list_elem_of_In. }
    rewrite <- Hrows in Hin. inversion Hin.
  - assert (Hin : pa ∈ filter (fun pa => p_id (fst pa) =? post_id)
                    (join_posts_authors d)) by (rewrite Hf; left).
    apply list_elem_of_filter in Hin as [Hid Hin].
    apply Is_true_true, Z.eqb_eq in Hid.
    apply list_elem_of_In, join_row_In in Hin as [Hp [Ha Hpa]].
    cbn [head]. exists (fst pa), (snd pa). eexists.
    split; [reflexivity|]. cbn [pd_id pd_content pd_date pd_likes pd_comments
      pd_shares pd_author ad_email pd_tags].
    repeat split; assumption.
Qed.

Lemma get_post_found_iff_witness :
  exists p a pd,
    (get_post 7 (serving (Some sample_store))).1
      = mk_response 200 (BPost pd) /\
    In p (posts sample_store) /\ p_id p = 7 /\
    In a (authors sample_store) /\ a_id a = p_author_id p /\
    pd_id pd = 7 /\ pd_content pd = p_text p /\
    pd_date pd = p_date p /\ pd_likes pd = p_likes p /\
    pd_comments pd = p_comments p /\ pd_shares pd = p_shares p /\
    ad_email (pd_author pd) = a_email a /\
    pd_tags pd = select_tags sample_store 7.
Proof.
  apply (get_post_found_iff sample_store 7).
  - eapply reach_step; [apply reach_schema|].
    eapply (step_import cpython_linux _ (Some sample_file)).
    vm_compute. reflexivity.
  - lia.
  - unfold sqlite_int. lia.
  - vm_compute. reflexivity.
Defined.

(* ===================================================================== *)
(** * What the writing requests do                                        *)
(* ===================================================================== *)

(** X12: [delete_post], for an id of the URL (a natural number) that
    SQLite can hold.  On the id of a stored post it answers 200 and removes
    the post and all its tag rows; authors, the other posts and their tags
    stay as they are, and a [get_post] for the id then answers 404.  On any
    other such id it answers 404 and leaves the store as it is. *)
Theorem delete_post_effect (d : db) (post_id : Z) (Hurl : 0 <= post_id)
    (Hrange : sqlite_int post_id) :
  if has_post d post_id then
    exists d',
      delete_post post_id (serving (Some d))
      = (mk_response 200 (BMessage "Post deleted successfully"),
         mk_hstate (Some d') (Some d') 0) /\
      has_post d' post_id = false /\
      select_tags d' post_id = [] /\
      authors d' = authors d /\
      (forall other, other <> post_id ->
         filter (fun p => p_id p =? other) (posts d')
         = filter (fun p => p_id p =? other) (posts d) /\
         select_tags d' other = select_tags d other) /\
      (get_post post_id (serving (Some d'))).1
      = mk_response 404 (BError "Post not found")
  else
    delete_post post_id (serving (Some d))
    = (mk_response 404 (BError "Post not found"),
       mk_hstate (Some d) (Some d) 0).
Proof.
  destruct (has_post d post_id) eqn:Hhas.
  - exists (delete_post_row (delete_post_tags d post_id) post_id).
    assert (Hgone : has_post (delete_post_row (delete_post_tags d post_id)
                                post_id) post_id = false).
    { apply not_true_is_false. intros H. unfold has_post in H.
      apply existsb_exists in H as [p [Hp Hid]].
      cbn [delete_post_row delete_post_tags posts] in Hp.
      apply list_elem_of_In, list_elem_of_filter in Hp as [Hne _].
      rewrite Hid in Hne. destruct Hne. }
    split; [|split; [exact Hgone|split; [|split; [reflexivity|split]]]].
    + unfold delete_post, try_except. hstep. hstep.
      unfold bind_int. rewrite (sqlite_intb_true _ Hrange). cbn [bind].
      rewrite Hhas. reflexivity.
    + unfold select_tags. cbn [delete_post_row delete_post_tags post_tags].
      rewrite filter_filter_none; [reflexivity|].
      intros t Hid Hne. apply Is_true_true in Hid. rewrite Hid in Hne.
      exact Hne.
    + intros other Hne.
      unfold select_tags.
      cbn [delete_post_row delete_post_tags post_tags posts].
      split; [|f_equal]; apply filter_filter_keep; intros x Hid;
        apply Is_true_true, Z.eqb_eq in Hid; rewrite Hid;
        apply Is_true_true, negb_true_iff, Z.eqb_neq; exact Hne.
    + now apply get_post_absent.
  - unfold delete_post, try_except. hstep. hstep.
    unfold bind_int. rewrite (sqlite_intb_true _ Hrange). cbn [bind].
    rewrite Hhas. reflexivity.
Qed.

Lemma delete_post_effect_witness :
  exists d',
    delete_post 7 (serving (Some sample_store))
    = (mk_response 200 (BMessage "Post deleted successfully"),
       mk_hstate (Some d') (Some d') 0) /\
    has_post d' 7 = false /\ select_tags d' 7 = [].
Proof.
  assert (Hurl : 0 <= 7) by lia.
  assert (Hid : sqlite_int 7) by (unfold sqlite_int; lia).
  pose proof (delete_post_effect sample_store 7 Hurl Hid) as H.
  change (has_post sample_store 7) with true in H.
  destruct H as [d' [Hrun [Hgone [Htags _]]]].
  exists d'. repeat split; assumption.
Defined.



Section UpdateRows.

Lemma update_post_row_rows (data : update_values) (post_id : Z)
    (l : list post) :
  Forall2 (fun p p' =>
             if p_id p =? post_id then updated_from data p p' else p' = p)
    l
    (map (fun p =>
            if p_id p =? post_id then
              mk_post (p_id p) (p_author_id p)
                (updated (uv_content data) (p_text p)) (p_date p)
                (p_likes p) (p_comments p) (p_shares p)
                (p_total_engagements p) (p_engagement_rate p)
                (updated (uv_imageSvg data) (p_image_svg p))
                (updated (uv_category data) (p_category p))
                (updated (uv_location data) (p_location p))
            else p) l).
Proof.
  induction l as [|p l IH]; cbn [map]; constructor; [|exact IH].
  destruct (p_id p =? post_id); [|reflexivity].
  unfold updated_from. cbn. repeat split.
Qed.

End UpdateRows.

(** X14: [update_post], for an id of the URL (a natural number) that
    SQLite can hold and a request that can be stored: [values] is what it
    asks to write into the four columns, as bound, and [tags] the tags it
    brings, as stored.  On the id of a stored post it answers 200.  Of that
    post the text, image, category and location become those of the
    request where it brings them; its id, author, date and counters stay,
    as do all other posts and the authors.  Its tags become the list of
    the request when the request has one, in its order and with its
    repetitions, and stay otherwise; the tags of the other posts stay.  On
    any other such id it answers 404 and leaves the store as it is. *)
Theorem update_post_effect (E : engine) (d : db) (post_id : Z) (data : json)
    (values : update_values) (tags : option (list string))
    (Hurl : 0 <= post_id) (Hrange : sqlite_int post_id) :
  request_update_values E data = Ok values ->
  request_update_tags E data = Ok tags ->
  if has_post d post_id then
    exists d',
      update_post E post_id data (serving (Some d))
      = (mk_response 200 (BMessage "Post updated successfully"),
         mk_hstate (Some d') (Some d') 0) /\
      authors d' = authors d /\
      Forall2 (fun p p' =>
                 if p_id p =? post_id then updated_from values p p'
                 else p' = p)
        (posts d) (posts d') /\
      select_tags d' post_id =
        match tags with
        | Some texts => texts
        | None => select_tags d post_id
        end /\
      (forall other, other <> post_id ->
         select_tags d' other = select_tags d other)
  else
    update_post E post_id data (serving (Some d))
    = (mk_response 404 (BError "Post not found"),
       mk_hstate (Some d) (Some d) 0).
Proof.
  intros Hvalues Htags.
  destruct (has_post d post_id) eqn:Hhas.
  - destruct (update_post_updated E post_id data d values tags Hrange Hhas
                Hvalues Htags)
      as [d1 [Hrun [Ha [Hp [_ Ht]]]]].
    cbn zeta in Ha, Hp, Ht.
    exists d1. split; [exact Hrun|].
    pose proof (update_post_row_rows values post_id (posts d)) as Hrows.
    destruct tags as [texts|].
    + destruct (insert_all_tags_keys post_id texts
                  (delete_post_tags (update_post_row d post_id values)
                     post_id))
        as [Ha' [Hp' _]].
      cbn zeta in Ha', Hp'.
      destruct (select_tags_replaced (update_post_row d post_id values)
                  post_id texts) as [T1 T2].
      cbn zeta in T1, T2.
      rewrite Ha, Hp, Ha', Hp', !Ht.
      split; [reflexivity|]. split; [exact Hrows|]. split; [exact T1|].
      intros other Hne. rewrite Ht. now apply T2.
    + rewrite Ha, Hp, !Ht.
      split; [reflexivity|]. split; [exact Hrows|]. split; [reflexivity|].
      intros other _. now rewrite Ht.
  - unfold update_post, try_except. hstep. hstep.
    unfold bind_int. rewrite (sqlite_intb_true _ Hrange). cbn [bind].
    rewrite Hhas. reflexivity.
Qed.

Lemma update_post_effect_witness :
  exists d',
    update_post sample_engine 7 sample_update (serving (Some sample_store))
    = (mk_response 200 (BMessage "Post updated successfully"),
       mk_hstate (Some d') (Some d') 0) /\
    authors d' = authors sample_store /\
    select_tags d' 7 = select_tags sample_store 7 /\
    map p_category (posts d') = [Some "news"].
Proof.
  assert (Hurl : 0 <= 7) by lia.
  assert (Hid : sqlite_int 7) by (unfold sqlite_int; lia).
  pose proof (update_post_effect sample_engine sample_store 7 sample_update
                (mk_update_values None (Some (Some "news")) None None) None
                Hurl Hid) as H.
  change (has_post sample_store 7) with true in H.
  destruct H as [d' [Hrun [Ha [Hrows [Htags _]]]]].
  - vm_compute. reflexivity.
  - vm_compute. reflexivity.
  - exists d'. repeat split; try assumption.
    change (posts sample_store) with
      [mk_post 7 1 (Some "hello") None 0 0 0 0 (Some float_zero) None None
         None] in Hrows.
    inversion Hrows as [|p p' l l' Hp Hl]; subst.
    inversion Hl; subst. cbn [p_id] in Hp. change (7 =? 7) with true in Hp.
    destruct Hp as [_ [_ [_ [_ [_ [_ [_ [_ [_ [_ [Hc _]]]]]]]]]]].
    cbn [map]. now rewrite Hc.
Defined.

(** X15: no request of the API adds, changes or removes an author: the
    table [authors] after a request is the table before it. *)
Theorem requests_keep_authors (E : engine) (rq : request) (d d' : db)
    (r : response) (h' : hstate) :
  route E rq (serving (Some d)) = (r, h') ->
  hs_file h' = Some d' ->
  authors d' = authors d.
Proof.
  intros Hrun Hfile.
  now destruct (route_references E rq d d' r h' Hrun Hfile).
Qed.

Lemma requests_keep_authors_witness :
  authors sample_store_after_create = authors sample_store.
Proof.
  apply (requests_keep_authors sample_engine
           (CreatePost sample_now sample_request)
           sample_store sample_store_after_create
           (create_post sample_engine sample_now sample_request
              (serving (Some sample_store))).1
           (create_post sample_engine sample_now sample_request
              (serving (Some sample_store))).2).
  - vm_compute. reflexivity.
  - vm_compute. reflexivity.
Defined.

(** X16: the five GET routes never write: whatever the arguments, the
    state of the connection and the answer, the database file after the
    request is the file before it. *)
Theorem get_requests_read_only (E : engine) (rq : request) (h : hstate) :
  is_get rq = true -> hs_file (route E rq h).2 = hs_file h.
Proof.
  pose proof (get_handlers_file E h) as [G1 [G2 [G3 [G4 G5]]]].
  destruct rq; cbn [is_get route]; intros Hget; try discriminate; auto.
Qed.

Lemma get_requests_read_only_witness :
  hs_file (route sample_engine (GetPosts page_3_of_10)
             (serving (Some store_25))).2
  = Some store_25.
Proof.
  apply (get_requests_read_only sample_engine (GetPosts page_3_of_10)
           (serving (Some store_25))).
  reflexivity.
Defined.

(** X17: on a database file without tables (the importer was never run)
    every request is answered 500, except a create request that lacks
    the author email or the content, which is answered 400 before the
    database is opened; and the file stays without tables. *)
Theorem route_without_tables (E : engine) (rq : request) :
  hs_file (route E rq (serving None)).2 = None /\
  (status (route E rq (serving None)).1 = 500 \/
   exists now data,
     rq = CreatePost now data /\
     status (route E rq (serving None)).1 = 400 /\
     (missing data "authorEmail" = true \/
      missing data "content" = true)).
Proof.
  destruct (route E rq (serving None)) as [r h'] eqn:Hrun. cbn [fst snd].
  destruct rq as [| |args|post_id|now data|post_id data|post_id|];
    cbn [route] in Hrun;
    unfold get_stats, get_categories, get_authors, get_post, get_posts,
      create_post, update_post, delete_post, try_except in Hrun.
  - hstep_in Hrun. hstep_in Hrun. injection Hrun as <- <-. auto.
  - hstep_in Hrun. hstep_in Hrun. injection Hrun as <- <-. auto.
  - unfold args_int in Hrun.
    destruct (arg_page args) as [sp|];
      [destruct (py_int sp) as [page|e|] eqn:Hp|]; hstep_in Hrun;
      try (injection Hrun as <- <-; now auto);
      try (now apply py_int_within in Hp);
      (destruct (arg_limit args) as [sl|];
       [destruct (py_int sl) as [limit|e|] eqn:Hl|]; hstep_in Hrun;
       try (injection Hrun as <- <-; now auto);
       try (now apply py_int_within in Hl);
       hstep_in Hrun; hstep_in Hrun; injection Hrun as <- <-; auto).
  - hstep_in Hrun. hstep_in Hrun. injection Hrun as <- <-. auto.
  - destruct (json_get data "authorEmail" JNull) as [email|e|] eqn:H1;
      hstep_in Hrun;
      [|injection Hrun as <- <-; now auto|now apply json_get_within in H1].
    destruct (truthy email) eqn:T1; cbn [negb h_ret] in Hrun.
    2:{ injection Hrun as <- <-. split; [reflexivity|]. right.
        exists now, data. split; [reflexivity|]. split; [reflexivity|].
        left. unfold missing. now rewrite H1, T1. }
    destruct (json_get data "content" JNull) as [content|e|] eqn:H2;
      hstep_in Hrun;
      [|injection Hrun as <- <-; now auto|now apply json_get_within in H2].
    destruct (truthy content) eqn:T2; cbn [negb h_ret] in Hrun.
    2:{ injection Hrun as <- <-. split; [reflexivity|]. right.
        exists now, data. split; [reflexivity|]. split; [reflexivity|].
        right. unfold missing. now rewrite H2, T2. }
    hstep_in Hrun. hstep_in Hrun. injection Hrun as <- <-. auto.
  - hstep_in Hrun. hstep_in Hrun. injection Hrun as <- <-. auto.
  - hstep_in Hrun. hstep_in Hrun. injection Hrun as <- <-. auto.
  - hstep_in Hrun. hstep_in Hrun. injection Hrun as <- <-. auto.
Qed.

(* ===================================================================== *)
(** * ORDER BY, LIMIT and the listings                                    *)
(* ===================================================================== *)

Section Sorting.

Context {A : Type} (before : A -> A -> bool).

Lemma ordered_tail (x : A) (l : list A) :
  ordered before (x :: l) -> ordered before l.
Proof. destruct l as [|y r]; cbn; tauto. Qed.

Lemma ordered_drop (n : nat) (l : list A) :
  ordered before l -> ordered before (drop n l).
Proof.
  revert l. induction n as [|n IH]; intros l H; [exact H|].
  destruct l as [|x l]; [exact H|]. cbn [drop]. apply IH.
  now apply ordered_tail in H.
Qed.

Lemma ordered_take (n : nat) (l : list A) :
  ordered before l -> ordered before (take n l).
Proof.
  revert n. induction l as [|x l IH]; intros n H.
  - now destruct n.
  - destruct n as [|n]; [exact I|]. cbn [take].
    destruct l as [|y r]; [now destruct n|].
    destruct n as [|n]; [exact I|].
    destruct H as [Hxy H]. specialize (IH (S n) H). cbn [take] in *.
    split; assumption.
Qed.

Lemma ordered_ext (before' : A -> A -> bool) (l : list A) :
  (forall x y, before x y = before' x y) ->
  ordered before l -> ordered before' l.
Proof.
  intros E. induction l as [|x l IH]; [exact id|].
  destruct l as [|y r]; [exact id|].
  intros [Hxy H]. split; [now rewrite <- E|now apply IH].
Qed.

Lemma insert_sorted_perm (x : A) (l : list A) :
  insert_sorted before x l ≡ₚ x :: l.
Proof.
  induction l as [|y l IH]; cbn [insert_sorted]; [reflexivity|].
  destruct (before y x); [|reflexivity].
  rewrite IH. apply perm_swap.
Qed.

Lemma order_by_perm (l : list A) : order_by before l ≡ₚ l.
Proof.
  unfold order_by.
  assert (H : forall acc,
            fold_left (fun acc x => insert_sorted before x acc) l acc
            ≡ₚ (acc ++ l)%list).
  { induction l as [|x l IH]; intros acc; cbn [fold_left].
    - now rewrite app_nil_r.
    - rewrite IH, insert_sorted_perm. apply Permutation_middle. }
  apply H.
Qed.

Lemma order_by_In (l : list A) (x : A) : In x (order_by before l) <-> In x l.
Proof.
  split; apply Permutation_in; [|symmetry]; apply order_by_perm.
Qed.

Hypothesis before_total : forall x y, before x y = false -> before y x = true.

Lemma insert_sorted_ordered (x : A) (l : list A) :
  ordered before l -> ordered before (insert_sorted before x l).
Proof.
  induction l as [|y l IH]; intros H; [exact I|].
  cbn [insert_sorted]. destruct (before y x) eqn:Eyx.
  - destruct l as [|z r]; [cbn; auto|].
    destruct H as [Hyz H]. specialize (IH H). cbn [insert_sorted] in *.
    destruct (before z x) eqn:Ezx.
    + split; assumption.
    + split; [assumption|]. split; [now apply before_total|assumption].
  - split; [now apply before_total|assumption].
Qed.

Lemma order_by_ordered (l : list A) : ordered before (order_by before l).
Proof.
  unfold order_by.
  assert (H : forall acc, ordered before acc ->
            ordered before
              (fold_left (fun acc x => insert_sorted before x acc) l acc)).
  { induction l as [|x l IH]; intros acc Hacc; cbn [fold_left];
      [assumption|].
    apply IH. now apply insert_sorted_ordered. }
  apply H. exact I.
Qed.

End Sorting.

Lemma ordered_map {A B} (before : B -> B -> bool) (g : A -> B) (l : list A) :
  ordered (fun x y => before (g x) (g y)) l -> ordered before (map g l).
Proof.
  induction l as [|x l IH]; [exact id|].
  destruct l as [|y r]; [exact id|].
  intros [Hxy H]. split; [assumption|now apply IH].
Qed.

Section TextOrder.

Lemma str_compare_antisym (a b : string) :
  str_compare b a = CompOpp (str_compare a b).
Proof.
  revert b. induction a as [|x a IH]; intros [|y b]; cbn [str_compare];
    try reflexivity.
  rewrite (Nat.compare_antisym (code x) (code y)).
  destruct (code x ?= code y)%nat; cbn [CompOpp]; auto.
Qed.

Lemma str_leb_total (a b : string) : str_leb a b = false -> str_leb b a = true.
Proof.
  unfold str_leb. rewrite (str_compare_antisym a b).
  destruct (str_compare a b); cbn; congruence.
Qed.

Lemma opt_str_leb_total (a b : option string) :
  opt_str_leb a b = false -> opt_str_leb b a = true.
Proof.
  destruct a as [a|], b as [b|]; cbn; try congruence. apply str_leb_total.
Qed.

Lemma author_before_total (x y : author) :
  author_before x y = false -> author_before y x = true.
Proof.
  unfold author_before.
  rewrite (str_compare_antisym (a_first_name x) (a_first_name y)).
  destruct (str_compare (a_first_name x) (a_first_name y)); cbn;
    try congruence.
  apply str_leb_total.
Qed.

Lemma Z_geb_total (f : post * author -> Z) (y x : post * author) :
  (f x <=? f y) = false -> (f y <=? f x) = true.
Proof. intros H. apply Z.leb_gt in H. apply Z.leb_le. lia. Qed.

Lemma distinct_In (l seen : list string) (x : string) :
  In x (distinct seen l) <-> In x l /\ ~ In x seen.
Proof.
  revert seen. induction l as [|y l IH]; intros seen; cbn [distinct In].
  - tauto.
  - destruct (str_in y seen) eqn:E.
    + apply str_in_In in E. rewrite IH. split; [tauto|].
      intros [[->|H] Hn]; [contradiction|tauto].
    + apply str_in_false in E. cbn [In]. rewrite IH. cbn [In]. split.
      * intros [->|[H Hn]]; [tauto|]. split; [tauto|]. tauto.
      * intros [[->|H] Hn]; [tauto|].
        destruct (string_dec y x) as [->|Hne]; [tauto|]. right. tauto.
Qed.

Lemma distinct_NoDup (l seen : list string) : NoDup (distinct seen l).
Proof.
  revert seen. induction l as [|y l IH]; intros seen; cbn [distinct].
  - constructor.
  - destruct (str_in y seen); [apply IH|].
    apply NoDup_cons. split; [|apply IH].
    intros H. apply list_elem_of_In, distinct_In in H as [_ H].
    apply H. now left.
Qed.

End TextOrder.

Section Listing.

(** What [get_posts] lists: nothing when it answers an error, and
    otherwise a window of the sorted selection. *)
Lemma get_posts_listed (E : engine) (args : posts_args) (d : db) :
  response_posts (get_posts E args (serving (Some d))).1 = [] \/
  exists page limit,
    args_int (arg_page args) 1 = Ok page /\
    args_int (arg_limit args) 10 = Ok limit /\
    response_posts (get_posts E args (serving (Some d))).1
    = map (view_post d)
        (limit_offset limit ((page - 1) * limit)
           (sort_rows (request_rank E args d)
              (strip (args_get (arg_sortBy args) "newest"))
              (selected_posts args d))).
Proof.
  rewrite get_posts_answer.
  destruct (args_int (arg_page args) 1) as [page|e|]; [|now left..].
  destruct (args_int (arg_limit args) 10) as [limit|e|]; [|now left..].
  destruct (list_checks E args page limit d) as [[]|e|]; [|now left..].
  destruct (limit =? 0); [now left|].
  right. exists page, limit.
  split; [reflexivity|]. split; reflexivity.
Qed.

Lemma sort_rows_perm (rank : post * author -> Z) (sort_by : string)
    (rows : list (post * author)) :
  sort_rows rank sort_by rows ≡ₚ rows.
Proof.
  unfold sort_rows, order_ties. cbv zeta.
  repeat case_scrutinee; rewrite order_by_perm; apply order_by_perm.
Qed.

Lemma sort_rows_ordered (d : db) (rank : post * author -> Z)
    (sort_by : string) (rows : list (post * author)) :
  ordered (fun x y => listed_before sort_by (view_post d x) (view_post d y))
    (sort_rows rank sort_by rows).
Proof.
  unfold sort_rows, listed_before. cbv zeta.
  destruct (String.eqb sort_by "oldest");
    [|destruct (String.eqb sort_by "mostLiked");
      [|destruct (String.eqb sort_by "mostCommented")]].
  - eapply ordered_ext; [|apply order_by_ordered].
    + now intros [p a] [q b].
    + intros x y. apply opt_str_leb_total.
  - eapply ordered_ext; [|apply order_by_ordered].
    + now intros [p a] [q b].
    + intros x y. apply (Z_geb_total (fun pa => p_likes (fst pa))).
  - eapply ordered_ext; [|apply order_by_ordered].
    + now intros [p a] [q b].
    + intros x y. apply (Z_geb_total (fun pa => p_comments (fst pa))).
  - eapply ordered_ext; [|apply order_by_ordered].
    + now intros [p a] [q b].
    + intros x y. apply opt_str_leb_total.
Qed.

Lemma limit_offset_ordered {A} (before : A -> A -> bool) (limit offset : Z)
    (l : list A) :
  ordered before l -> ordered before (limit_offset limit offset l).
Proof.
  intros H. unfold limit_offset. destruct (limit <? 0).
  - now apply ordered_drop.
  - now apply ordered_take, ordered_drop.
Qed.

Lemma limit_offset_In {A} (limit offset : Z) (l : list A) (x : A) :
  In x (limit_offset limit offset l) -> In x l.
Proof.
  unfold limit_offset. intros H. apply list_elem_of_In.
  apply list_elem_of_In in H. destruct (limit <? 0).
  - now apply (subseteq_drop (Z.to_nat offset) l).
  - apply (subseteq_drop (Z.to_nat offset) l).
    now apply (subseteq_take (Z.to_nat limit)).
Qed.

(** The pages of a window size [L], one after the other, are the list up
    to the end of the last of them. *)
Lemma windows_cover {A} (L : nat) (l : list A) (n k : nat) :
  flat_map (fun i => take L (drop (i * L) l)) (seq k n)
  = take (n * L) (drop (k * L) l).
Proof.
  revert k. induction n as [|n IH]; intros k; cbn [seq flat_map].
  - reflexivity.
  - rewrite IH. cbn [Nat.mul].
    rewrite <- (take_take_drop (drop (k * L) l) L (n * L)).
    rewrite drop_drop. do 3 f_equal. cbn [Nat.mul]. lia.
Qed.

End Listing.

(** X18: whatever the arguments, the posts [get_posts] lists on a store
    with its tables stand in the order [sortBy] asks for (newest first
    unless it is "oldest", "mostLiked" or "mostCommented"), each of them is
    a stored post with its stored author, and each passes the filters given:
    its category is the one asked for, and its date is there and not before
    [dateFrom], nor after the last second of [dateTo]. *)
Theorem get_posts_listing (E : engine) (args : posts_args) (d : db) :
  let category := strip (args_get (arg_category args) "") in
  let date_from := strip (args_get (arg_dateFrom args) "") in
  let date_to := strip (args_get (arg_dateTo args) "") in
  let sort_by := strip (args_get (arg_sortBy args) "newest") in
  let listed := response_posts (get_posts E args (serving (Some d))).1 in
  ordered (listed_before sort_by) listed /\
  forall pv, In pv listed ->
    (exists p a,
       In p (posts d) /\ In a (authors d) /\ a_id a = p_author_id p /\
       pv = view_post d (p, a)) /\
    (category <> "" -> pv_category pv = Some category) /\
    (date_from <> "" ->
     exists dt, pv_date pv = Some dt /\ str_leb date_from dt = true) /\
    (date_to <> "" ->
     exists dt, pv_date pv = Some dt /\
       str_leb dt (date_to ++ " 23:59:59") = true).
Proof.
  cbn zeta.
  destruct (get_posts_listed E args d) as [Hl|[page [limit [_ [_ Hl]]]]];
    rewrite Hl; [split; [exact I|intros pv []]|].
  split.
  - apply ordered_map, limit_offset_ordered, sort_rows_ordered.
  - intros pv Hin. apply in_map_iff in Hin as [[p a] [<- Hin]].
    apply limit_offset_In in Hin.
    apply (Permutation_in _ (sort_rows_perm _ _ _)) in Hin.
    unfold selected_posts, matching_posts in Hin.
    apply list_elem_of_In, list_elem_of_filter in Hin as [Hw Hin].
    apply list_elem_of_In, join_row_In in Hin as [Hp [Ha Hid]].
    cbn [fst snd] in Hp, Ha, Hid.
    split; [now exists p, a|].
    apply Is_true_true in Hw. unfold where_clause in Hw.
    apply andb_true_iff in Hw as [Hw Hto].
    apply andb_true_iff in Hw as [Hw Hfrom].
    apply andb_true_iff in Hw as [_ Hcat].
    cbn [view_post pv_category pv_date]. split; [|split].
    + intros Hne.
      destruct (strip (args_get (arg_category args) "")) as [|c s] eqn:Ec;
        [contradiction|].
      cbn [nonempty] in Hcat. destruct (p_category p) as [c'|];
        [|discriminate].
      cbn [on_text] in Hcat. apply String.eqb_eq in Hcat. now subst c'.
    + intros Hne.
      destruct (strip (args_get (arg_dateFrom args) "")) as [|c s] eqn:Ec;
        [contradiction|].
      cbn [nonempty] in Hfrom. destruct (p_date p) as [dt|];
        [|discriminate].
      exists dt. split; [reflexivity|exact Hfrom].
    + intros Hne.
      destruct (strip (args_get (arg_dateTo args) "")) as [|c s] eqn:Ec;
        [contradiction|].
      cbn [nonempty] in Hto. destruct (p_date p) as [dt|];
        [|discriminate].
      exists dt. split; [reflexivity|exact Hto].
Qed.

Section Pages.

Lemma selected_posts_same (a b : posts_args) (d : db) :
  same_query a b -> selected_posts a d = selected_posts b d.
Proof.
  intros [H1 [H2 [H3 [H4 _]]]]. unfold selected_posts.
  now rewrite H1, H2, H3, H4.
Qed.

Lemma request_rank_same (E : engine) (a b : posts_args) (d : db) :
  same_query a b -> request_rank E a d = request_rank E b d.
Proof.
  intros [H1 [H2 [H3 [H4 H5]]]]. unfold request_rank.
  now rewrite H1, H2, H3, H4, H5.
Qed.

Lemma pages_in_a_row (E : engine) (d : db) (base : posts_args) (limit : Z)
    (pages : list posts_args) (k : nat) :
  1 <= limit ->
  like_too_long E (strip (args_get (arg_search base) "")) = false ->
  sqlite_int (Z.of_nat (k + length pages) * limit) ->
  (forall i a, pages !! i = Some a ->
     same_query a base /\
     args_int (arg_page a) 1 = Ok (Z.of_nat (k + i) + 1) /\
     args_int (arg_limit a) 10 = Ok limit) ->
  flat_map (fun a => response_posts (get_posts E a (serving (Some d))).1)
    pages
  = map (view_post d)
      (flat_map
         (fun i =>
            take (Z.to_nat limit)
              (drop (i * Z.to_nat limit)
                 (sort_rows (request_rank E base d)
                    (strip (args_get (arg_sortBy base) "newest"))
                    (selected_posts base d))))
         (seq k (length pages))).
Proof.
  intros Hl Hlike. revert k.
  induction pages as [|a pages IH]; intros k Hrange Hp; [reflexivity|].
  cbn [flat_map length seq]. rewrite map_app. f_equal.
  - destruct (Hp 0%nat a eq_refl) as [Hq [Hpage Hlimit]].
    rewrite get_posts_answer, Hpage, Hlimit.
    rewrite list_checks_pass.
    + replace (limit =? 0) with false by (symmetry; apply Z.eqb_neq; lia).
      cbn zeta. unfold response_posts. cbn [payload].
      rewrite (selected_posts_same a base d Hq).
      rewrite (request_rank_same E a base d Hq).
      destruct Hq as [_ [_ [_ [_ ->]]]].
      unfold limit_offset.
      replace (limit <? 0) with false by (symmetry; apply Z.ltb_ge; lia).
      do 3 f_equal. rewrite Nat.add_0_r.
      replace (Z.of_nat k + 1 - 1) with (Z.of_nat k) by lia.
      rewrite Z2Nat.inj_mul, Nat2Z.id by lia. reflexivity.
    + destruct Hq as [-> _]. exact Hlike.
    + unfold sqlite_int in *. cbn [length] in Hrange. nia.
    + unfold sqlite_int in *. cbn [length] in Hrange. nia.
  - apply (IH (S k)).
    + cbn [length] in Hrange.
      now replace (S k + length pages)%nat with (k + S (length pages))%nat
        by lia.
    + intros i b Hb.
      destruct (Hp (S i) b Hb) as [Hq [Hpage Hlimit]].
      split; [assumption|]. split; [|assumption].
      rewrite Hpage. do 2 f_equal. lia.
Qed.

End Pages.

(** X19: the pages of a listing cover it.  Requests that differ only in
    [page], numbered 1, 2, ... with one [limit >= 1], are answered on the
    same store by one engine, whose order of the rows that tie under
    ORDER BY depends on the filters, the sort key and the rows stored, not
    on the page.  When the pages are enough for the posts selected, the
    ranks they reach are integers that SQLite can hold and the search
    pattern is not longer than the engine takes, the posts listed on the
    pages, one page after the other, are the whole selection, sorted,
    with ties in the order of the engine: every selected post is on
    exactly one page. *)
Theorem get_posts_pages_cover (E : engine) (d : db) (base : posts_args)
    (limit : Z) (pages : list posts_args) :
  1 <= limit ->
  (forall i a, pages !! i = Some a ->
     same_query a base /\
     args_int (arg_page a) 1 = Ok (Z.of_nat i + 1) /\
     args_int (arg_limit a) 10 = Ok limit) ->
  Z.of_nat (length (selected_posts base d))
    <= Z.of_nat (length pages) * limit ->
  sqlite_int (Z.of_nat (length pages) * limit) ->
  like_too_long E (strip (args_get (arg_search base) "")) = false ->
  let listed :=
    flat_map (fun a => response_posts (get_posts E a (serving (Some d))).1)
      pages in
  listed
  = map (view_post d)
      (sort_rows (request_rank E base d)
         (strip (args_get (arg_sortBy base) "newest"))
         (selected_posts base d)) /\
  listed ≡ₚ map (view_post d) (selected_posts base d) /\
  ordered (listed_before (strip (args_get (arg_sortBy base) "newest")))
    listed.
Proof.
  intros Hl Hp Hn Hrange Hlike. cbn zeta.
  rewrite (pages_in_a_row E d base limit pages 0 Hl Hlike Hrange Hp).
  rewrite windows_cover. cbn [Nat.mul]. rewrite drop_0.
  rewrite take_ge by (rewrite length_sort_rows; nia).
  split; [reflexivity|]. split.
  - now rewrite sort_rows_perm.
  - apply ordered_map, sort_rows_ordered.
Qed.

Lemma get_posts_pages_cover_witness :
  flat_map
    (fun a =>
       response_posts (get_posts sample_engine a (serving (Some store_25))).1)
    [page_1_of_10; page_2_of_10; page_3_of_10]
  = map (view_post store_25)
      (sort_rows (request_rank sample_engine no_args store_25) "newest"
         (selected_posts no_args store_25)).
Proof.
  apply (get_posts_pages_cover sample_engine store_25 no_args 10
           [page_1_of_10; page_2_of_10; page_3_of_10]).
  - lia.
  - intros i a Hi. destruct i as [|[|[|i]]]; cbn in Hi;
      try discriminate; injection Hi as <-;
      (split; [repeat split|split; vm_compute; reflexivity]).
  - vm_compute. discriminate.
  - vm_compute. split; [discriminate|reflexivity].
  - vm_compute. reflexivity.
Defined.

(** X20: [get_categories] on a store with its tables answers 200 with the
    categories of the stored posts that are neither null nor empty, each of
    them once, every one not after the next in the order of the code
    points. *)
Theorem get_categories_answer (d : db) :
  exists categories,
    (get_categories (serving (Some d))).1
    = mk_response 200 (BCategories categories) /\
    NoDup categories /\ ordered str_leb categories /\
    forall c, In c categories <->
      c <> "" /\ exists p, In p (posts d) /\ p_category p = Some c.
Proof.
  exists (select_categories d). split; [reflexivity|].
  unfold select_categories. split; [|split].
  - rewrite order_by_perm. apply distinct_NoDup.
  - apply order_by_ordered. apply str_leb_total.
  - intros c. rewrite order_by_In, distinct_In, in_flat_map. split.
    + intros [[p [Hp Hc]] _]. destruct (p_category p) as [c'|] eqn:E;
        [|destruct Hc].
      destruct c' as [|x c']; [destruct Hc|].
      destruct Hc as [<-|[]]. split; [discriminate|]. now exists p.
    + intros [Hne [p [Hp Hc]]]. split; [|tauto].
      exists p. split; [assumption|]. rewrite Hc.
      destruct c; [contradiction|]. now left.
Qed.

(** X21: [get_authors] on a store with its tables answers 200 with at
    most 100 authors: the first 100 of the table in the order of first
    name, then last name, each with its id, full name, email, company and
    job title: the list is the start of an arrangement of the whole table
    in that order.  Authors beyond the first 100 are not listed. *)
Theorem get_authors_answer (E : engine) (d : db) :
  exists rows,
    (get_authors E (serving (Some d))).1
    = mk_response 200
        (BAuthors
           (map (fun a =>
                   mk_author_entry (a_id a)
                     (a_first_name a ++ " " ++ a_last_name a)
                     (a_email a) (a_company a) (a_job_title a))
                rows)) /\
    ordered author_before rows /\
    (forall a, In a rows -> In a (authors d)) /\
    length rows = Nat.min 100 (length (authors d)) /\
    exists rest,
      (rows ++ rest)%list ≡ₚ authors d /\
      ordered author_before (rows ++ rest).
Proof.
  set (table := order_ties (authors_tie_rank E d) (authors d)).
  exists (limit_offset 100 0 (order_by author_before table)).
  split; [reflexivity|].
  pose proof (order_by_ordered author_before author_before_total table)
    as Ho.
  split; [now apply limit_offset_ordered|]. split; [|split].
  - intros a Ha. apply limit_offset_In in Ha. apply order_by_In in Ha.
    now apply order_by_In in Ha.
  - unfold limit_offset. change (100 <? 0) with false. cbn zeta.
    change (Z.to_nat 0) with 0%nat. change (Z.to_nat 100) with 100%nat.
    rewrite drop_0, length_take, length_order_by.
    unfold table, order_ties. rewrite length_order_by. reflexivity.
  - exists (drop 100 (order_by author_before table)).
    unfold limit_offset. change (100 <? 0) with false. cbn zeta.
    change (Z.to_nat 0) with 0%nat. change (Z.to_nat 100) with 100%nat.
    rewrite drop_0, take_drop. split; [|exact Ho].
    rewrite order_by_perm. apply order_by_perm.
Qed.

Section Search.

Lemma like_match_percent (p t : string) :
  like_match (String "%" p) t =
  like_match p t ||
  match t with
  | "" => false
  | String _ t' => like_match (String "%" p) t'
  end.
Proof. destruct t; reflexivity. Qed.

Lemma like_match_percent_end (b : string) : like_match "%" b = true.
Proof.
  induction b as [|c b IH]; [reflexivity|].
  rewrite like_match_percent, IH. apply orb_true_r.
Qed.

Lemma like_match_percent_skip (p : string) (c : ascii) (t : string) :
  like_match (String "%" p) t = true ->
  like_match (String "%" p) (String c t) = true.
Proof.
  intros H. rewrite like_match_percent, H. apply orb_true_r.
Qed.

Lemma like_match_percent_here (p t : string) :
  like_match p t = true -> like_match (String "%" p) t = true.
Proof.
  intros H. rewrite like_match_percent, H. reflexivity.
Qed.

(** A pattern matches the text it is made of, whatever the case of the
    letters A-Z, and then lets anything follow when it ends in [%]. *)
Lemma like_match_same (s t b : string) :
  ascii_lower_text s = ascii_lower_text t ->
  like_match (s ++ "%") (t ++ b) = true.
Proof.
  revert t. induction s as [|c s IH]; intros [|e t] Hst; try discriminate.
  - apply like_match_percent_end.
  - injection Hst as Hc Hst. specialize (IH t Hst).
    change (String c s ++ "%") with (String c (s ++ "%")).
    change (String e t ++ b) with (String e (t ++ b)).
    destruct (Ascii.eqb c "%") eqn:E1.
    + apply Ascii.eqb_eq in E1. subst c.
      apply like_match_percent_skip. now apply like_match_percent_here.
    + destruct (Ascii.eqb c "_") eqn:E2.
      * apply Ascii.eqb_eq in E2. subst c. exact IH.
      * cbn [like_match]. rewrite E1, E2, IH, Hc, Ascii.eqb_refl.
        reflexivity.
Qed.

Lemma like_match_contains (s a t b : string) :
  ascii_lower_text s = ascii_lower_text t ->
  like_match ("%" ++ s ++ "%") (a ++ t ++ b) = true.
Proof.
  intros Hst. change ("%" ++ s ++ "%") with (String "%" (s ++ "%")).
  induction a as [|c a IH].
  - change ("" ++ t ++ b) with (t ++ b).
    apply like_match_percent_here, like_match_same. exact Hst.
  - change (String c a ++ t ++ b) with (String c (a ++ t ++ b)).
    now apply like_match_percent_skip.
Qed.

(** LIKE reads a text through the part of it that has no NUL. *)
Lemma until_nul_app (a b : string) :
  no_nul a -> until_nul (a ++ b) = a ++ until_nul b.
Proof.
  unfold no_nul. induction a as [|c a IH]; intros Ha; [reflexivity|].
  change (String c a ++ b) with (String c (a ++ b)).
  cbn [until_nul] in *. destruct (Nat.eqb (code c) 0); [discriminate|].
  injection Ha as Ha. now rewrite (IH Ha).
Qed.

Lemma sql_like_contains (s a t b : string) :
  no_nul s -> no_nul a -> no_nul t ->
  ascii_lower_text s = ascii_lower_text t ->
  sql_like ("%" ++ s ++ "%") (a ++ t ++ b) = true.
Proof.
  intros Hs Ha Ht Hst. unfold sql_like.
  change ("%" ++ s ++ "%") with (String "%" (s ++ "%")).
  cbn [until_nul]. change (Nat.eqb (code "%") 0) with false. cbv iota.
  rewrite (until_nul_app s "%" Hs), (until_nul_app a (t ++ b) Ha),
    (until_nul_app t b Ht).
  change (until_nul "%") with "%".
  now apply (like_match_contains s a t (until_nul b)).
Qed.

End Search.

(** X22: the search of [get_posts] finds what contains the term.  For a
    trimmed search term without NUL, whose pattern is not longer than the
    engine takes, and no other filter: a post of the join whose text, or
    whose author's first or last name, contains the term, in whatever case
    of the letters A-Z, after a part without NUL, is selected; the request
    is answered 200, counts it in [totalPosts], and lists it on its first
    page when that page holds all the posts selected. *)
Theorem search_finds_text (E : engine) (d : db) (term : string)
    (sort : option string) (p : post) (a : author) (x t y : string) :
  In (p, a) (join_posts_authors d) ->
  strip term <> "" ->
  no_nul (strip term) -> no_nul x -> no_nul t ->
  like_too_long E (strip term) = false ->
  ascii_lower_text (strip term) = ascii_lower_text t ->
  p_text p = Some (x ++ t ++ y) \/ a_first_name a = x ++ t ++ y \/
  a_last_name a = x ++ t ++ y ->
  let args := mk_posts_args (Some term) None None None sort None None in
  In (p, a) (selected_posts args d) /\
  exists page_posts pg,
    (get_posts E args (serving (Some d))).1
    = mk_response 200 (BPosts page_posts pg) /\
    totalPosts pg = Z.of_nat (length (selected_posts args d)) /\
    1 <= totalPosts pg /\
    (totalPosts pg <= 10 -> In (view_post d (p, a)) page_posts).
Proof.
  intros Hin Hne Hterm Hx Ht Hlike Hsame Htext. cbn zeta.
  assert (Hsel : In (p, a)
            (selected_posts
               (mk_posts_args (Some term) None None None sort None None) d)).
  { unfold selected_posts, matching_posts. cbn [arg_search arg_category
      arg_dateFrom arg_dateTo args_get].
    apply list_elem_of_In, list_elem_of_filter.
    split; [|now apply list_elem_of_In].
    apply Is_true_true. unfold where_clause.
    change (strip "") with "". cbn [nonempty andb].
    destruct (strip term) as [|c s] eqn:Et; [contradiction|].
    cbn [nonempty]. rewrite !andb_true_r.
    pose proof (sql_like_contains (String c s) x t y Hterm Hx Ht Hsame)
      as Hfound.
    destruct Htext as [Hp|[Hf|Hl]].
    - rewrite Hp. cbn [on_text]. now rewrite Hfound.
    - rewrite Hf, Hfound. now rewrite orb_true_r.
    - rewrite Hl, Hfound. now rewrite !orb_true_r. }
  split; [exact Hsel|].
  rewrite get_posts_answer. cbn [arg_page arg_limit args_int].
  rewrite list_checks_pass;
    [|exact Hlike|unfold sqlite_int; lia|unfold sqlite_int; lia].
  change (10 =? 0) with false. cbn zeta.
  do 2 eexists. split; [reflexivity|]. cbn [totalPosts].
  split; [reflexivity|]. split.
  - destruct (selected_posts _ d) as [|r l]; [destruct Hsel|].
    cbn [length]. lia.
  - intros Hall. apply in_map. unfold limit_offset.
    change (10 <? 0) with false. cbv iota.
    change (Z.to_nat ((1 - 1) * 10)) with 0%nat.
    change (Z.to_nat 10) with 10%nat. rewrite drop_0.
    rewrite take_ge by (rewrite length_sort_rows; lia).
    apply (Permutation_in _ (Permutation_sym (sort_rows_perm _ _ _))).
    exact Hsel.
Qed.

Lemma search_finds_text_witness :
  In (mk_post 7 1 (Some "hello") None 0 0 0 0 (Some float_zero) None None
        None,
      mk_author 1 "Ann" "Lee" "ann@example.com" None None None 0 0)
    (selected_posts
       (mk_posts_args (Some " ELL ") None None None None None None)
       sample_store).
Proof.
  apply (search_finds_text sample_engine sample_store " ELL " None
           (mk_post 7 1 (Some "hello") None 0 0 0 0 (Some float_zero) None
              None None)
           (mk_author 1 "Ann" "Lee" "ann@example.com" None None None 0 0)
           "h" "ell" "o").
  - vm_compute. left. reflexivity.
  - vm_compute. discriminate.
  - reflexivity.
  - reflexivity.
  - reflexivity.
  - vm_compute. reflexivity.
  - vm_compute. reflexivity.
  - left. reflexivity.
Defined.

Section Sums.

Lemma sql_sum_from_raises (l : list Z) (acc : Z) (e : exn) :
  sql_sum_from acc l = Raise e -> e = OperationalError.
Proof.
  revert acc. induction l as [|x l IH]; intros acc; cbn [sql_sum_from];
    [discriminate|].
  destruct (sqlite_intb (acc + x)); [apply IH|]. now intros [= <-].
Qed.

Lemma sql_sum_from_within (l : list Z) (acc : Z) :
  sql_sum_from acc l <> Beyond.
Proof.
  revert acc. induction l as [|x l IH]; intros acc; cbn [sql_sum_from];
    [discriminate|].
  destruct (sqlite_intb (acc + x)); [apply IH|discriminate].
Qed.

End Sums.

(** X23: on a reachable store the two counts of the API agree: the
    [totalPosts] that [get_posts] reports when no filter is given is the
    number of rows of [posts], and so is the [total_posts] of [get_stats]
    when it answers.  [get_stats] answers 200 unless a sum of likes or of
    comments, taken in the order of the ids, leaves the 64 bits of SQLite:
    then it answers 500. *)
Theorem stats_match_listing (E : engine) (d : db) (sort : option string)
    (Hd : reachable d) :
  (exists page_posts pg,
     (get_posts E (mk_posts_args None None None None sort None None)
        (serving (Some d))).1
     = mk_response 200 (BPosts page_posts pg) /\
     totalPosts pg = Z.of_nat (length (posts d))) /\
  (get_stats (serving (Some d))).1 =
    match sql_sum (map p_likes (by_rowid (posts d))),
          sql_sum (map p_comments (by_rowid (posts d))) with
    | Ok likes, Ok comments =>
        mk_response 200 (BStats (Z.of_nat (length (posts d))) likes comments)
    | _, _ => mk_response 500 (BException OperationalError)
    end.
Proof.
  destruct (reachable_references d Hd) as [Hu Hh]. split.
  - rewrite get_posts_answer.
    cbn [arg_page arg_limit args_int].
    rewrite list_checks_pass;
      [|reflexivity|unfold sqlite_int; lia|unfold sqlite_int; lia].
    change (10 =? 0) with false.
    cbn zeta. do 2 eexists. split; [reflexivity|].
    cbn [totalPosts]. f_equal.
    unfold selected_posts, matching_posts. cbn [arg_search arg_category
      arg_dateFrom arg_dateTo args_get]. change (strip "") with "".
    rewrite filter_all.
    + pose proof (f_equal (@length _) (join_one_row_per_post d Hu Hh))
        as Hlen.
      rewrite length_map in Hlen. exact Hlen.
    + intros [p a] _. exact I.
  - unfold get_stats, try_except, sql_sum. hstep. hstep. hstep.
    destruct (sql_sum_from 0 (map p_likes (by_rowid (posts d))))
      as [likes|e|] eqn:Hlikes.
    + hstep.
      destruct (sql_sum_from 0 (map p_comments (by_rowid (posts d))))
        as [comments|e|] eqn:Hcomments.
      * hstep. reflexivity.
      * apply sql_sum_from_raises in Hcomments as ->. reflexivity.
      * now apply sql_sum_from_within in Hcomments.
    + apply sql_sum_from_raises in Hlikes as ->. reflexivity.
    + now apply sql_sum_from_within in Hlikes.
Qed.

Lemma stats_match_listing_witness :
  exists likes comments page_posts pg,
    (get_stats (serving (Some store_25))).1
    = mk_response 200 (BStats 25 likes comments) /\
    (get_posts sample_engine no_args (serving (Some store_25))).1
    = mk_response 200 (BPosts page_posts pg) /\
    totalPosts pg = 25.
Proof.
  assert (Hd : reachable store_25).
  { eapply reach_step; [apply reach_schema|].
    eapply (step_import cpython_linux _ (Some file_25)).
    vm_compute. reflexivity. }
  destruct (stats_match_listing sample_engine store_25 None Hd)
    as [[page_posts [pg [Hposts Htotal]]] Hstats].
  exists 0, 0, page_posts, pg.
  split; [rewrite Hstats; vm_compute; reflexivity|].
  split; [exact Hposts|exact Htotal].
Defined.

(* ===================================================================== *)
(** * The lines of the file as the importer reads them                    *)
(* ===================================================================== *)

Section Reader.

Lemma dict_row_other (names cells : list string)
    (d : gmap string (option string)) (k : string) :
  ~ In k names -> dict_row names cells d !! k = d !! k.
Proof.
  revert cells d. induction names as [|n names IH]; intros cells d Hk;
    [reflexivity|].
  cbn [dict_row]. destruct cells as [|c cs]; rewrite IH by (cbn in Hk; tauto);
    apply lookup_insert_ne; cbn in Hk; tauto.
Qed.

Lemma dict_row_app (pre rest cells : list string)
    (d : gmap string (option string)) :
  dict_row (pre ++ rest) cells d
  = dict_row rest (drop (length pre) cells) (dict_row pre cells d).
Proof.
  revert cells d. induction pre as [|n pre IH]; intros cells d;
    [reflexivity|].
  cbn [app dict_row length]. destruct cells as [|c cs]; rewrite IH.
  - now rewrite !drop_nil.
  - reflexivity.
Qed.

Lemma dict_row_last (pre post cells : list string) (k : string)
    (d : gmap string (option string)) :
  ~ In k post ->
  dict_row (pre ++ k :: post) cells d !! k = Some (cells !! length pre).
Proof.
  intros Hk. rewrite dict_row_app. cbn [dict_row].
  destruct (drop (length pre) cells) as [|c cs] eqn:E;
    rewrite dict_row_other by assumption; rewrite lookup_insert_eq; f_equal.
  - symmetry. apply lookup_ge_None.
    apply (f_equal (@length _)) in E. rewrite length_drop in E.
    cbn in E. lia.
  - rewrite <- (Nat.add_0_r (length pre)), <- lookup_drop, E. reflexivity.
Qed.

End Reader.

(** X24: how the importer reads a line.  The names of the header are
    trimmed before they name the columns; a line that is not empty becomes
    a row of the import, in which a column holds the cell under the last
    header of its name, null when the line is too short to reach it, and
    in which a name that no header has gives the default. *)
Theorem reader_rows_lookup (header : list string) (body : list (list string))
    (cells pre post : list string) (h : string) (default : pyval) :
  In cells body -> cells <> [] ->
  header = (pre ++ h :: post)%list ->
  ~ In (strip h) (map clean_header post) ->
  let row := dict_row (map clean_header header) cells ∅ in
  In row (reader_rows (header :: body)) /\
  row_get row (strip h) default =
    match cells !! length pre with
    | Some c => PStr c
    | None => PNone
    end /\
  (forall k, ~ In k (map clean_header header) -> row_get row k default = default).
Proof.
  intros Hin Hne -> Hlast. cbn zeta. split; [|split].
  - unfold reader_rows. apply in_map_iff. exists cells.
    split; [reflexivity|]. apply list_elem_of_In, list_elem_of_filter.
    split; [|now apply list_elem_of_In].
    apply Is_true_true, negb_true_iff, bool_decide_eq_false. exact Hne.
  - unfold row_get. rewrite map_app. cbn [map].
    change (clean_header h) with (strip h).
    rewrite dict_row_last by assumption. rewrite length_map.
    now destruct (cells !! length pre).
  - intros k Hk. unfold row_get. rewrite dict_row_other by assumption.
    now rewrite lookup_empty.
Qed.

Lemma reader_rows_lookup_witness :
  row_get
    (dict_row (map clean_header ["post_id "; " likes"; "post_id"]) ["7"; "3"] ∅)
    "post_id" (PInt 0) = PNone.
Proof.
  apply (reader_rows_lookup ["post_id "; " likes"; "post_id"] [["7"; "3"]]
           ["7"; "3"] ["post_id "; " likes"] [] "post_id" (PInt 0)).
  - left. reflexivity.
  - discriminate.
  - reflexivity.
  - intros [].
Defined.
